(** * Tauri-JSON-Editor: the text/tree synchronizer of [App.vue]

    A shallow embedding of the script part of the three revisions of
    [App.vue] found in the repository, together with the two platform
    functions the script calls, [JSON.parse] and [JSON.stringify], which are
    modelled after ECMA-262 (sections 25.5.1 and 25.5.2).

    - JavaScript strings are sequences of UTF-16 code units.
    - JavaScript numbers are IEEE-754 binary64 values ([spec_float] at
      precision 53).
    - Reactive state ([ref]) is a record threaded through the handlers; the
      watcher on [rawJsonInput] is run after a handler whenever the handler
      left a different text in the buffer. *)

From Stdlib Require Import List NArith ZArith Bool Lia String Ascii.
From Stdlib Require Import Floats.SpecFloat.
From Stdlib Require DecimalFacts DecimalPos DecimalN.
Import ListNotations.

(** * The platform: strings, numbers, JSON *)

(** ** Strings *)

Definition codeunit := N.

Definition jsstring := list codeunit.

(** An ASCII literal as a JavaScript string. *)
Definition str (s : string) : jsstring :=
  map N_of_ascii (list_ascii_of_string s).

Definition LF : codeunit := 10%N.

Definition QUOTE : codeunit := 34%N.

Definition SPACE : codeunit := 32%N.

Fixpoint jsstring_eqb (a b : jsstring) : bool :=
  match a, b with
  | [], [] => true
  | x :: a', y :: b' => N.eqb x y && jsstring_eqb a' b'
  | _, _ => false
  end.

(** [s.startsWith(p)], returning what follows the prefix. *)
Fixpoint strip_prefix (p s : jsstring) : option jsstring :=
  match p, s with
  | [], _ => Some s
  | x :: p', y :: s' => if N.eqb x y then strip_prefix p' s' else None
  | _ :: _, [] => None
  end.

(** ** Numbers *)

(** The Number type: binary64, with plain [Z] and [positive] for its
    fields. *)
Definition number := spec_float.

Definition prec : Z := 53.

Definition emax : Z := 1024.

Definition isFinite (x : number) : bool :=
  match x with
  | S754_zero _ | S754_finite _ _ _ => true
  | S754_infinity _ | S754_nan => false
  end.

Definition is_digit (c : codeunit) : bool := N.leb 48 c && N.leb c 57.

(** Reads a run of decimal digits: the accumulated value, how many digits
    were read, and the rest of the input. *)
Fixpoint read_digits (s : jsstring) (acc count : N) : N * N * jsstring :=
  match s with
  | c :: s' =>
      if is_digit c then read_digits s' (10 * acc + (c - 48))%N (N.succ count)
      else (acc, count, s)
  | [] => (acc, count, [])
  end.

(** The binary64 value nearest to [m * 10^e10] (ties to even), with the
    sign [neg]: the Number value of a decimal literal. *)
Definition round_decimal (neg : bool) (m : N) (e10 : Z) : number :=
  match m with
  | N0 => S754_zero neg
  | Npos p =>
      if Z.leb 0 e10
      then binary_round prec emax neg (p * Z.to_pos (10 ^ e10))%positive 0
      else SFdiv prec emax (S754_finite neg p 0)
                           (S754_finite false (Z.to_pos (10 ^ (- e10))) 0)
  end.

Definition is_e (c : codeunit) : bool := N.eqb c 101 || N.eqb c 69.

(** The Number value of a JSON number token. *)
Definition StringToNumber (tok : jsstring) : number :=
  let (neg, s) := match tok with
                  | c :: t => if N.eqb c 45 then (true, t) else (false, tok)
                  | [] => (false, tok)
                  end in
  let '(ip, _, s1) := read_digits s 0 0 in
  let '(m, fl, s2) := match s1 with
                      | c :: t => if N.eqb c 46 then read_digits t ip 0
                                  else (ip, 0%N, s1)
                      | [] => (ip, 0%N, s1)
                      end in
  let ex : Z :=
    match s2 with
    | c :: t =>
        if is_e c then
          match t with
          | d :: t' =>
              if N.eqb d 45 then (- Z.of_N (fst (fst (read_digits t' 0 0))))%Z
              else if N.eqb d 43 then Z.of_N (fst (fst (read_digits t' 0 0)))
              else Z.of_N (fst (fst (read_digits t 0 0)))
          | [] => 0%Z
          end
        else 0%Z
    | [] => 0%Z
    end in
  round_decimal neg m (ex - Z.of_N fl).

(** The digits of a decimal numeral. *)
Fixpoint uint_units (d : Decimal.uint) : jsstring :=
  match d with
  | Decimal.Nil => []
  | Decimal.D0 d' => 48%N :: uint_units d'
  | Decimal.D1 d' => 49%N :: uint_units d'
  | Decimal.D2 d' => 50%N :: uint_units d'
  | Decimal.D3 d' => 51%N :: uint_units d'
  | Decimal.D4 d' => 52%N :: uint_units d'
  | Decimal.D5 d' => 53%N :: uint_units d'
  | Decimal.D6 d' => 54%N :: uint_units d'
  | Decimal.D7 d' => 55%N :: uint_units d'
  | Decimal.D8 d' => 56%N :: uint_units d'
  | Decimal.D9 d' => 57%N :: uint_units d'
  end.

(** The integer a number denotes, when it is one of magnitude below 2^53. *)
Definition integer_value (x : number) : option Z :=
  match x with
  | S754_zero _ => Some 0%Z
  | S754_finite s m e =>
      let mag :=
        if Z.leb 0 e then Some (Zpos m * 2 ^ e)%Z
        else if Z.eqb (Zpos m mod 2 ^ (- e)) 0 then Some (Zpos m / 2 ^ (- e))%Z
        else None in
      match mag with
      | Some z => if Z.ltb z (2 ^ 53) then Some (if s then (- z)%Z else z)
                  else None
      | None => None
      end
  | S754_infinity _ | S754_nan => None
  end.

(** The binary64 value of a positive integer below 2^53: the mantissa is
    shifted up to 53 bits. *)
Definition of_positive (neg : bool) (p : positive) : number :=
  match (53 - Zpos (digits2_pos p))%Z with
  | Zpos k => S754_finite neg (Pos.iter xO p k) (Zneg k)
  | _ => S754_finite neg p 0
  end.

(** The Number value of an integer. *)
Definition Number_of_Z (z : Z) : number := binary_normalize prec emax z 0 false.

(** Structural equality of numbers (it tells the two zeros apart). *)
Definition number_eqb (x y : number) : bool :=
  match x, y with
  | S754_zero a, S754_zero b => Bool.eqb a b
  | S754_infinity a, S754_infinity b => Bool.eqb a b
  | S754_nan, S754_nan => true
  | S754_finite a m e, S754_finite b m' e' =>
      Bool.eqb a b && Pos.eqb m m' && Z.eqb e e'
  | _, _ => false
  end.

(** ** JSON values *)

Unset Elimination Schemes.
Inductive JSON : Type :=
| JNull
| JBool (b : bool)
| JNumber (x : number)
| JString (s : jsstring)
| JArray (elements : list JSON)
| JObject (members : list (jsstring * JSON)).
Set Elimination Schemes.

Fixpoint numbers_of (v : JSON) : list number :=
  match v with
  | JNumber x => [x]
  | JArray l => flat_map numbers_of l
  | JObject l => flat_map (fun kv => numbers_of (snd kv)) l
  | JNull | JBool _ | JString _ => []
  end.

(** How much fuel [parse_value] needs for the text of a value. *)
Fixpoint size (v : JSON) : nat :=
  match v with
  | JArray l => S (list_sum (map (fun e => S (size e)) l))
  | JObject l => S (list_sum (map (fun kv => S (size (snd kv))) l))
  | JNull | JBool _ | JNumber _ | JString _ => 1
  end.

(** *** Property order of ordinary objects

    [OrdinaryOwnPropertyKeys] lists the array-index keys first, in ascending
    order, then the other string keys in order of creation. *)

Definition array_index (k : jsstring) : option N :=
  match k with
  | [] => None
  | c :: t =>
      if forallb is_digit k && (negb (N.eqb c 48) || match t with [] => true | _ => false end)
      then let n := fst (fst (read_digits k 0 0)) in
           if N.ltb n 4294967295 then Some n else None
      else None
  end.

Fixpoint replace_value (k : jsstring) (v : JSON) (l : list (jsstring * JSON))
  : option (list (jsstring * JSON)) :=
  match l with
  | [] => None
  | (k', v') :: t =>
      if jsstring_eqb k k' then Some ((k', v) :: t)
      else match replace_value k v t with
           | Some t' => Some ((k', v') :: t')
           | None => None
           end
  end.

Fixpoint insert_index (i : N) (k : jsstring) (v : JSON) (l : list (jsstring * JSON))
  : list (jsstring * JSON) :=
  match l with
  | [] => [(k, v)]
  | (k', v') :: t =>
      match array_index k' with
      | Some j => if N.leb j i then (k', v') :: insert_index i k v t
                  else (k, v) :: l
      | None => (k, v) :: l
      end
  end.

(** [CreateDataProperty(obj, k, v)] on the member list of [obj]: an existing
    key keeps its place and takes the new value; a new array index goes
    after the indices it is not below, a new string key goes last. *)
Definition CreateDataProperty (l : list (jsstring * JSON)) (k : jsstring) (v : JSON)
  : list (jsstring * JSON) :=
  match replace_value k v l with
  | Some l' => l'
  | None =>
      match array_index k with
      | Some i => insert_index i k v l
      | None => l ++ [(k, v)]
      end
  end.

(** Defines the members one after the other, as [JSON.parse] does. *)
Definition define_all (members obj : list (jsstring * JSON))
  : list (jsstring * JSON) :=
  fold_left (fun obj kv => CreateDataProperty obj (fst kv) (snd kv)) members obj.

(** [k1] may come before [k2] in the property order of an object. *)
Definition key_before (k1 k2 : jsstring) : bool :=
  negb (jsstring_eqb k1 k2) &&
  match array_index k2 with
  | Some i2 =>
      match array_index k1 with
      | Some i1 => N.leb i1 i2
      | None => false
      end
  | None => true
  end.

Fixpoint ordered_keys (ks : list jsstring) : bool :=
  match ks with
  | [] => true
  | k :: t => forallb (key_before k) t && ordered_keys t
  end.

(** Every object in [v] lists distinct keys in property order, as every
    JavaScript object does. *)
Fixpoint canonical (v : JSON) : bool :=
  match v with
  | JArray l => forallb canonical l
  | JObject l =>
      ordered_keys (map fst l) && forallb (fun kv => canonical (snd kv)) l
  | JNull | JBool _ | JNumber _ | JString _ => true
  end.

(** All the numbers of [v] are integers of magnitude below 2^53. *)
Definition integral (v : JSON) : Prop :=
  Forall (fun x => exists z, (Z.abs z < 2 ^ 53)%Z /\ x = Number_of_Z z)
         (numbers_of v).

(** ** JSON.parse *)

Definition is_ws (c : codeunit) : bool :=
  N.eqb c 9 || N.eqb c 10 || N.eqb c 13 || N.eqb c 32.

Fixpoint skip_ws (s : jsstring) : jsstring :=
  match s with
  | c :: t => if is_ws c then skip_ws t else s
  | [] => []
  end.

(** A run of JSON white space. *)
Definition all_ws (w : jsstring) : Prop := Forall (fun c => is_ws c = true) w.

Definition hex_value (c : codeunit) : option N :=
  if is_digit c then Some (c - 48)%N
  else if N.leb 97 c && N.leb c 102 then Some (c - 87)%N
  else if N.leb 65 c && N.leb c 70 then Some (c - 55)%N
  else None.

Definition hex4 (a b c d : codeunit) : option codeunit :=
  match hex_value a, hex_value b, hex_value c, hex_value d with
  | Some x, Some y, Some z, Some w => Some (x * 4096 + y * 256 + z * 16 + w)%N
  | _, _, _, _ => None
  end.

(** The code unit denoted by the character after a backslash. *)
Definition simple_escape (c : codeunit) : option codeunit :=
  if N.eqb c 34 then Some 34%N
  else if N.eqb c 92 then Some 92%N
  else if N.eqb c 47 then Some 47%N
  else if N.eqb c 98 then Some 8%N
  else if N.eqb c 102 then Some 12%N
  else if N.eqb c 110 then Some 10%N
  else if N.eqb c 114 then Some 13%N
  else if N.eqb c 116 then Some 9%N
  else None.

(** The characters of a string literal, after its opening quote. *)
Fixpoint parse_chars (s : jsstring) : option (jsstring * jsstring) :=
  match s with
  | [] => None
  | c :: t =>
      if N.eqb c 34 then Some ([], t)
      else if N.eqb c 92 then
        match t with
        | [] => None
        | e :: t' =>
            if N.eqb e 117 then
              match t' with
              | h1 :: h2 :: h3 :: h4 :: t'' =>
                  match hex4 h1 h2 h3 h4 with
                  | Some u =>
                      match parse_chars t'' with
                      | Some (r, rest) => Some (u :: r, rest)
                      | None => None
                      end
                  | None => None
                  end
              | _ => None
              end
            else
              match simple_escape e with
              | Some u =>
                  match parse_chars t' with
                  | Some (r, rest) => Some (u :: r, rest)
                  | None => None
                  end
              | None => None
              end
        end
      else if N.ltb c 32 then None
      else match parse_chars t with
           | Some (r, rest) => Some (c :: r, rest)
           | None => None
           end
  end.

(** The longest run of digits at the front. *)
Fixpoint span_digits (s : jsstring) : jsstring * jsstring :=
  match s with
  | c :: t => if is_digit c then let (ds, r) := span_digits t in (c :: ds, r)
              else ([], s)
  | [] => ([], [])
  end.

Definition scan_exp (acc s : jsstring) : option (jsstring * jsstring) :=
  match s with
  | c :: t =>
      if is_e c then
        let (sg, t1) := match t with
                        | d :: t' => if N.eqb d 45 || N.eqb d 43 then ([d], t')
                                     else ([], t)
                        | [] => ([], t)
                        end in
        match span_digits t1 with
        | ([], _) => None
        | (ds, r) => Some (acc ++ c :: sg ++ ds, r)
        end
      else Some (acc, s)
  | [] => Some (acc, s)
  end.

Definition scan_frac (acc s : jsstring) : option (jsstring * jsstring) :=
  match s with
  | c :: t =>
      if N.eqb c 46 then
        match span_digits t with
        | ([], _) => None
        | (ds, r) => scan_exp (acc ++ c :: ds) r
        end
      else scan_exp acc s
  | [] => scan_exp acc s
  end.

(** The JSON number token at the front of [s], and what follows it. *)
Definition scan_number (s : jsstring) : option (jsstring * jsstring) :=
  let (sg, s1) := match s with
                  | c :: t => if N.eqb c 45 then ([c], t) else ([], s)
                  | [] => ([], s)
                  end in
  match s1 with
  | c :: t =>
      if N.eqb c 48 then scan_frac (sg ++ [c]) t
      else if is_digit c then
        let (ds, r) := span_digits t in scan_frac (sg ++ c :: ds) r
      else None
  | [] => None
  end.

(** What may follow a number token without being taken for part of it. *)
Definition number_end (rest : jsstring) : bool :=
  match rest with
  | [] => true
  | c :: _ => negb (is_digit c) && negb (N.eqb c 46) && negb (is_e c)
  end.

(** [tok] is exactly one JSON number token. *)
Definition number_literal (tok : jsstring) : Prop :=
  scan_number tok = Some (tok, []).

(** The first character of a value. *)
Definition value_start (c : codeunit) : bool :=
  negb (is_ws c) && negb (N.eqb c 93).

Fixpoint parse_value (fuel : nat) (s : jsstring) : option (JSON * jsstring) :=
  match fuel with
  | O => None
  | S f =>
      match s with
      | [] => None
      | c :: t =>
          if N.eqb c 110 then
            match strip_prefix (str "ull") t with
            | Some r => Some (JNull, r) | None => None end
          else if N.eqb c 116 then
            match strip_prefix (str "rue") t with
            | Some r => Some (JBool true, r) | None => None end
          else if N.eqb c 102 then
            match strip_prefix (str "alse") t with
            | Some r => Some (JBool false, r) | None => None end
          else if N.eqb c 34 then
            match parse_chars t with
            | Some (x, r) => Some (JString x, r) | None => None end
          else if N.eqb c 91 then
            match skip_ws t with
            | d :: r => if N.eqb d 93 then Some (JArray [], r)
                        else parse_elements f (d :: r) []
            | [] => None
            end
          else if N.eqb c 123 then
            match skip_ws t with
            | d :: r => if N.eqb d 125 then Some (JObject [], r)
                        else parse_members f (d :: r) []
            | [] => None
            end
          else
            match scan_number s with
            | Some (tok, r) => Some (JNumber (StringToNumber tok), r)
            | None => None
            end
      end
  end

with parse_elements (fuel : nat) (s : jsstring) (acc : list JSON)
  : option (JSON * jsstring) :=
  match fuel with
  | O => None
  | S f =>
      match parse_value f s with
      | Some (v, r) =>
          match skip_ws r with
          | d :: r' =>
              if N.eqb d 44 then parse_elements f (skip_ws r') (v :: acc)
              else if N.eqb d 93 then Some (JArray (rev (v :: acc)), r')
              else None
          | [] => None
          end
      | None => None
      end
  end

with parse_members (fuel : nat) (s : jsstring) (obj : list (jsstring * JSON))
  : option (JSON * jsstring) :=
  match fuel with
  | O => None
  | S f =>
      match s with
      | q :: t =>
          if N.eqb q 34 then
            match parse_chars t with
            | Some (k, r) =>
                match skip_ws r with
                | d :: r1 =>
                    if N.eqb d 58 then
                      match parse_value f (skip_ws r1) with
                      | Some (v, r2) =>
                          match skip_ws r2 with
                          | d' :: r3 =>
                              if N.eqb d' 44
                              then parse_members f (skip_ws r3) (CreateDataProperty obj k v)
                              else if N.eqb d' 125
                              then Some (JObject (CreateDataProperty obj k v), r3)
                              else None
                          | [] => None
                          end
                      | None => None
                      end
                    else None
                | [] => None
                end
            | None => None
            end
          else None
      | [] => None
      end
  end.

(** The value of a JSON text, [None] when the text is not valid JSON. *)
Definition parse_text (text : jsstring) : option JSON :=
  match parse_value (S (List.length text)) (skip_ws text) with
  | Some (v, rest) =>
      match skip_ws rest with
      | [] => Some v
      | _ :: _ => None
      end
  | None => None
  end.

(** ** JSON.stringify *)

Definition hex_digit (n : N) : codeunit :=
  if N.ltb n 10 then (48 + n)%N else (87 + n)%N.

(** [UnicodeEscape(C)]: a backslash, [u] and four lowercase hex digits. *)
Definition UnicodeEscape (c : codeunit) : jsstring :=
  [92%N; 117%N; hex_digit (c / 4096); hex_digit ((c / 256) mod 16);
   hex_digit ((c / 16) mod 16); hex_digit (c mod 16)].

Definition is_leading_surrogate (c : codeunit) : bool :=
  N.leb 55296 c && N.leb c 56319.

Definition is_trailing_surrogate (c : codeunit) : bool :=
  N.leb 56320 c && N.leb c 57343.

(** One code unit that is not half of a surrogate pair, as
    [QuoteJSONString] writes it. *)
Definition escape_unit (c : codeunit) : jsstring :=
  if N.eqb c 8 then [92; 98]%N
  else if N.eqb c 9 then [92; 116]%N
  else if N.eqb c 10 then [92; 110]%N
  else if N.eqb c 12 then [92; 102]%N
  else if N.eqb c 13 then [92; 114]%N
  else if N.eqb c 34 then [92; 34]%N
  else if N.eqb c 92 then [92; 92]%N
  else if N.ltb c 32 || is_leading_surrogate c || is_trailing_surrogate c
  then UnicodeEscape c
  else [c].

Fixpoint quote_units (s : jsstring) : jsstring :=
  match s with
  | [] => []
  | c :: t =>
      if is_leading_surrogate c then
        match t with
        | d :: t' =>
            if is_trailing_surrogate d then c :: d :: quote_units t'
            else UnicodeEscape c ++ quote_units t
        | [] => UnicodeEscape c
        end
      else escape_unit c ++ quote_units t
  end.

Definition QuoteJSONString (s : jsstring) : jsstring :=
  QUOTE :: quote_units s ++ [QUOTE].

Fixpoint join (sep : jsstring) (parts : list jsstring) : jsstring :=
  match parts with
  | [] => []
  | p :: rest =>
      match rest with
      | [] => p
      | _ :: _ => p ++ sep ++ join sep rest
      end
  end.

(** The tail shared by [SerializeJSONArray] and [SerializeJSONObject]:
    [partial] holds the serialized elements or members, [stepback] the
    indentation of the enclosing level. *)
Definition wrap (opening closing : codeunit) (gap stepback : jsstring)
    (partial : list jsstring) : jsstring :=
  match partial with
  | [] => [opening; closing]
  | _ :: _ =>
      match gap with
      | [] => opening :: join [44%N] partial ++ [closing]
      | _ :: _ =>
          let indent := stepback ++ gap in
          opening :: LF :: indent ++ join (44%N :: LF :: indent) partial
                  ++ LF :: stepback ++ [closing]
      end
  end.

Section Engine.

(** [Number::toString] on the finite numbers that are not integers below
    2^53: the shortest decimal that reads back as the number. The digits
    come from the engine. *)
Variable shortest_decimal : number -> jsstring.

(** The message of the [SyntaxError] that [JSON.parse] throws for a text;
    its wording is the engine's. *)
Variable SyntaxError_message : jsstring -> jsstring.

Definition Number_toString (x : number) : jsstring :=
  match x with
  | S754_nan => str "NaN"
  | S754_infinity s => (if s then [45%N] else []) ++ str "Infinity"
  | S754_zero _ | S754_finite _ _ _ =>
      match integer_value x with
      | Some z => (if Z.ltb z 0 then [45%N] else [])
                    ++ uint_units (N.to_uint (Z.abs_N z))
      | None => shortest_decimal x
      end
  end.

Fixpoint SerializeJSONProperty (gap indent : jsstring) (v : JSON) : jsstring :=
  match v with
  | JNull => str "null"
  | JBool b => if b then str "true" else str "false"
  | JNumber x => if isFinite x then Number_toString x else str "null"
  | JString s => QuoteJSONString s
  | JArray l =>
      wrap 91%N 93%N gap indent
           (map (SerializeJSONProperty gap (indent ++ gap)) l)
  | JObject l =>
      wrap 123%N 125%N gap indent
           (map (fun kv =>
                   QuoteJSONString (fst kv) ++ 58%N
                     :: match gap with [] => [] | _ :: _ => [SPACE] end
                     ++ SerializeJSONProperty gap (indent ++ gap) (snd kv)) l)
  end.

(** [JSON.stringify(value, null, space)]; [JSON.stringify(value)] is the
    case [space = 0]. *)
Definition JSON_stringify (value : JSON) (space : nat) : jsstring :=
  SerializeJSONProperty (repeat SPACE (Nat.min 10 space)) [] value.

(** [JSON.parse(text)]: the value, or the message of the exception. *)
Definition JSON_parse (text : jsstring) : JSON + jsstring :=
  match parse_text text with
  | Some v => inl v
  | None => inr (SyntaxError_message text)
  end.

(** *** Values that survive serialization *)

(** The text written for [x] is a number token. *)
Definition prints_number (x : number) : Prop :=
  isFinite x = true -> number_literal (Number_toString x).

(** The text written for [x] is a number token that denotes [x]. Of the
    binary64 values, the finite ones other than negative zero do. *)
Definition reads_back (x : number) : Prop :=
  isFinite x = true /\ number_literal (Number_toString x)
  /\ StringToNumber (Number_toString x) = x.

Definition prints (v : JSON) : Prop := Forall prints_number (numbers_of v).

(** A value that JSON text can represent. *)
Definition representable (v : JSON) : Prop :=
  canonical v = true /\ Forall reads_back (numbers_of v).

(** What reading the text of [v] gives. *)
Fixpoint normalize (v : JSON) : JSON :=
  match v with
  | JNumber x =>
      if isFinite x then JNumber (StringToNumber (Number_toString x)) else JNull
  | JArray l => JArray (map normalize l)
  | JObject l =>
      JObject (define_all (map (fun kv => (fst kv, normalize (snd kv))) l) [])
  | JNull | JBool _ | JString _ => v
  end.

(** One member as [SerializeJSONObject] writes it; [sp] is the space after
    the colon, if any. *)
Definition member_text (gap indent sp : jsstring) (kv : jsstring * JSON) : jsstring :=
  QuoteJSONString (fst kv) ++ 58%N :: sp ++ SerializeJSONProperty gap indent (snd kv).

Definition norm_member (kv : jsstring * JSON) : jsstring * JSON :=
  (fst kv, normalize (snd kv)).

(** [parse_value] reads the text of [v] back, whatever follows it. *)
Definition reads (gap indent : jsstring) (v : JSON) : Prop :=
  forall rest fuel, size v <= fuel -> number_end rest = true ->
    parse_value fuel (SerializeJSONProperty gap indent v ++ rest) = Some (normalize v, rest).

End Engine.

(** * The component *)

(** ** String helpers used by the script *)

(** [s.split(sep)] for a one-character separator; never empty. *)
Fixpoint split (sep : codeunit) (s : jsstring) : list jsstring :=
  match s with
  | [] => [[]]
  | c :: t =>
      if N.eqb c sep then [] :: split sep t
      else match split sep t with
           | h :: r => (c :: h) :: r
           | [] => [[c]]
           end
  end.

(** [a.pop()] on the result of [split], which always has a last element. *)
Definition pop (a : list jsstring) : jsstring := last a [].

(** [a.includes(x)] on an array of strings. *)
Definition includes (a : list jsstring) (x : jsstring) : bool :=
  existsb (jsstring_eqb x) a.

(** White space and line terminators, as [String.prototype.trim] sees them. *)
Definition is_trim_space (c : codeunit) : bool :=
  (N.leb 9 c && N.leb c 13) || N.eqb c 32 || N.eqb c 160 || N.eqb c 5760
  || (N.leb 8192 c && N.leb c 8202) || N.eqb c 8232 || N.eqb c 8233
  || N.eqb c 8239 || N.eqb c 8287 || N.eqb c 12288 || N.eqb c 65279.

Fixpoint trimStart (s : jsstring) : jsstring :=
  match s with
  | c :: t => if is_trim_space c then trimStart t else s
  | [] => []
  end.

Definition trim (s : jsstring) : jsstring :=
  rev (trimStart (rev (trimStart s))).

(** [line.endsWith('\0')] *)
Definition endsWithNul (line : jsstring) : bool :=
  match rev line with
  | c :: _ => N.eqb c 0
  | [] => false
  end.

(** The loop of [displayJSON] over the lines of the file: a trailing NUL is
    cut from a line, and every line is followed by a line feed. *)
Definition file_text (lines : list jsstring) : jsstring :=
  fold_left
    (fun parsed line =>
       parsed ++ (if endsWithNul line then removelast line else line) ++ [LF])
    lines [].

(** In the words of the claim on file types, to be compared with the
    [split('.').pop()] of the script: what comes after the last full stop
    of a path, the whole path when it has none. *)
Fixpoint after_last_dot (p : jsstring) : jsstring :=
  match p with
  | [] => []
  | c :: t =>
      if existsb (N.eqb 46) t then after_last_dot t
      else if N.eqb c 46 then t
      else c :: t
  end.

(** ** State of the component

    The refs of the script that the synchronization rule reads or writes.
    The first revision calls [errorMessage] [error] and has neither
    [isFormatMode] nor [defaultPath]; font sizes, panel visibility and the
    colour preference take no part in the rule and are left out. *)

(** The document the script starts with. *)
Definition sample : jsstring :=
  str "{
  " ++ QUOTE :: str "name" ++ QUOTE :: str ": " ++ QUOTE :: str "Tauri-JSON-Editor" ++ QUOTE :: str ",
  " ++ QUOTE :: str "version" ++ QUOTE :: str ": " ++ QUOTE :: str "1.0.0" ++ QUOTE :: str ",
  " ++ QUOTE :: str "isAwesome" ++ QUOTE :: str ": true,
  " ++ QUOTE :: str "features" ++ QUOTE :: str ": [
    " ++ QUOTE :: str "Real-time JSON validation" ++ QUOTE :: str ",
    " ++ QUOTE :: str "Pretty formatting" ++ QUOTE :: str "
  ],
  " ++ QUOTE :: str "details" ++ QUOTE :: str ": {
    " ++ QUOTE :: str "level" ++ QUOTE :: str ": 1,
    " ++ QUOTE :: str "active" ++ QUOTE :: str ": null
  }
}".

Record State : Type := {
  rawJsonInput : jsstring;
  errorMessage : jsstring;
  displayData : JSON;
  isFormatMode : bool;
  defaultPath : jsstring
}.

Definition set_rawJsonInput (x : jsstring) (s : State) : State :=
  {| rawJsonInput := x; errorMessage := errorMessage s;
     displayData := displayData s; isFormatMode := isFormatMode s;
     defaultPath := defaultPath s |}.

Definition set_errorMessage (x : jsstring) (s : State) : State :=
  {| rawJsonInput := rawJsonInput s; errorMessage := x;
     displayData := displayData s; isFormatMode := isFormatMode s;
     defaultPath := defaultPath s |}.

Definition set_displayData (x : JSON) (s : State) : State :=
  {| rawJsonInput := rawJsonInput s; errorMessage := errorMessage s;
     displayData := x; isFormatMode := isFormatMode s;
     defaultPath := defaultPath s |}.

Definition set_isFormatMode (x : bool) (s : State) : State :=
  {| rawJsonInput := rawJsonInput s; errorMessage := errorMessage s;
     displayData := displayData s; isFormatMode := x;
     defaultPath := defaultPath s |}.

Definition set_defaultPath (x : jsstring) (s : State) : State :=
  {| rawJsonInput := rawJsonInput s; errorMessage := errorMessage s;
     displayData := displayData s; isFormatMode := isFormatMode s;
     defaultPath := x |}.

Definition fileExtensions : list jsstring := [str "json"; str "txt"].

(** What [readTextFileLines] and the loop over its lines meet. *)
Inductive read_result : Type :=
| ReadLines (lines : list jsstring)
| ReadThrows.

(** What the save dialog hands back. *)
Inductive save_result : Type :=
| SaveThrows (error : jsstring)
| SaveCancelled
| SavePath (filePath : jsstring)
| SaveOther.

(** What [writeTextFile] does: [Some error] when it throws. *)
Definition write_result := option jsstring.

Section App.

Variable shortest_decimal : number -> jsstring.
Variable SyntaxError_message : jsstring -> jsstring.

Local Notation "'parse'" := (JSON_parse SyntaxError_message).
Local Notation "'stringify'" := (JSON_stringify shortest_decimal).

(** The script's top level: the refs and the first parse. *)
Definition initial : State :=
  {| rawJsonInput := sample;
     errorMessage := [];
     displayData :=
       match parse sample with
       | inl parsed => parsed
       | inr _ => JObject [(str "error", JString (str "Invalid initial JSON"))]
       end;
     isFormatMode := false;
     defaultPath := str "untitled.json" |}.

(** The callback of the watcher on [rawJsonInput]; the first two revisions
    have the same body inline in [watch]. *)
Definition handleRawJsonInputChange (newInput : jsstring) (s : State) : State :=
  match parse newInput with
  | inl parsed => set_errorMessage [] (set_displayData parsed s)
  | inr message => set_errorMessage message s
  end.

Definition handleEdit (newData : JSON) (s : State) : State :=
  set_rawJsonInput (stringify newData 2) s.

Definition formatJson (s : State) : State :=
  match parse (rawJsonInput s) with
  | inl parsed => set_errorMessage [] (set_rawJsonInput (stringify parsed 2) s)
  | inr message => set_errorMessage (str "Invalid JSON: " ++ message) s
  end.

Definition minifyJson (s : State) : State :=
  match parse (rawJsonInput s) with
  | inl parsed => set_errorMessage [] (set_rawJsonInput (stringify parsed 0) s)
  | inr message => set_errorMessage (str "Invalid JSON: " ++ message) s
  end.

Definition _toggleFormat (isFormatMode : bool) (s : State) : State :=
  match parse (rawJsonInput s) with
  | inl parsed =>
      set_errorMessage []
        (set_rawJsonInput (if negb isFormatMode then stringify parsed 2
                           else stringify parsed 0) s)
  | inr message => set_errorMessage (str "Invalid JSON: " ++ message) s
  end.

Definition toggleFormatMinify (s : State) : State :=
  let s1 := set_isFormatMode (negb (isFormatMode s)) s in
  _toggleFormat (isFormatMode s1) s1.

(** [displayJSON(filePath)]; [file] is what reading the path yields. A
    failed read rejects the promise before any ref is written. *)
Definition displayJSON (filePath : option jsstring) (file : read_result)
    (s : State) : State :=
  match filePath with
  | None | Some [] => set_errorMessage (str "file extension is null.") s
  | Some ((_ :: _) as path) =>
      let fileExtension := pop (split 46%N path) in
      if negb (includes fileExtensions fileExtension)
      then set_errorMessage (str "Unsupported file type: " ++ fileExtension) s
      else
        match file with
        | ReadThrows => s
        | ReadLines lines =>
            let parsed := file_text lines in
            let s1 := set_rawJsonInput (trim parsed) s in
            _toggleFormat (isFormatMode s1) s1
        end
  end.

(** [openFile()], once the dialog has answered with [filePath]. *)
Definition openFile (filePath : option jsstring) (file : read_result)
    (s : State) : State :=
  displayJSON filePath file s.

(** The listener that [handleFileDragDrop] installs. *)
Definition dragDrop (paths : list jsstring) (file : read_result)
    (s : State) : State :=
  match paths with
  | [] => s
  | path :: _ =>
      let s1 := set_defaultPath path s in
      displayJSON (Some (defaultPath s1)) file s1
  end.

(** [saveFile()]: the new state and the file written, if any. *)
Definition saveFile (dialog : save_result) (write : write_result) (s : State)
  : State * option (jsstring * jsstring) :=
  match dialog with
  | SaveThrows error =>
      (set_errorMessage (str "Error saving file: " ++ error) s, None)
  | SaveCancelled | SavePath [] =>
      (set_errorMessage (str "No file path selected.")
         (set_errorMessage (str "File saved successfully!") s), None)
  | SaveOther =>
      (set_errorMessage (str "Invalid file path selected.")
         (set_errorMessage (str "File saved successfully!") s), None)
  | SavePath ((_ :: _) as filePath) =>
      let s1 := set_errorMessage (str "File saved successfully!") s in
      match write with
      | Some error =>
          (set_errorMessage (str "Error saving file: " ++ error) s1, None)
      | None =>
          (set_defaultPath filePath s1, Some (filePath, rawJsonInput s1))
      end
  end.

(** *** Events

    A handler runs to completion; the watcher on [rawJsonInput] then runs
    once if the text it last saw differs from the text now in the ref. *)

Definition flush (seen : jsstring) (s : State) : State :=
  if jsstring_eqb seen (rawJsonInput s) then s
  else handleRawJsonInputChange (rawJsonInput s) s.

Inductive event : Type :=
| Typed (text : jsstring)
| TreeEdited (newData : JSON)
| ClickFormat
| ClickMinify
| ClickToggle
| Opened (filePath : option jsstring) (file : read_result)
| Dropped (paths : list jsstring) (file : read_result)
| Saved (dialog : save_result) (write : write_result).

Definition handler (e : event) (s : State) : State :=
  match e with
  | Typed text => set_rawJsonInput text s
  | TreeEdited newData => handleEdit newData s
  | ClickFormat => formatJson s
  | ClickMinify => minifyJson s
  | ClickToggle => toggleFormatMinify s
  | Opened filePath file => openFile filePath file s
  | Dropped paths file => dragDrop paths file s
  | Saved dialog write => fst (saveFile dialog write s)
  end.

Definition step (e : event) (s : State) : State :=
  flush (rawJsonInput s) (handler e s).

Definition run (es : list event) (s : State) : State :=
  fold_left (fun s e => step e s) es s.

(** The states the component goes through, oldest first: [s], then the
    state after each event. *)
Fixpoint states (es : list event) (s : State) : list State :=
  s :: match es with
       | [] => []
       | e :: es' => states es' (step e s)
       end.

End App.

(** ** The texts the buffer has held *)

(** The parsed value to remember once [text] has been seen. *)
Definition remember_parsed (found : option JSON) (text : jsstring) : option JSON :=
  match parse_text text with
  | Some v => Some v
  | None => found
  end.

(** The most recent text that parsed, in a list of texts given oldest
    first. *)
Definition last_parsed (texts : list jsstring) : option JSON :=
  fold_left remember_parsed texts None.

(** ** What a text holds

    Predicates on the characters of a text, for what [JSON.parse] reads and
    [JSON.stringify] writes. *)

(** A code unit that may stand in a JSON text: white space, or nothing
    below the space. *)
Definition text_unit (c : codeunit) : bool := is_ws c || N.leb 32 c.

(** Not a control character: nothing below the space. *)
Definition printable (c : codeunit) : bool := N.leb 32 c.

(** The characters of number tokens: digits, signs, the full stop and the
    letter [e]. *)
Definition token_unit (c : codeunit) : bool := N.leb 43 c.

(** The text ends with a character that [trim] does not remove. *)
Definition ends_solid (b : jsstring) : Prop :=
  exists y d, b = y ++ [d] /\ is_trim_space d = false.

(** The text does not begin with a digit. *)
Definition no_digit_head (x : jsstring) : Prop :=
  match x with
  | c :: _ => is_digit c = false
  | [] => True
  end.

(** ** Values apart from their numbers *)

(** A value with [null] in the place of every number: what is left when
    the numbers are not looked at. *)
Fixpoint without_numbers (v : JSON) : JSON :=
  match v with
  | JNumber _ => JNull
  | JArray l => JArray (map without_numbers l)
  | JObject l => JObject (map (fun kv => (fst kv, without_numbers (snd kv))) l)
  | JNull | JBool _ | JString _ => v
  end.

(** ** Events by kind *)

(** The click on the button that toggles between format and minify. *)
Definition is_toggle (e : event) : bool :=
  match e with
  | ClickToggle => true
  | _ => false
  end.

(** The path that the next save dialog proposes, after an event: the first
    of the paths dropped on the window, or the path of a file that was
    written. *)
Definition path_after (e : event) (path : jsstring) : jsstring :=
  match e with
  | Dropped (dropped :: _) _ => dropped
  | Saved (SavePath (c :: p)) None => c :: p
  | _ => path
  end.

(** ** The view: panels, font sizes and the colour preference

    The refs of the script that take no part in the synchronization rule.
    The second revision calls [inputFontSize] [fontSize] and starts the two
    sizes at 1.15 and 1.3; the first revision has the three switches of the
    output panel only. *)

(** The Number value of a numeric literal of the script. *)
Definition literal (s : string) : number := StringToNumber (str s).

Record View : Type := {
  showLineNumber : bool;
  showLength : bool;
  isEditable : bool;
  inputFontSize : number;
  outputFontSize : number;
  isRightPanelVisible : bool;
  isLeftPanelVisible : bool;
  textareaBackgroundColor : jsstring
}.

Definition set_inputFontSize (x : number) (w : View) : View :=
  {| showLineNumber := showLineNumber w; showLength := showLength w;
     isEditable := isEditable w; inputFontSize := x;
     outputFontSize := outputFontSize w;
     isRightPanelVisible := isRightPanelVisible w;
     isLeftPanelVisible := isLeftPanelVisible w;
     textareaBackgroundColor := textareaBackgroundColor w |}.

Definition set_outputFontSize (x : number) (w : View) : View :=
  {| showLineNumber := showLineNumber w; showLength := showLength w;
     isEditable := isEditable w; inputFontSize := inputFontSize w;
     outputFontSize := x;
     isRightPanelVisible := isRightPanelVisible w;
     isLeftPanelVisible := isLeftPanelVisible w;
     textareaBackgroundColor := textareaBackgroundColor w |}.

Definition set_isRightPanelVisible (x : bool) (w : View) : View :=
  {| showLineNumber := showLineNumber w; showLength := showLength w;
     isEditable := isEditable w; inputFontSize := inputFontSize w;
     outputFontSize := outputFontSize w;
     isRightPanelVisible := x;
     isLeftPanelVisible := isLeftPanelVisible w;
     textareaBackgroundColor := textareaBackgroundColor w |}.

Definition set_isLeftPanelVisible (x : bool) (w : View) : View :=
  {| showLineNumber := showLineNumber w; showLength := showLength w;
     isEditable := isEditable w; inputFontSize := inputFontSize w;
     outputFontSize := outputFontSize w;
     isRightPanelVisible := isRightPanelVisible w;
     isLeftPanelVisible := x;
     textareaBackgroundColor := textareaBackgroundColor w |}.

Definition set_textareaBackgroundColor (x : jsstring) (w : View) : View :=
  {| showLineNumber := showLineNumber w; showLength := showLength w;
     isEditable := isEditable w; inputFontSize := inputFontSize w;
     outputFontSize := outputFontSize w;
     isRightPanelVisible := isRightPanelVisible w;
     isLeftPanelVisible := isLeftPanelVisible w;
     textareaBackgroundColor := x |}.

Definition defaultInputFontSize : number := literal "1.2".

Definition defaultOutputFontSize : number := literal "1.2".

(** The refs of the last revision as the script creates them. *)
Definition initial_view : View :=
  {| showLineNumber := true; showLength := true; isEditable := true;
     inputFontSize := defaultInputFontSize;
     outputFontSize := defaultOutputFontSize;
     isRightPanelVisible := true; isLeftPanelVisible := true;
     textareaBackgroundColor := str "#444" |}.

(** The font sizes of the second revision. *)
Definition second_view : View :=
  set_outputFontSize (literal "1.3") (set_inputFontSize (literal "1.15") initial_view).

Definition toggleLeftPanel (w : View) : View :=
  set_isLeftPanelVisible (negb (isLeftPanelVisible w)) w.

Definition toggleRightPanel (w : View) : View :=
  set_isRightPanelVisible (negb (isRightPanelVisible w)) w.

Definition increaseFontSize (w : View) : View :=
  set_inputFontSize (SFadd prec emax (inputFontSize w) (literal "0.1")) w.

Definition decreaseFontSize (w : View) : View :=
  if SFltb (literal "0.5") (inputFontSize w)
  then set_inputFontSize (SFsub prec emax (inputFontSize w) (literal "0.1")) w
  else w.

Definition increaseOutputFontSize (w : View) : View :=
  set_outputFontSize (SFadd prec emax (outputFontSize w) (literal "0.1")) w.

Definition decreaseOutputFontSize (w : View) : View :=
  if SFltb (literal "0.5") (outputFontSize w)
  then set_outputFontSize (SFsub prec emax (outputFontSize w) (literal "0.1")) w
  else w.

Definition resetFontSize (w : View) : View :=
  set_outputFontSize defaultOutputFontSize
    (set_inputFontSize defaultInputFontSize w).

(** *** The keyboard *)

Record KeyboardEvent : Type := {
  metaKey : bool;
  ctrlKey : bool;
  key : jsstring
}.

(** The asynchronous function that a key starts; its dialog answers later,
    as the event [Opened] or [Saved]. *)
Inductive file_command : Type :=
| StartOpenFile
| StartSaveFile.

(** The outcome of a key handler: the view, whether [preventDefault] was
    called, and the file function started, if any. *)
Definition key_outcome : Type := View * bool * option file_command.

(** [handleKeyboardEvent] of the last revision. *)
Definition handleKeyboardEvent (event : KeyboardEvent) (w : View) : key_outcome :=
  if metaKey event || ctrlKey event then
    if jsstring_eqb (key event) (str "=") || jsstring_eqb (key event) (str "+")
    then (increaseOutputFontSize (increaseFontSize w), true, None)
    else if jsstring_eqb (key event) (str "-")
    then (decreaseOutputFontSize (decreaseFontSize w), true, None)
    else if jsstring_eqb (key event) (str "0")
    then (resetFontSize w, true, None)
    else if jsstring_eqb (key event) (str "o")
    then (w, true, Some StartOpenFile)
    else if jsstring_eqb (key event) (str "s")
    then (w, true, Some StartSaveFile)
    else (w, true, None)
  else (w, false, None).


(** The view after a run of key events. *)
Definition typed_keys (events : list KeyboardEvent) (w : View) : View :=
  fold_left (fun w event => fst (fst (handleKeyboardEvent event w))) events w.

(** *** The colour preference *)

(** [localStorage]: keys and their values. *)
Definition Storage : Type := list (jsstring * jsstring).

Fixpoint getItem (storage : Storage) (k : jsstring) : option jsstring :=
  match storage with
  | [] => None
  | (k', x) :: rest => if jsstring_eqb k k' then Some x else getItem rest k
  end.

Fixpoint setItem (storage : Storage) (k x : jsstring) : Storage :=
  match storage with
  | [] => [(k, x)]
  | (k', x') :: rest =>
      if jsstring_eqb k k' then (k', x) :: rest
      else (k', x') :: setItem rest k x
  end.

Definition defaultBackgroundColor (storage : Storage) (w : View) : View :=
  match getItem storage (str "textareaBackgroundColor") with
  | Some ((_ :: _) as savedColor) => set_textareaBackgroundColor savedColor w
  | Some [] | None => w
  end.

(** The watcher on [textareaBackgroundColor], run when the colour it last
    saw is not the colour now in the ref. *)
Definition flush_color (seen : jsstring) (w : View) (storage : Storage) : Storage :=
  if jsstring_eqb seen (textareaBackgroundColor w) then storage
  else setItem storage (str "textareaBackgroundColor") (textareaBackgroundColor w).

(** [onMounted], as far as the view goes. *)
Definition mounted (storage : Storage) (w : View) : View * Storage :=
  let w' := defaultBackgroundColor storage w in
  (w', flush_color (textareaBackgroundColor w) w' storage).

(** A colour chosen in the colour input, which is bound to the ref. *)
Definition pickColor (color : jsstring) (ws : View * Storage) : View * Storage :=
  let w' := set_textareaBackgroundColor color (fst ws) in
  (w', flush_color (textareaBackgroundColor (fst ws)) w' (snd ws)).

(** A session: the script runs, the component is mounted, colours are
    chosen. *)
Definition session (storage : Storage) (colors : list jsstring) : View * Storage :=
  fold_left (fun ws color => pickColor color ws) colors (mounted storage initial_view).

(** The stored colour is the colour of the text area, or nothing usable is
    stored and the text area has the colour it starts with. *)
Definition color_kept (ws : View * Storage) : Prop :=
  (getItem (snd ws) (str "textareaBackgroundColor")
     = Some (textareaBackgroundColor (fst ws))
   /\ textareaBackgroundColor (fst ws) <> [])
  \/ (textareaBackgroundColor (fst ws) = str "#444"
      /\ (getItem (snd ws) (str "textareaBackgroundColor") = None
          \/ getItem (snd ws) (str "textareaBackgroundColor") = Some [])).

(** ** A concrete engine and sample data, for the instances *)

(** The shortest decimals of a few numbers that are not integers. *)
Definition known_decimals : list jsstring :=
  [str "0.5"; str "0.1"; str "-2.75"; str "1e+21"; str "6.02e+23"].

Definition table_shortest_decimal (x : number) : jsstring :=
  match find (fun d => number_eqb x (StringToNumber d)) known_decimals with
  | Some d => d
  | None => []
  end.

Definition fixed_message (text : jsstring) : jsstring :=
  str "Unexpected token in JSON".

Definition example_text : jsstring :=
  str "{" ++ QUOTE :: str "a" ++ QUOTE :: str ":1}".

Definition example_formatted : jsstring :=
  str "{
  " ++ QUOTE :: str "a" ++ QUOTE :: str ": 1
}".

Definition example_value : JSON :=
  JObject [(str "a", JNumber (S754_finite false 4503599627370496 (-52)))].

Definition truncated_text : jsstring :=
  str "{" ++ QUOTE :: str "a" ++ QUOTE :: str ":1".

Definition sample_value : JSON :=
  JObject
    [(str "name", JString (str "Tauri-JSON-Editor"));
     (str "version", JString (str "1.0.0"));
     (str "isAwesome", JBool true);
     (str "features",
      JArray [JString (str "Real-time JSON validation");
              JString (str "Pretty formatting")]);
     (str "details",
      JObject [(str "level", JNumber (S754_finite false 4503599627370496 (-52)));
               (str "active", JNull)])].

Definition witness_value : JSON :=
  JObject [(str "2", JArray [JNumber (StringToNumber (str "0.5"));
                             JNumber (Number_of_Z (-12));
                             JNumber (StringToNumber (str "1e21"))]);
           (str "10", JString (92 :: 34 :: 10 :: 55357 :: 56832 :: 56320 :: 233 :: str "x")%N);
           (str "b", JObject []);
           (str "a", JArray [JNull; JBool false])].

(** The component right after the script has run, with the concrete engine. *)
Definition started : State := initial fixed_message.

(** Halves an even mantissa while the exponent is negative. *)
Fixpoint halve (m : positive) (k : nat) : positive * nat :=
  match k, m with
  | S k', xO m' => halve m' k'
  | _, _ => (m, k)
  end.

(** An engine that writes a finite number in full: the digits of its exact
    decimal expansion, which are more than the shortest that read back. *)
Definition exact_decimal (x : number) : jsstring :=
  match x with
  | S754_finite s m e =>
      (if s then [45%N] else []) ++
      match e with
      | Zneg k =>
          let (m', k') := halve m (Pos.to_nat k) in
          match k' with
          | O => uint_units (N.to_uint (Npos m'))
          | S _ =>
              let scaled := (Npos m' * 5 ^ N.of_nat k')%N in
              let part :=
                uint_units (N.to_uint (scaled mod 10 ^ N.of_nat k')) in
              uint_units (N.to_uint (scaled / 10 ^ N.of_nat k')) ++ 46%N
                :: repeat 48%N (k' - List.length part) ++ part
          end
      | _ => uint_units (N.to_uint (Npos m * 2 ^ Z.to_N e))
      end
  | _ => [48%N]
  end.

(** A session: a slip of the keyboard, the toggle button, a drop of a file
    that is cut short, a save, a tree edit and a file that is in order. *)
Definition sample_events : list event :=
  [Typed truncated_text; ClickToggle; Typed example_text; ClickToggle;
   Dropped [str "/home/me/in.txt"] (ReadLines [str "[0.5, 1"]);
   Saved (SavePath (str "/home/me/out.json")) None;
   TreeEdited witness_value;
   Opened (Some (str "/home/me/in.json")) (ReadLines [str "[0.5, 1"; str "]"])].

(** A file of three lines, blank lines around a document. *)
Definition example_lines : list jsstring := [str "  "; example_text; []].

(** A path that [displayJSON] accepts. *)
Definition example_path : jsstring := str "/home/me/data.json".

(** A value that the tree widget can hold and JSON text cannot. *)
Definition unrepresentable_value : JSON :=
  JArray [JNumber S754_nan; JNumber (S754_infinity true);
          JNumber (S754_zero true); JNumber (StringToNumber (str "0.5"))].

(** A value of integers, the largest safe one among them. *)
Definition integer_value_example : JSON :=
  JObject [(str "0", JNumber (Number_of_Z 9007199254740991));
           (str "n", JArray [JNumber (Number_of_Z (-42)); JNumber (Number_of_Z 0)])].

(** * Properties *)

(** ** Induction on JSON values *)
Lemma JSON_ind (P : JSON -> Prop) :
  P JNull ->
  (forall b, P (JBool b)) ->
  (forall x, P (JNumber x)) ->
  (forall s, P (JString s)) ->
  (forall l, Forall P l -> P (JArray l)) ->
  (forall l, Forall (fun kv => P (snd kv)) l -> P (JObject l)) ->
  forall v, P v.
Proof.
  intros Hnull Hbool Hnum Hstr Harr Hobj.
  fix IH 1.
  intros [ | b | x | s | l | l ].
  - exact Hnull.
  - apply Hbool.
  - apply Hnum.
  - apply Hstr.
  - apply Harr. induction l as [ | e l IHl ]; constructor; [ apply IH | exact IHl ].
  - apply Hobj. induction l as [ | [k e] l IHl ]; constructor; [ apply IH | exact IHl ].
Qed.

(** ** Strings *)

Lemma jsstring_eqb_eq (a b : jsstring) : jsstring_eqb a b = true <-> a = b.
Proof.
  revert b. induction a as [ | x a IH ]; intros [ | y b ]; simpl; split;
    try congruence; try discriminate.
  - intros H. apply andb_true_iff in H. destruct H as [Hx Hr].
    apply N.eqb_eq in Hx. apply IH in Hr. congruence.
  - intros H. injection H as -> ->. rewrite N.eqb_refl. simpl. now apply IH.
Qed.

Lemma jsstring_eqb_refl (a : jsstring) : jsstring_eqb a a = true.
Proof. now apply jsstring_eqb_eq. Qed.

Lemma jsstring_eqb_neq (a b : jsstring) : jsstring_eqb a b = false <-> a <> b.
Proof.
  split.
  - intros H E. apply jsstring_eqb_eq in E. congruence.
  - intros H. destruct (jsstring_eqb a b) eqn:E; [ | reflexivity ].
    apply jsstring_eqb_eq in E. contradiction.
Qed.

Lemma skip_ws_app (w s : jsstring) : all_ws w -> skip_ws (w ++ s) = skip_ws s.
Proof.
  induction 1 as [ | c w Hc _ IH ]; simpl; [ reflexivity | ].
  now rewrite Hc.
Qed.

Lemma skip_ws_start (c : codeunit) (s : jsstring) :
  is_ws c = false -> skip_ws (c :: s) = c :: s.
Proof. intros H. simpl. now rewrite H. Qed.

(** *** String literals read back *)

Lemma hex_value_digit (n : N) : (n < 16)%N -> hex_value (hex_digit n) = Some n.
Proof.
  intros H. unfold hex_digit, hex_value, is_digit.
  destruct (N.ltb_spec n 10).
  - assert (E1 : N.leb 48 (48 + n) = true) by (apply N.leb_le; lia).
    assert (E2 : N.leb (48 + n) 57 = true) by (apply N.leb_le; lia).
    rewrite E1, E2. cbn [andb]. f_equal. lia.
  - assert (E1 : N.leb (87 + n) 57 = false) by (apply N.leb_gt; lia).
    assert (E2 : N.leb 97 (87 + n) = true) by (apply N.leb_le; lia).
    assert (E3 : N.leb (87 + n) 102 = true) by (apply N.leb_le; lia).
    rewrite E1, E2, E3, andb_false_r. cbn [andb]. f_equal. lia.
Qed.

Lemma hex4_UnicodeEscape (c : codeunit) :
  (c < 65536)%N ->
  hex4 (hex_digit (c / 4096)) (hex_digit ((c / 256) mod 16))
       (hex_digit ((c / 16) mod 16)) (hex_digit (c mod 16)) = Some c.
Proof.
  intros H. unfold hex4.
  rewrite !hex_value_digit.
  - f_equal.
    pose proof (N.Div0.div_mod c 16) as E0.
    pose proof (N.Div0.div_mod (c / 16) 16) as E1.
    pose proof (N.Div0.div_mod (c / 16 / 16) 16) as E2.
    rewrite !N.Div0.div_div in E1, E2.
    change (16 * 16)%N with 256%N in *.
    rewrite N.Div0.div_div in E2. change (256 * 16)%N with 4096%N in E2.
    lia.
  - apply N.mod_lt; lia.
  - apply N.mod_lt; lia.
  - apply N.mod_lt; lia.
  - apply N.Div0.div_lt_upper_bound. lia.
Qed.

Lemma parse_chars_u (h1 h2 h3 h4 : codeunit) (t : jsstring) :
  parse_chars (92%N :: 117%N :: h1 :: h2 :: h3 :: h4 :: t) =
  match hex4 h1 h2 h3 h4 with
  | Some u => match parse_chars t with
              | Some (r, rest) => Some (u :: r, rest)
              | None => None
              end
  | None => None
  end.
Proof. reflexivity. Qed.

Lemma parse_chars_UnicodeEscape (c : codeunit) (t r rest : jsstring) :
  (c < 65536)%N ->
  parse_chars t = Some (r, rest) ->
  parse_chars (UnicodeEscape c ++ t) = Some (c :: r, rest).
Proof.
  intros Hc Ht. unfold UnicodeEscape. cbn [app].
  now rewrite parse_chars_u, hex4_UnicodeEscape, Ht.
Qed.

Lemma parse_chars_plain (c : codeunit) (t r rest : jsstring) :
  N.eqb c 34 = false -> N.eqb c 92 = false -> N.ltb c 32 = false ->
  parse_chars t = Some (r, rest) ->
  parse_chars (c :: t) = Some (c :: r, rest).
Proof. intros H1 H2 H3 Ht. cbn [parse_chars]. now rewrite H1, H2, H3, Ht. Qed.

Lemma parse_chars_escape_unit (c : codeunit) (t r rest : jsstring) :
  parse_chars t = Some (r, rest) ->
  parse_chars (escape_unit c ++ t) = Some (c :: r, rest).
Proof.
  intros Ht. unfold escape_unit.
  destruct (N.eqb_spec c 8) as [-> | _]; [ simpl; now rewrite Ht | ].
  destruct (N.eqb_spec c 9) as [-> | _]; [ simpl; now rewrite Ht | ].
  destruct (N.eqb_spec c 10) as [-> | _]; [ simpl; now rewrite Ht | ].
  destruct (N.eqb_spec c 12) as [-> | _]; [ simpl; now rewrite Ht | ].
  destruct (N.eqb_spec c 13) as [-> | _]; [ simpl; now rewrite Ht | ].
  destruct (N.eqb c 34) eqn:E34.
  { apply N.eqb_eq in E34. subst c. simpl. now rewrite Ht. }
  destruct (N.eqb c 92) eqn:E92.
  { apply N.eqb_eq in E92. subst c. simpl. now rewrite Ht. }
  destruct (N.ltb c 32) eqn:E32.
  { apply parse_chars_UnicodeEscape; [ | exact Ht ].
    apply N.ltb_lt in E32. lia. }
  cbn [orb].
  destruct (is_leading_surrogate c || is_trailing_surrogate c) eqn:Es.
  - apply parse_chars_UnicodeEscape; [ | exact Ht ].
    unfold is_leading_surrogate, is_trailing_surrogate in Es.
    apply orb_true_iff in Es.
    destruct Es as [Es | Es]; apply andb_true_iff in Es; destruct Es as [_ Es];
      apply N.leb_le in Es; lia.
  - now apply parse_chars_plain.
Qed.

Lemma surrogate_plain (c : codeunit) :
  is_leading_surrogate c || is_trailing_surrogate c = true ->
  N.eqb c 34 = false /\ N.eqb c 92 = false /\ N.ltb c 32 = false.
Proof.
  unfold is_leading_surrogate, is_trailing_surrogate. intros H.
  apply orb_true_iff in H.
  assert (55296 <= c)%N.
  { destruct H as [H | H]; apply andb_true_iff in H; destruct H as [H _];
      apply N.leb_le in H; lia. }
  repeat split; [ apply N.eqb_neq | apply N.eqb_neq | apply N.ltb_ge ]; lia.
Qed.

Lemma parse_chars_quote_units_bounded (n : nat) :
  forall s rest, List.length s <= n ->
  parse_chars (quote_units s ++ QUOTE :: rest) = Some (s, rest).
Proof.
  induction n as [ | n IH ]; intros [ | c t ] rest Hlen; simpl in Hlen;
    try reflexivity; try lia.
  cbn [quote_units].
  destruct (is_leading_surrogate c) eqn:Elead.
  - assert (Hc : (c < 65536)%N).
    { unfold is_leading_surrogate in Elead. apply andb_true_iff in Elead.
      destruct Elead as [_ E]. apply N.leb_le in E. lia. }
    destruct t as [ | d t' ].
    + now apply parse_chars_UnicodeEscape.
    + destruct (is_trailing_surrogate d) eqn:Etrail.
      * destruct (surrogate_plain c) as (C1 & C2 & C3); [ now rewrite Elead | ].
        destruct (surrogate_plain d) as (D1 & D2 & D3);
          [ rewrite Etrail; apply orb_true_r | ].
        cbn [app]. apply parse_chars_plain; trivial.
        apply parse_chars_plain; trivial.
        apply IH. simpl in Hlen. lia.
      * rewrite <- app_assoc. apply parse_chars_UnicodeEscape; trivial.
        apply IH. lia.
  - rewrite <- app_assoc. apply parse_chars_escape_unit. apply IH. lia.
Qed.

Lemma parse_chars_quote_units (s rest : jsstring) :
  parse_chars (quote_units s ++ QUOTE :: rest) = Some (s, rest).
Proof. now apply (parse_chars_quote_units_bounded (List.length s)). Qed.

(** ** Number tokens *)

Lemma number_end_digit (c : codeunit) (rest : jsstring) :
  number_end (c :: rest) = true -> is_digit c = false.
Proof.
  simpl. intros H. apply andb_true_iff in H. destruct H as [H _].
  apply andb_true_iff in H. destruct H as [H _]. now apply negb_true_iff in H.
Qed.

Lemma span_digits_app (l rest ds r : jsstring) :
  span_digits l = (ds, r) ->
  (r = [] -> number_end rest = true) ->
  span_digits (l ++ rest) = (ds, r ++ rest).
Proof.
  revert ds r. induction l as [ | c t IH ]; intros ds r Hspan Hend.
  - simpl in Hspan. injection Hspan as <- <-. simpl.
    destruct rest as [ | c rest ]; [ reflexivity | ].
    simpl. now rewrite (number_end_digit c rest (Hend eq_refl)).
  - simpl in Hspan. cbn [app span_digits].
    destruct (is_digit c).
    + destruct (span_digits t) as [ds' r'] eqn:Et.
      injection Hspan as <- <-.
      now rewrite (IH ds' r' eq_refl Hend).
    + injection Hspan as <- <-. reflexivity.
Qed.

Lemma scan_exp_app (acc l rest tok : jsstring) :
  scan_exp acc l = Some (tok, []) ->
  number_end rest = true ->
  scan_exp acc (l ++ rest) = Some (tok, rest).
Proof.
  intros Hscan Hend. destruct l as [ | c t ].
  - simpl in Hscan. injection Hscan as <-. simpl.
    destruct rest as [ | c rest ]; [ reflexivity | ].
    simpl in Hend. apply andb_true_iff in Hend. destruct Hend as [_ He].
    apply negb_true_iff in He. simpl. now rewrite He.
  - unfold scan_exp in *. cbn [app]. destruct (is_e c); [ | discriminate ].
    destruct t as [ | d t' ]; [ discriminate | ].
    cbn [app].
    destruct (N.eqb d 45 || N.eqb d 43).
    + destruct (span_digits t') as [ds r] eqn:Es.
      destruct ds as [ | x ds ]; [ discriminate | ].
      injection Hscan as <- ->.
      now rewrite (span_digits_app t' rest (x :: ds) [] Es (fun _ => Hend)).
    + destruct (span_digits (d :: t')) as [ds r] eqn:Es.
      destruct ds as [ | x ds ]; [ discriminate | ].
      injection Hscan as <- ->.
      change (d :: t' ++ rest) with ((d :: t') ++ rest).
      now rewrite (span_digits_app (d :: t') rest (x :: ds) [] Es (fun _ => Hend)).
Qed.

Lemma scan_exp_rest (acc l tok r : jsstring) :
  scan_exp acc l = Some (tok, r) -> r <> [] ->
  forall rest, scan_exp acc (l ++ rest) = Some (tok, r ++ rest).
Proof.
  intros Hscan Hr rest. destruct l as [ | c t ].
  - simpl in Hscan. injection Hscan as <- <-. contradiction.
  - unfold scan_exp in *. cbn [app]. destruct (is_e c).
    + destruct t as [ | d t' ]; [ discriminate | ].
      cbn [app].
      destruct (N.eqb d 45 || N.eqb d 43).
      * destruct (span_digits t') as [ds r0] eqn:Es.
        destruct ds as [ | x ds ]; [ discriminate | ].
        injection Hscan as <- <-.
        now rewrite (span_digits_app t' rest (x :: ds) r0 Es
                       (fun E => False_ind _ (Hr E))).
      * destruct (span_digits (d :: t')) as [ds r0] eqn:Es.
        destruct ds as [ | x ds ]; [ discriminate | ].
        injection Hscan as <- <-.
        change (d :: t' ++ rest) with ((d :: t') ++ rest).
        now rewrite (span_digits_app (d :: t') rest (x :: ds) r0 Es
                       (fun E => False_ind _ (Hr E))).
    + injection Hscan as <- <-. reflexivity.
Qed.

Lemma scan_exp_any (acc l rest tok r : jsstring) :
  scan_exp acc l = Some (tok, r) ->
  (r = [] -> number_end rest = true) ->
  scan_exp acc (l ++ rest) = Some (tok, r ++ rest).
Proof.
  intros Hscan Hend. destruct r as [ | x r ].
  - now apply scan_exp_app; [ | apply Hend ].
  - now apply scan_exp_rest.
Qed.

Lemma scan_frac_app (acc l rest tok : jsstring) :
  scan_frac acc l = Some (tok, []) ->
  number_end rest = true ->
  scan_frac acc (l ++ rest) = Some (tok, rest).
Proof.
  intros Hscan Hend. destruct l as [ | c t ].
  - simpl in Hscan. injection Hscan as <-.
    unfold scan_frac. simpl.
    destruct rest as [ | c rest ]; [ reflexivity | ].
    simpl in Hend. apply andb_true_iff in Hend. destruct Hend as [Hd He].
    apply andb_true_iff in Hd. destruct Hd as [_ Hdot].
    apply negb_true_iff in He. apply negb_true_iff in Hdot.
    unfold scan_exp. now rewrite Hdot, He.
  - unfold scan_frac in *. cbn [app]. destruct (N.eqb c 46).
    + destruct (span_digits t) as [ds r] eqn:Es.
      destruct ds as [ | x ds ]; [ discriminate | ].
      assert (Hr : r = [] -> number_end rest = true) by (intros _; exact Hend).
      rewrite (span_digits_app t rest (x :: ds) r Es Hr).
      apply (scan_exp_any _ _ rest _ _ Hscan). intros _. exact Hend.
    + apply (scan_exp_any _ (c :: t) rest _ [] Hscan). intros _. exact Hend.
Qed.

Lemma scan_int_app (sg l rest tok : jsstring) :
  match l with
  | c :: t =>
      if N.eqb c 48 then scan_frac (sg ++ [c]) t
      else if is_digit c then
        let (ds, r) := span_digits t in scan_frac (sg ++ c :: ds) r
      else None
  | [] => None
  end = Some (tok, []) ->
  number_end rest = true ->
  match l ++ rest with
  | c :: t =>
      if N.eqb c 48 then scan_frac (sg ++ [c]) t
      else if is_digit c then
        let (ds, r) := span_digits t in scan_frac (sg ++ c :: ds) r
      else None
  | [] => None
  end = Some (tok, rest).
Proof.
  intros Hscan Hend. destruct l as [ | c t ]; [ discriminate | ].
  cbn [app]. destruct (N.eqb c 48).
  - now apply scan_frac_app.
  - destruct (is_digit c); [ | discriminate ].
    destruct (span_digits t) as [ds r] eqn:Es.
    rewrite (span_digits_app t rest ds r Es (fun _ => Hend)).
    now apply scan_frac_app.
Qed.

Lemma scan_number_app (l rest tok : jsstring) :
  scan_number l = Some (tok, []) ->
  number_end rest = true ->
  scan_number (l ++ rest) = Some (tok, rest).
Proof.
  intros Hscan Hend. unfold scan_number in *.
  destruct l as [ | c t ]; [ discriminate | ].
  cbn [app]. destruct (N.eqb c 45).
  - now apply scan_int_app.
  - now apply (scan_int_app [] (c :: t)).
Qed.

(** A number token starts with a minus sign or a digit. *)
Lemma scan_number_head (l tok r : jsstring) :
  scan_number l = Some (tok, r) ->
  exists c t, l = c :: t /\ (N.eqb c 45 || is_digit c) = true.
Proof.
  unfold scan_number. destruct l as [ | c t ]; [ discriminate | ].
  intros H. exists c, t. split; [ reflexivity | ].
  destruct (N.eqb c 45); [ reflexivity | ].
  destruct (N.eqb_spec c 48) as [-> | _]; [ reflexivity | ].
  destruct (is_digit c); [ reflexivity | discriminate ].
Qed.

(** ** Reading back what [JSON.stringify] wrote *)

Lemma ws_number_end (c : codeunit) (rest : jsstring) :
  is_ws c = true -> number_end (c :: rest) = true.
Proof.
  unfold is_ws. intros H.
  repeat (apply orb_true_iff in H; destruct H as [H | H]);
    apply N.eqb_eq in H; subst c; reflexivity.
Qed.

Lemma all_ws_number_end (w : jsstring) (c : codeunit) (rest : jsstring) :
  all_ws w -> number_end (c :: rest) = true ->
  number_end (w ++ c :: rest) = true.
Proof.
  intros Hw Hc. destruct Hw as [ | x w Hx _ ]; [ exact Hc | ].
  now apply ws_number_end.
Qed.

Lemma token_start (c : codeunit) :
  (N.eqb c 45 || is_digit c) = true -> value_start c = true.
Proof.
  intros H. unfold value_start, is_ws.
  apply orb_true_iff in H. destruct H as [H | H].
  - apply N.eqb_eq in H. now subst c.
  - unfold is_digit in H. apply andb_true_iff in H. destruct H as [H1 H2].
    apply N.leb_le in H1. apply N.leb_le in H2.
    assert (E : forall k, (k < 48 \/ 57 < k)%N -> N.eqb c k = false)
      by (intros k Hk; apply N.eqb_neq; lia).
    rewrite !E by lia. reflexivity.
Qed.

Lemma skip_ws_value_start (c : codeunit) (s : jsstring) :
  value_start c = true -> skip_ws (c :: s) = c :: s.
Proof.
  unfold value_start. intros H. apply andb_true_iff in H. destruct H as [H _].
  apply negb_true_iff in H. now apply skip_ws_start.
Qed.

Lemma wrap_shape (o c : codeunit) (gap stepback p : jsstring) (ps : list jsstring) :
  all_ws gap -> all_ws stepback ->
  exists w0 w1, all_ws w0 /\ all_ws w1 /\
    wrap o c gap stepback (p :: ps) =
    o :: w0 ++ join (44%N :: w0) (p :: ps) ++ w1 ++ [c].
Proof.
  intros Hgap Hstep. destruct gap as [ | g gap ].
  - exists [], []. repeat split; constructor.
  - exists (LF :: stepback ++ g :: gap), (LF :: stepback).
    repeat split.
    + constructor; [ reflexivity | ]. apply Forall_app. now split.
    + constructor; [ reflexivity | exact Hstep ].
Qed.

Lemma skip_ws_join_start (sep p : jsstring) (ps : list jsstring) (X : jsstring)
    (c : codeunit) (t : jsstring) :
  p = c :: t -> is_ws c = false ->
  skip_ws (join sep (p :: ps) ++ X) = join sep (p :: ps) ++ X.
Proof.
  intros -> Hc. cbn [join]. destruct ps; cbn [app]; now apply skip_ws_start.
Qed.

Lemma join_cons2 (sep p q : jsstring) (r : list jsstring) :
  join sep (p :: q :: r) = p ++ sep ++ join sep (q :: r).
Proof. reflexivity. Qed.

Lemma join_start (sep p : jsstring) (ps : list jsstring) (c : codeunit) (t : jsstring) :
  p = c :: t -> exists t', join sep (p :: ps) = c :: t'.
Proof. intros ->. destruct ps; eexists; reflexivity. Qed.

Section ReadBack.

Variable shortest_decimal : number -> jsstring.
Local Notation "'serialize'" := (SerializeJSONProperty shortest_decimal).
Local Notation "'norm'" := (normalize shortest_decimal).

Lemma serialize_start (gap indent : jsstring) (v : JSON) :
  prints shortest_decimal v ->
  exists c t, serialize gap indent v = c :: t /\ value_start c = true.
Proof.
  intros Hv. destruct v as [ | [ | ] | x | s | l | l ].
  - now exists 110%N, (str "ull").
  - now exists 116%N, (str "rue").
  - now exists 102%N, (str "alse").
  - simpl. destruct (isFinite x) eqn:Efin.
    + unfold prints in Hv. simpl in Hv. apply Forall_inv in Hv.
      specialize (Hv Efin).
      destruct (scan_number_head _ _ _ Hv) as (c & t & -> & Hc).
      exists c, t. split; [ reflexivity | now apply token_start ].
    + now exists 110%N, (str "ull").
  - exists QUOTE, (quote_units s ++ [QUOTE]). now split.
  - simpl. unfold wrap.
    destruct (map _ l); [ now exists 91%N, [93%N] | ].
    destruct gap; eexists 91%N, _; (split; [ reflexivity | reflexivity ]).
  - simpl. unfold wrap.
    destruct (map _ l); [ now exists 123%N, [125%N] | ].
    destruct gap; eexists 123%N, _; (split; [ reflexivity | reflexivity ]).
Qed.

Lemma skip_ws_serialize (gap indent : jsstring) (v : JSON) (w rest : jsstring) :
  prints shortest_decimal v -> all_ws w ->
  skip_ws (w ++ serialize gap indent v ++ rest) = serialize gap indent v ++ rest.
Proof.
  intros Hv Hw. rewrite skip_ws_app by exact Hw.
  destruct (serialize_start gap indent v Hv) as (c & t & -> & Hc).
  now apply skip_ws_value_start.
Qed.

Lemma parse_elements_S (f : nat) (s : jsstring) (acc : list JSON) :
  parse_elements (S f) s acc =
  match parse_value f s with
  | Some (v, r) =>
      match skip_ws r with
      | d :: r' =>
          if N.eqb d 44 then parse_elements f (skip_ws r') (v :: acc)
          else if N.eqb d 93 then Some (JArray (rev (v :: acc)), r')
          else None
      | [] => None
      end
  | None => None
  end.
Proof. reflexivity. Qed.

Lemma parse_elements_serialize (gap indent w0 w1 : jsstring) :
  all_ws w0 -> all_ws w1 ->
  forall l e acc rest fuel,
    reads shortest_decimal gap indent e -> Forall (reads shortest_decimal gap indent) l ->
    prints shortest_decimal e -> Forall (prints shortest_decimal) l ->
    list_sum (map (fun x => S (size x)) (e :: l)) <= fuel ->
    parse_elements fuel
      (join (44%N :: w0) (map (serialize gap indent) (e :: l)) ++ w1 ++ 93%N :: rest)
      acc
    = Some (JArray (rev acc ++ map norm (e :: l)), rest).
Proof.
  intros Hw0 Hw1.
  induction l as [ | e' l IH ]; intros e acc rest fuel He Hl Pe Pl Hfuel;
    (destruct fuel as [ | f ]; [ simpl in Hfuel; lia | ]);
    rewrite parse_elements_S.
  - cbn [map join]. simpl in Hfuel.
    rewrite (He (w1 ++ 93%N :: rest) f) by
      (try lia; now apply all_ws_number_end).
    rewrite skip_ws_app by exact Hw1. reflexivity.
  - cbn [map]. cbn [map] in IH. rewrite join_cons2.
    rewrite <- !app_assoc. cbn [app].
    simpl in Hfuel.
    rewrite (He _ f) by (try lia; reflexivity).
    cbn [skip_ws is_ws N.eqb Pos.eqb orb].
    rewrite app_assoc.
    inversion Hl as [ | ? ? He' Hl' ]; subst.
    inversion Pl as [ | ? ? Pe' Pl' ]; subst.
    rewrite <- app_assoc. rewrite skip_ws_app by exact Hw0.
    destruct (serialize_start gap indent e' Pe') as (c & t & E & Hc).
    apply andb_true_iff in Hc. destruct Hc as [Hc _].
    apply negb_true_iff in Hc.
    rewrite (skip_ws_join_start _ _ _ _ c t E Hc).
    rewrite (IH e' (norm e :: acc) rest f He' Hl' Pe' Pl') by (simpl; lia).
    cbn [rev map]. now rewrite <- app_assoc.
Qed.

Lemma parse_members_quote (f : nat) (t : jsstring) (obj : list (jsstring * JSON)) :
  parse_members (S f) (QUOTE :: t) obj =
  match parse_chars t with
  | Some (k, r) =>
      match skip_ws r with
      | d :: r1 =>
          if N.eqb d 58 then
            match parse_value f (skip_ws r1) with
            | Some (v, r2) =>
                match skip_ws r2 with
                | d' :: r3 =>
                    if N.eqb d' 44
                    then parse_members f (skip_ws r3) (CreateDataProperty obj k v)
                    else if N.eqb d' 125
                    then Some (JObject (CreateDataProperty obj k v), r3)
                    else None
                | [] => None
                end
            | None => None
            end
          else None
      | [] => None
      end
  | None => None
  end.
Proof. reflexivity. Qed.

Lemma member_text_app (gap indent sp : jsstring) (kv : jsstring * JSON) (tail : jsstring) :
  member_text shortest_decimal gap indent sp kv ++ tail =
  QUOTE :: quote_units (fst kv)
        ++ QUOTE :: 58%N :: sp ++ serialize gap indent (snd kv) ++ tail.
Proof.
  unfold member_text, QuoteJSONString. cbn [app].
  rewrite <- !app_assoc. cbn [app]. now rewrite <- !app_assoc.
Qed.

Lemma parse_members_serialize (gap indent w0 w1 sp : jsstring) :
  all_ws w0 -> all_ws w1 -> all_ws sp ->
  forall l kv obj rest fuel,
    reads shortest_decimal gap indent (snd kv) ->
    Forall (fun m => reads shortest_decimal gap indent (snd m)) l ->
    prints shortest_decimal (snd kv) ->
    Forall (fun m => prints shortest_decimal (snd m)) l ->
    list_sum (map (fun m => S (size (snd m))) (kv :: l)) <= fuel ->
    parse_members fuel
      (join (44%N :: w0) (map (member_text shortest_decimal gap indent sp) (kv :: l))
         ++ w1 ++ 125%N :: rest)
      obj
    = Some (JObject (define_all (map (norm_member shortest_decimal) (kv :: l)) obj), rest).
Proof.
  intros Hw0 Hw1 Hsp.
  induction l as [ | kv' l IH ]; intros kv obj rest fuel He Hl Pe Pl Hfuel;
    (destruct fuel as [ | f ]; [ simpl in Hfuel; lia | ]); simpl in Hfuel.
  - cbn [map join]. rewrite member_text_app, parse_members_quote.
    rewrite parse_chars_quote_units.
    cbn [skip_ws is_ws N.eqb Pos.eqb orb].
    rewrite skip_ws_serialize by assumption.
    rewrite (He (w1 ++ 125%N :: rest) f) by
      (try lia; now apply all_ws_number_end).
    rewrite skip_ws_app by exact Hw1. reflexivity.
  - cbn [map]. cbn [map] in IH. rewrite join_cons2.
    rewrite <- !app_assoc. rewrite member_text_app, parse_members_quote.
    rewrite parse_chars_quote_units.
    cbn [skip_ws is_ws N.eqb Pos.eqb orb].
    rewrite skip_ws_serialize by assumption.
    cbn [app].
    rewrite (He _ f) by (try lia; reflexivity).
    cbn [skip_ws is_ws N.eqb Pos.eqb orb].
    inversion Hl as [ | ? ? He' Hl' ]; subst.
    inversion Pl as [ | ? ? Pe' Pl' ]; subst.
    rewrite skip_ws_app by exact Hw0.
    rewrite (skip_ws_join_start _ (member_text shortest_decimal gap indent sp kv') _ _ QUOTE
               ((quote_units (fst kv') ++ [QUOTE])
                  ++ 58%N :: sp ++ serialize gap indent (snd kv')))
      by reflexivity.
    rewrite (IH kv' (CreateDataProperty obj (fst kv) (norm (snd kv))) rest f
               He' Hl' Pe' Pl') by (simpl; lia).
    reflexivity.
Qed.

Lemma parse_value_number (f : nat) (c : codeunit) (t : jsstring) :
  (N.eqb c 45 || is_digit c) = true ->
  parse_value (S f) (c :: t) =
  match scan_number (c :: t) with
  | Some (tok, r) => Some (JNumber (StringToNumber tok), r)
  | None => None
  end.
Proof.
  intros H.
  assert (E : forall k, (57 < k)%N -> N.eqb c k = false).
  { intros k Hk. apply N.eqb_neq. apply orb_true_iff in H.
    destruct H as [H | H].
    - apply N.eqb_eq in H. lia.
    - unfold is_digit in H. apply andb_true_iff in H. destruct H as [_ H].
      apply N.leb_le in H. lia. }
  assert (E34 : N.eqb c 34 = false).
  { apply N.eqb_neq. apply orb_true_iff in H. destruct H as [H | H].
    - apply N.eqb_eq in H. lia.
    - unfold is_digit in H. apply andb_true_iff in H. destruct H as [H _].
      apply N.leb_le in H. lia. }
  cbn [parse_value].
  now rewrite (E 110%N), (E 116%N), (E 102%N), E34, (E 91%N), (E 123%N) by lia.
Qed.

Lemma parse_value_array (f : nat) (t : jsstring) :
  parse_value (S f) (91%N :: t) =
  match skip_ws t with
  | d :: r => if N.eqb d 93 then Some (JArray [], r)
              else parse_elements f (d :: r) []
  | [] => None
  end.
Proof. reflexivity. Qed.

Lemma parse_value_object (f : nat) (t : jsstring) :
  parse_value (S f) (123%N :: t) =
  match skip_ws t with
  | d :: r => if N.eqb d 125 then Some (JObject [], r)
              else parse_members f (d :: r) []
  | [] => None
  end.
Proof. reflexivity. Qed.

Lemma prints_elements (l : list JSON) :
  prints shortest_decimal (JArray l) -> Forall (prints shortest_decimal) l.
Proof. unfold prints. simpl. now rewrite Forall_flat_map. Qed.

Lemma prints_members (l : list (jsstring * JSON)) :
  prints shortest_decimal (JObject l) ->
  Forall (fun m => prints shortest_decimal (snd m)) l.
Proof. unfold prints. simpl. now rewrite Forall_flat_map. Qed.

(** Reading the text of a value gives the value, normalized. *)
Lemma serialize_reads (v : JSON) :
  forall gap indent, all_ws gap -> all_ws indent ->
    prints shortest_decimal v -> reads shortest_decimal gap indent v.
Proof.
  induction v as [ | b | x | s | l IH | l IH ] using JSON_ind;
    intros gap indent Hgap Hind Hv rest fuel Hfuel Hend;
    (destruct fuel as [ | f ]; [ simpl in Hfuel; lia | ]).
  - reflexivity.
  - now destruct b.
  - cbn [SerializeJSONProperty normalize].
    destruct (isFinite x) eqn:Efin; [ | reflexivity ].
    apply Forall_inv in Hv. specialize (Hv Efin). unfold number_literal in Hv.
    destruct (scan_number_head _ _ _ Hv) as (c & t & E & Hc).
    rewrite E in *. cbn [app]. rewrite (parse_value_number f c _ Hc).
    change (c :: t ++ rest) with ((c :: t) ++ rest).
    now rewrite (scan_number_app _ rest _ Hv Hend).
  - unfold SerializeJSONProperty, QuoteJSONString. simpl.
    rewrite <- app_assoc. simpl. now rewrite parse_chars_quote_units.
  - destruct l as [ | e l ]; [ reflexivity | ].
    cbn [SerializeJSONProperty map].
    assert (Hind' : all_ws (indent ++ gap)) by (apply Forall_app; now split).
    destruct (wrap_shape 91%N 93%N gap indent
                (serialize gap (indent ++ gap) e)
                (map (serialize gap (indent ++ gap)) l) Hgap Hind)
      as (w0 & w1 & Hw0 & Hw1 & ->).
    cbn [app]. rewrite parse_value_array.
    rewrite <- !app_assoc. cbn [app].
    apply prints_elements in Hv.
    inversion Hv as [ | ? ? Pe Pl ]; subst.
    inversion IH as [ | ? ? IHe IHl ]; subst.
    rewrite skip_ws_app by exact Hw0.
    destruct (serialize_start gap (indent ++ gap) e Pe) as (c & t & E & Hc).
    apply andb_true_iff in Hc. destruct Hc as [Hc Hc93].
    apply negb_true_iff in Hc. apply negb_true_iff in Hc93.
    rewrite (skip_ws_join_start _ _ _ _ c t E Hc).
    destruct (join_start (44%N :: w0) _
                (map (serialize gap (indent ++ gap)) l) c t E) as (t' & Ejoin).
    rewrite Ejoin. cbn [app]. rewrite Hc93.
    change (c :: t' ++ w1 ++ 93%N :: rest) with ((c :: t') ++ w1 ++ 93%N :: rest).
    rewrite <- Ejoin.
    apply (parse_elements_serialize gap (indent ++ gap) w0 w1 Hw0 Hw1 l e []).
    + now apply IHe.
    + rewrite Forall_forall in IHl, Pl |- *. intros a Ha.
      apply IHl; auto.
    + exact Pe.
    + exact Pl.
    + simpl in Hfuel |- *. lia.
  - destruct l as [ | kv l ]; [ reflexivity | ].
    cbn [SerializeJSONProperty map].
    assert (Hind' : all_ws (indent ++ gap)) by (apply Forall_app; now split).
    set (sp := match gap with [] => [] | _ :: _ => [SPACE] end).
    assert (Hsp : all_ws sp).
    { subst sp. destruct gap; repeat constructor. }
    destruct (wrap_shape 123%N 125%N gap indent
                (member_text shortest_decimal gap (indent ++ gap) sp kv)
                (map (member_text shortest_decimal gap (indent ++ gap) sp) l) Hgap Hind)
      as (w0 & w1 & Hw0 & Hw1 & Ewrap).
    change (parse_value (S f)
              (wrap 123%N 125%N gap indent
                 (member_text shortest_decimal gap (indent ++ gap) sp kv
                    :: map (member_text shortest_decimal gap (indent ++ gap) sp) l) ++ rest)
            = Some (JObject (define_all (map (norm_member shortest_decimal) (kv :: l)) []), rest)).
    rewrite Ewrap.
    cbn [app]. rewrite parse_value_object.
    rewrite <- !app_assoc. cbn [app].
    apply prints_members in Hv.
    inversion Hv as [ | ? ? Pe Pl ]; subst.
    inversion IH as [ | ? ? IHe IHl ]; subst.
    rewrite skip_ws_app by exact Hw0.
    rewrite (skip_ws_join_start _ (member_text shortest_decimal gap (indent ++ gap) sp kv) _ _ QUOTE
               ((quote_units (fst kv) ++ [QUOTE])
                  ++ 58%N :: sp ++ serialize gap (indent ++ gap) (snd kv)))
      by reflexivity.
    destruct (join_start (44%N :: w0) (member_text shortest_decimal gap (indent ++ gap) sp kv)
                (map (member_text shortest_decimal gap (indent ++ gap) sp) l) QUOTE _ eq_refl)
      as (t' & Ejoin).
    rewrite Ejoin. cbn [app N.eqb Pos.eqb QUOTE].
    change (QUOTE :: t' ++ w1 ++ 125%N :: rest) with ((QUOTE :: t') ++ w1 ++ 125%N :: rest).
    rewrite <- Ejoin.
    apply (parse_members_serialize gap (indent ++ gap) w0 w1 sp Hw0 Hw1 Hsp l kv []).
    + now apply IHe.
    + rewrite Forall_forall in IHl, Pl |- *. intros a Ha.
      apply IHl; auto.
    + exact Pe.
    + exact Pl.
    + simpl in Hfuel |- *. lia.
Qed.

End ReadBack.

(** ** The text of a value is long enough to fuel its parse *)

Lemma join_length (sep : jsstring) (parts : list jsstring) :
  sep <> [] ->
  list_sum (map (fun p => S (List.length p)) parts)
  <= S (List.length (join sep parts)).
Proof.
  intros Hsep. induction parts as [ | p [ | q r ] IH ].
  - simpl. lia.
  - simpl. lia.
  - rewrite join_cons2.
    change (list_sum (map (fun p0 => S (List.length p0)) (p :: q :: r)))
      with (S (List.length p)
            + list_sum (map (fun p0 => S (List.length p0)) (q :: r))).
    rewrite !length_app.
    destruct sep as [ | x sep ]; [ contradiction | ]. cbn [List.length]. lia.
Qed.

Lemma wrap_length (o c : codeunit) (gap stepback : jsstring) (parts : list jsstring) :
  list_sum (map (fun p => S (List.length p)) parts)
  < List.length (wrap o c gap stepback parts).
Proof.
  destruct parts as [ | p ps ]; [ simpl; lia | ].
  unfold wrap. destruct gap as [ | g gap ].
  - pose proof (join_length [44%N] (p :: ps) ltac:(discriminate)) as H.
    set (J := join [44%N] (p :: ps)) in *.
    set (total := list_sum _) in *.
    cbn [List.length]. rewrite length_app. cbn [List.length]. lia.
  - pose proof (join_length (44%N :: LF :: stepback ++ g :: gap) (p :: ps)
                  ltac:(discriminate)) as H.
    set (J := join _ (p :: ps)) in *.
    set (total := list_sum _) in *.
    cbn [List.length]. rewrite !length_app. cbn [List.length]. lia.
Qed.

Lemma list_sum_le (A : Type) (f g : A -> nat) (l : list A) :
  Forall (fun a => f a <= g a) l ->
  list_sum (map f l) <= list_sum (map g l).
Proof. induction 1; simpl; lia. Qed.

Section Fuel.

Variable shortest_decimal : number -> jsstring.
Local Notation "'serialize'" := (SerializeJSONProperty shortest_decimal).

Lemma size_le_length (v : JSON) :
  forall gap indent, prints shortest_decimal v ->
    size v <= List.length (serialize gap indent v).
Proof.
  induction v as [ | b | x | s | l IH | l IH ] using JSON_ind;
    intros gap indent Hv;
    try (destruct (serialize_start shortest_decimal gap indent _ Hv)
           as (c & t & -> & _); simpl; lia).
  - cbn [SerializeJSONProperty size].
    pose proof (wrap_length 91%N 93%N gap indent
                  (map (serialize gap (indent ++ gap)) l)) as Hlen.
    rewrite map_map in Hlen.
    apply prints_elements in Hv.
    assert (Hle : list_sum (map (fun e => S (size e)) l)
                  <= list_sum (map (fun e => S (List.length
                                     (serialize gap (indent ++ gap) e))) l)).
    { apply list_sum_le. rewrite Forall_forall in IH, Hv |- *.
      intros e He. specialize (IH e He gap (indent ++ gap) (Hv e He)). lia. }
    lia.
  - cbn [SerializeJSONProperty size].
    match goal with
    | |- _ <= List.length (wrap _ _ _ _ (map ?f l)) =>
        pose proof (wrap_length 123%N 125%N gap indent (map f l)) as Hlen
    end.
    rewrite map_map in Hlen.
    apply prints_members in Hv.
    match type of Hlen with
    | list_sum (map ?g l) < _ =>
        assert (Hle : list_sum (map (fun m => S (size (snd m))) l)
                      <= list_sum (map g l))
    end.
    { apply list_sum_le. rewrite Forall_forall in IH, Hv |- *.
      intros e He. specialize (IH e He gap (indent ++ gap) (Hv e He)).
      unfold QuoteJSONString. cbn [List.length app].
      rewrite !length_app. simpl List.length. rewrite length_app. lia. }
    lia.
Qed.

Lemma all_ws_repeat (n : nat) : all_ws (repeat SPACE n).
Proof. induction n; constructor; [ reflexivity | assumption ]. Qed.

(** [JSON.parse(JSON.stringify(v, null, space))] is [v] normalized. *)
Lemma parse_text_stringify (v : JSON) (space : nat) :
  prints shortest_decimal v ->
  parse_text (JSON_stringify shortest_decimal v space)
  = Some (normalize shortest_decimal v).
Proof.
  intros Hv. unfold parse_text, JSON_stringify.
  set (gap := repeat SPACE (Nat.min 10 space)).
  assert (Hgap : all_ws gap) by apply all_ws_repeat.
  pose proof (skip_ws_serialize shortest_decimal gap [] v [] [] Hv (Forall_nil _)) as Hskip.
  cbn [app] in Hskip. rewrite app_nil_r in Hskip. rewrite Hskip.
  pose proof (serialize_reads shortest_decimal v gap [] Hgap (Forall_nil _) Hv [] 
                (S (List.length (serialize gap [] v)))) as Hread.
  rewrite app_nil_r in Hread. rewrite Hread.
  - reflexivity.
  - pose proof (size_le_length v gap [] Hv). lia.
  - reflexivity.
Qed.

End Fuel.

(** ** Objects in property order *)

Lemma ordered_keys_app_inv (l1 l2 : list jsstring) (k : jsstring) :
  ordered_keys (l1 ++ k :: l2) = true ->
  Forall (fun a => key_before a k = true) l1.
Proof.
  induction l1 as [ | a l1 IH ]; intros H; [ constructor | ].
  cbn [app ordered_keys] in H. apply andb_true_iff in H. destruct H as [Ha Hl].
  constructor; [ | now apply IH ].
  rewrite forallb_app in Ha. apply andb_true_iff in Ha. destruct Ha as [_ Ha].
  cbn [forallb] in Ha. apply andb_true_iff in Ha. tauto.
Qed.

Lemma key_before_neq (a k : jsstring) :
  key_before a k = true -> jsstring_eqb k a = false.
Proof.
  unfold key_before. intros H. apply andb_true_iff in H. destruct H as [H _].
  apply negb_true_iff in H. apply jsstring_eqb_neq in H.
  apply jsstring_eqb_neq. congruence.
Qed.

Lemma replace_value_absent (k : jsstring) (v : JSON) (obj : list (jsstring * JSON)) :
  Forall (fun m => jsstring_eqb k (fst m) = false) obj ->
  replace_value k v obj = None.
Proof.
  induction 1 as [ | [k' v'] obj Hk _ IH ]; [ reflexivity | ].
  simpl in Hk |- *. now rewrite Hk, IH.
Qed.

Lemma replace_value_None (k : jsstring) (v : JSON) (obj : list (jsstring * JSON)) :
  replace_value k v obj = None ->
  Forall (fun m => jsstring_eqb k (fst m) = false) obj.
Proof.
  induction obj as [ | [k' v'] obj IH ]; intros H; [ constructor | ].
  simpl in H. destruct (jsstring_eqb k k') eqn:E; [ discriminate | ].
  destruct (replace_value k v obj); [ discriminate | ].
  constructor; [ exact E | now apply IH ].
Qed.

Lemma replace_value_keys (k : jsstring) (v : JSON) (obj obj' : list (jsstring * JSON)) :
  replace_value k v obj = Some obj' -> map fst obj' = map fst obj.
Proof.
  revert obj'. induction obj as [ | [k' v'] obj IH ]; intros obj' H;
    [ discriminate | ].
  simpl in H. destruct (jsstring_eqb k k').
  - now injection H as <-.
  - destruct (replace_value k v obj) as [ t' | ]; [ | discriminate ].
    injection H as <-. simpl. f_equal. now apply IH.
Qed.

Lemma insert_index_last (i : N) (k : jsstring) (v : JSON) (obj : list (jsstring * JSON)) :
  array_index k = Some i ->
  Forall (fun m => key_before (fst m) k = true) obj ->
  insert_index i k v obj = obj ++ [(k, v)].
Proof.
  intros Hk. induction 1 as [ | [k' v'] obj Hb _ IH ]; [ reflexivity | ].
  cbn [insert_index app]. unfold key_before in Hb. cbn [fst] in Hb.
  rewrite Hk in Hb. apply andb_true_iff in Hb. destruct Hb as [_ Hb].
  destruct (array_index k') as [ j | ]; [ | discriminate ].
  now rewrite Hb, IH.
Qed.

Lemma CreateDataProperty_last (k : jsstring) (v : JSON) (obj : list (jsstring * JSON)) :
  Forall (fun m => key_before (fst m) k = true) obj ->
  CreateDataProperty obj k v = obj ++ [(k, v)].
Proof.
  intros H. unfold CreateDataProperty.
  rewrite replace_value_absent.
  - destruct (array_index k) as [ i | ] eqn:Ek; [ | reflexivity ].
    now apply insert_index_last.
  - apply Forall_impl with (2 := H). intros m. apply key_before_neq.
Qed.

Lemma define_all_ordered (l acc : list (jsstring * JSON)) :
  ordered_keys (map fst (acc ++ l)) = true -> define_all l acc = acc ++ l.
Proof.
  revert acc. induction l as [ | [k v] l IH ]; intros acc H.
  - now rewrite app_nil_r.
  - cbn [define_all fold_left fst snd].
    rewrite CreateDataProperty_last.
    + fold (define_all l (acc ++ [(k, v)])). rewrite IH.
      * now rewrite <- app_assoc.
      * now rewrite <- app_assoc.
    + rewrite map_app in H. cbn [map fst] in H.
      apply ordered_keys_app_inv in H.
      rewrite Forall_forall in H |- *. intros m Hm. apply H.
      now apply in_map.
Qed.

Section Representable.

Variable shortest_decimal : number -> jsstring.

Lemma representable_prints (v : JSON) :
  representable shortest_decimal v -> prints shortest_decimal v.
Proof.
  intros [_ H]. apply Forall_impl with (2 := H).
  intros x (_ & Hx & _) _. exact Hx.
Qed.

Lemma representable_elements (l : list JSON) :
  representable shortest_decimal (JArray l) ->
  Forall (representable shortest_decimal) l.
Proof.
  intros [Hc Hn]. simpl in Hc, Hn.
  rewrite Forall_flat_map in Hn. rewrite forallb_forall in Hc.
  rewrite Forall_forall in Hn |- *. intros e He. split; auto.
Qed.

Lemma representable_members (l : list (jsstring * JSON)) :
  representable shortest_decimal (JObject l) ->
  ordered_keys (map fst l) = true
  /\ Forall (fun m => representable shortest_decimal (snd m)) l.
Proof.
  intros [Hc Hn]. simpl in Hc, Hn. apply andb_true_iff in Hc.
  destruct Hc as [Hk Hc]. split; [ exact Hk | ].
  rewrite Forall_flat_map in Hn. rewrite forallb_forall in Hc.
  rewrite Forall_forall in Hn |- *. intros e He. split; auto.
Qed.

(** A representable value is its own normal form. *)
Lemma normalize_representable (v : JSON) :
  representable shortest_decimal v -> normalize shortest_decimal v = v.
Proof.
  induction v as [ | b | x | s | l IH | l IH ] using JSON_ind; intros Hv;
    try reflexivity.
  - destruct Hv as [_ Hn]. apply Forall_inv in Hn.
    destruct Hn as (Hfin & _ & Hback). cbn [normalize].
    now rewrite Hfin, Hback.
  - apply representable_elements in Hv. cbn [normalize]. f_equal.
    rewrite <- (map_id l) at 2. apply map_ext_in.
    rewrite Forall_forall in IH, Hv. auto.
  - apply representable_members in Hv. destruct Hv as [Hk Hv].
    cbn [normalize]. f_equal.
    replace (map (fun kv => (fst kv, normalize shortest_decimal (snd kv))) l)
      with l.
    + now apply define_all_ordered.
    + rewrite <- (map_id l) at 1. apply map_ext_in.
      rewrite Forall_forall in IH, Hv. intros [k e] Hin.
      cbn [fst snd]. f_equal. symmetry. now apply (IH (k, e) Hin), (Hv (k, e)).
Qed.

(** [JSON.parse(JSON.stringify(v, null, space))] is [v] when [v] is
    representable. *)
Lemma parse_text_stringify_representable (v : JSON) (space : nat) :
  representable shortest_decimal v ->
  parse_text (JSON_stringify shortest_decimal v space) = Some v.
Proof.
  intros Hv.
  rewrite parse_text_stringify by now apply representable_prints.
  now rewrite normalize_representable.
Qed.

End Representable.

(** ** [JSON.parse] builds objects in property order *)

Lemma jsstring_eqb_sym (a b : jsstring) : jsstring_eqb a b = jsstring_eqb b a.
Proof.
  destruct (jsstring_eqb a b) eqn:E.
  - apply jsstring_eqb_eq in E. subst. now rewrite jsstring_eqb_refl.
  - apply jsstring_eqb_neq in E. symmetry. apply jsstring_eqb_neq. congruence.
Qed.

Lemma forallb_keys_insert (P : jsstring -> bool) (i : N) (k : jsstring) (v : JSON)
    (obj : list (jsstring * JSON)) :
  forallb P (map fst (insert_index i k v obj))
  = P k && forallb P (map fst obj).
Proof.
  induction obj as [ | [k' v'] obj IH ]; [ reflexivity | ].
  cbn [insert_index]. destruct (array_index k') as [ j | ]; [ | reflexivity ].
  destruct (N.leb j i); [ | reflexivity ].
  cbn [map fst forallb]. rewrite IH.
  destruct (P k), (P k'); reflexivity.
Qed.

Lemma forallb_values_insert (P : jsstring * JSON -> bool) (i : N) (k : jsstring)
    (v : JSON) (obj : list (jsstring * JSON)) :
  forallb P (insert_index i k v obj) = P (k, v) && forallb P obj.
Proof.
  induction obj as [ | [k' v'] obj IH ]; [ reflexivity | ].
  cbn [insert_index]. destruct (array_index k') as [ j | ]; [ | reflexivity ].
  destruct (N.leb j i); [ | reflexivity ].
  cbn [forallb]. rewrite IH.
  destruct (P (k, v)), (P (k', v')); reflexivity.
Qed.

Lemma key_before_index_first (k k' k'' : jsstring) (i j : N) :
  array_index k = Some i -> array_index k' = Some j -> (i <= j)%N ->
  jsstring_eqb k k'' = false ->
  key_before k' k'' = true -> key_before k k'' = true.
Proof.
  unfold key_before. intros Hk Hk' Hij Hne H. rewrite Hne. cbn [negb andb].
  apply andb_true_iff in H. destruct H as [_ H]. rewrite Hk, Hk' in *.
  destruct (array_index k'') as [ j'' | ]; [ | reflexivity ].
  apply N.leb_le in H. apply N.leb_le. lia.
Qed.

Lemma key_before_string_first (k k' k'' : jsstring) :
  array_index k' = None ->
  jsstring_eqb k k'' = false ->
  key_before k' k'' = true -> key_before k k'' = true.
Proof.
  unfold key_before. intros Hk' Hne H. rewrite Hne. cbn [negb andb].
  apply andb_true_iff in H. destruct H as [_ H]. rewrite Hk' in H.
  destruct (array_index k''); [ discriminate | reflexivity ].
Qed.

Lemma insert_index_ordered (i : N) (k : jsstring) (v : JSON)
    (obj : list (jsstring * JSON)) :
  array_index k = Some i ->
  Forall (fun m => jsstring_eqb k (fst m) = false) obj ->
  ordered_keys (map fst obj) = true ->
  ordered_keys (map fst (insert_index i k v obj)) = true.
Proof.
  intros Hk. induction 1 as [ | [k' v'] obj Hne Hrest IH ]; intros Hord;
    [ reflexivity | ].
  cbn [fst] in Hne. cbn [map fst ordered_keys] in Hord.
  apply andb_true_iff in Hord. destruct Hord as [Hfirst Hord].
  assert (Hne' : jsstring_eqb k' k = false) by now rewrite jsstring_eqb_sym.
  assert (Hall : forall k2, (forall k'', In k'' (map fst obj) ->
                   key_before k' k'' = true -> key_before k2 k'' = true) ->
                 forallb (key_before k2) (map fst obj) = true).
  { intros k2 Hstep. apply forallb_forall. intros k'' Hin. apply Hstep; trivial.
    rewrite forallb_forall in Hfirst. now apply Hfirst. }
  assert (Hfresh : forall k'', In k'' (map fst obj) -> jsstring_eqb k k'' = false).
  { intros k'' Hin. apply in_map_iff in Hin. destruct Hin as (m & <- & Hm).
    rewrite Forall_forall in Hrest. now apply Hrest. }
  cbn [insert_index]. destruct (array_index k') as [ j | ] eqn:Ek'.
  - destruct (N.leb j i) eqn:Eji.
    + cbn [map fst ordered_keys]. rewrite forallb_keys_insert, Hfirst, IH by exact Hord.
      unfold key_before. now rewrite Hne', Hk, Ek', Eji.
    + cbn [map fst ordered_keys forallb]. rewrite Hfirst, Hord.
      apply N.leb_gt in Eji.
      rewrite Hall.
      * unfold key_before. rewrite Hne, Ek', Hk.
        replace (N.leb i j) with true by (symmetry; apply N.leb_le; lia).
        reflexivity.
      * intros k'' Hin. apply (key_before_index_first k k' k'' i j); auto.
        lia.
  - cbn [map fst ordered_keys forallb]. rewrite Hfirst, Hord.
    rewrite Hall.
    + unfold key_before. now rewrite Hne, Ek'.
    + intros k'' Hin. apply (key_before_string_first k k' k''); auto.
Qed.

Lemma ordered_keys_snoc (l : list jsstring) (k : jsstring) :
  ordered_keys l = true -> forallb (fun a => key_before a k) l = true ->
  ordered_keys (l ++ [k]) = true.
Proof.
  induction l as [ | a l IH ]; intros Hord Hk; [ reflexivity | ].
  cbn [app ordered_keys forallb] in *.
  apply andb_true_iff in Hord. destruct Hord as [Ha Hord].
  apply andb_true_iff in Hk. destruct Hk as [Hak Hk].
  rewrite forallb_app, Ha, IH by assumption. cbn [forallb]. now rewrite Hak.
Qed.

Lemma CreateDataProperty_ordered (obj : list (jsstring * JSON)) (k : jsstring) (v : JSON) :
  ordered_keys (map fst obj) = true ->
  ordered_keys (map fst (CreateDataProperty obj k v)) = true.
Proof.
  intros Hord. unfold CreateDataProperty.
  destruct (replace_value k v obj) as [ obj' | ] eqn:Er.
  - now rewrite (replace_value_keys k v obj obj' Er).
  - apply replace_value_None in Er.
    destruct (array_index k) as [ i | ] eqn:Ek.
    + now apply insert_index_ordered.
    + rewrite map_app. cbn [map fst]. apply ordered_keys_snoc; [ exact Hord | ].
      apply forallb_forall. intros a Ha. apply in_map_iff in Ha.
      destruct Ha as (m & <- & Hm). rewrite Forall_forall in Er.
      unfold key_before. rewrite Ek, jsstring_eqb_sym, (Er m Hm). reflexivity.
Qed.

Lemma replace_value_values (P : JSON -> bool) (k : jsstring) (v : JSON)
    (obj obj' : list (jsstring * JSON)) :
  replace_value k v obj = Some obj' -> P v = true ->
  forallb (fun m => P (snd m)) obj = true ->
  forallb (fun m => P (snd m)) obj' = true.
Proof.
  revert obj'. induction obj as [ | [k' v'] obj IH ]; intros obj' H Hv Hall;
    [ discriminate | ].
  cbn [forallb snd] in Hall. apply andb_true_iff in Hall.
  destruct Hall as [Hv' Hall]. simpl in H. destruct (jsstring_eqb k k').
  - injection H as <-. cbn [forallb snd]. now rewrite Hv, Hall.
  - destruct (replace_value k v obj) as [ t' | ]; [ | discriminate ].
    injection H as <-. cbn [forallb snd]. rewrite Hv'. now apply IH.
Qed.

Lemma CreateDataProperty_values (P : JSON -> bool) (obj : list (jsstring * JSON))
    (k : jsstring) (v : JSON) :
  P v = true ->
  forallb (fun m => P (snd m)) obj = true ->
  forallb (fun m => P (snd m)) (CreateDataProperty obj k v) = true.
Proof.
  intros Hv Hall. unfold CreateDataProperty.
  destruct (replace_value k v obj) as [ obj' | ] eqn:Er.
  - now apply (replace_value_values P k v obj obj').
  - destruct (array_index k) as [ i | ].
    + rewrite forallb_values_insert. cbn [snd]. now rewrite Hv, Hall.
    + rewrite forallb_app, Hall. cbn [forallb snd]. now rewrite Hv.
Qed.

Lemma CreateDataProperty_canonical (obj : list (jsstring * JSON)) (k : jsstring)
    (v : JSON) :
  canonical (JObject obj) = true -> canonical v = true ->
  canonical (JObject (CreateDataProperty obj k v)) = true.
Proof.
  cbn [canonical]. intros H Hv. apply andb_true_iff in H. destruct H as [Hk Hvals].
  rewrite CreateDataProperty_ordered by exact Hk.
  now rewrite (CreateDataProperty_values canonical).
Qed.

Ltac head_match H :=
  match type of H with
  | (match ?x with _ => _ end) = _ =>
      let E := fresh "E" in destruct x eqn:E; try discriminate H
  end.

Lemma forallb_rev (A : Type) (P : A -> bool) (l : list A) :
  forallb P l = true -> forallb P (rev l) = true.
Proof.
  rewrite !forallb_forall. intros H x Hx. apply H. now apply in_rev.
Qed.

Lemma parse_canonical (fuel : nat) :
  (forall s v r, parse_value fuel s = Some (v, r) -> canonical v = true)
  /\ (forall s acc v r, parse_elements fuel s acc = Some (v, r) ->
        forallb canonical acc = true -> canonical v = true)
  /\ (forall s obj v r, parse_members fuel s obj = Some (v, r) ->
        canonical (JObject obj) = true -> canonical v = true).
Proof.
  induction fuel as [ | f (IHv & IHe & IHm) ]; [ repeat split; discriminate | ].
  repeat split.
  - intros s v r H. cbn [parse_value] in H.
    destruct s as [ | c t ]; [ discriminate | ].
    repeat head_match H;
      try (injection H as <- <-; reflexivity).
    + now apply (IHe _ _ _ _ H).
    + now apply (IHm _ _ _ _ H).
  - intros s acc v r H Hacc. rewrite parse_elements_S in H.
    repeat head_match H.
    + apply (IHe _ _ _ _ H). cbn [forallb]. rewrite Hacc, andb_true_r.
      eapply IHv; eassumption.
    + injection H as <- <-. cbn [canonical].
      match goal with
      | |- forallb canonical (rev acc ++ [?x]) = true =>
          change (forallb canonical (rev (x :: acc)) = true)
      end.
      apply forallb_rev.
      cbn [forallb]. rewrite Hacc, andb_true_r. eapply IHv; eassumption.
  - intros s obj v r H Hobj. cbn [parse_members] in H.
    repeat head_match H.
    + apply (IHm _ _ _ _ H). apply CreateDataProperty_canonical; trivial.
      eapply IHv; eassumption.
    + injection H as <- <-. apply CreateDataProperty_canonical; trivial.
      eapply IHv; eassumption.
Qed.

Lemma parse_text_canonical (text : jsstring) (v : JSON) :
  parse_text text = Some v -> canonical v = true.
Proof.
  unfold parse_text. intros H. repeat head_match H. injection H as <-.
  eapply (proj1 (parse_canonical _)); eassumption.
Qed.

(** ** The fuel of [parse_text] is enough *)

Lemma skip_ws_length (s : jsstring) : List.length (skip_ws s) <= List.length s.
Proof.
  induction s as [ | c t IH ]; [ reflexivity | ].
  cbn [skip_ws]. destruct (is_ws c); cbn [List.length]; lia.
Qed.

Lemma skip_ws_cons_length (s r : jsstring) (d : codeunit) :
  skip_ws s = d :: r -> List.length r < List.length s.
Proof.
  intros H. pose proof (skip_ws_length s) as L. rewrite H in L.
  cbn [List.length] in L. lia.
Qed.

Lemma strip_prefix_length (p s r : jsstring) :
  strip_prefix p s = Some r -> List.length r <= List.length s.
Proof.
  revert s. induction p as [ | x p IH ]; intros [ | y s ] H; cbn [strip_prefix] in H;
    try discriminate; try (injection H as <-; reflexivity).
  destruct (N.eqb x y); [ | discriminate ].
  apply IH in H. cbn [List.length]. lia.
Qed.

Lemma parse_chars_length (n : nat) :
  forall s x r, List.length s <= n ->
    parse_chars s = Some (x, r) -> List.length r < List.length s.
Proof.
  induction n as [ | n IH ]; intros [ | c t ] x r Hn H;
    cbn [parse_chars] in H; try discriminate; cbn [List.length] in Hn; try lia.
  repeat head_match H;
    try (injection H as <- <-);
    repeat match goal with
           | E : parse_chars ?u = Some (_, ?r') |- _ =>
               apply IH in E; [ | cbn [List.length] in *; lia ]
           end;
    cbn [List.length] in *; lia.
Qed.

Lemma span_digits_length (s ds r : jsstring) :
  span_digits s = (ds, r) -> List.length r <= List.length s.
Proof.
  revert ds r. induction s as [ | c t IH ]; intros ds r H; cbn [span_digits] in H.
  - now injection H as <- <-.
  - destruct (is_digit c).
    + destruct (span_digits t) as [ds' r'] eqn:E. injection H as <- <-.
      specialize (IH ds' r' eq_refl). cbn [List.length]. lia.
    + now injection H as <- <-.
Qed.

Lemma scan_exp_length (acc s tok r : jsstring) :
  scan_exp acc s = Some (tok, r) -> List.length r <= List.length s.
Proof.
  unfold scan_exp. intros H.
  destruct s as [ | c t ]; [ now injection H as <- <- | ].
  destruct (is_e c); [ | now injection H as <- <- ].
  destruct (match t with [] => _ | _ :: _ => _ end) as [sg t1] eqn:E.
  assert (L : List.length t1 <= List.length t).
  { destruct t as [ | d t' ]; [ now injection E as <- <- | ].
    destruct (N.eqb d 45 || N.eqb d 43); injection E as <- <-;
      cbn [List.length]; lia. }
  destruct (span_digits t1) as [ds r'] eqn:Es.
  apply span_digits_length in Es.
  destruct ds; [ discriminate | ]. injection H as <- <-.
  cbn [List.length]. lia.
Qed.

Lemma scan_frac_length (acc s tok r : jsstring) :
  scan_frac acc s = Some (tok, r) -> List.length r <= List.length s.
Proof.
  unfold scan_frac. intros H.
  repeat head_match H;
    try (apply scan_exp_length in H);
    repeat match goal with
           | E : span_digits _ = _ |- _ => apply span_digits_length in E
           end;
    cbn [List.length] in *; lia.
Qed.

Lemma scan_int_length (sg l tok r : jsstring) :
  match l with
  | c :: t =>
      if N.eqb c 48 then scan_frac (sg ++ [c]) t
      else if is_digit c then
        let (ds, r) := span_digits t in scan_frac (sg ++ c :: ds) r
      else None
  | [] => None
  end = Some (tok, r) ->
  List.length r < List.length l.
Proof.
  destruct l as [ | c t ]; [ discriminate | ]. intros H.
  destruct (N.eqb c 48).
  - apply scan_frac_length in H. cbn [List.length]. lia.
  - destruct (is_digit c); [ | discriminate ].
    destruct (span_digits t) as [ds r'] eqn:Es.
    apply span_digits_length in Es. apply scan_frac_length in H.
    cbn [List.length]. lia.
Qed.

Lemma scan_number_length (s tok r : jsstring) :
  scan_number s = Some (tok, r) -> List.length r < List.length s.
Proof.
  unfold scan_number. intros H.
  destruct s as [ | c t ]; [ discriminate | ].
  destruct (N.eqb c 45).
  - apply scan_int_length in H. cbn [List.length]. lia.
  - now apply (scan_int_length [] (c :: t)) in H.
Qed.

Ltac note_lengths :=
  repeat match goal with
         | E : skip_ws ?s = _ :: _ |- _ =>
             apply skip_ws_cons_length in E
         | E : strip_prefix _ _ = Some _ |- _ =>
             apply strip_prefix_length in E
         | E : parse_chars ?s = Some _ |- _ =>
             apply (parse_chars_length (List.length s) s _ _ (le_n _)) in E
         | E : scan_number _ = Some _ |- _ =>
             apply scan_number_length in E
         end.

(** A parse that succeeds consumes input. *)
Lemma parse_shrinks (fuel : nat) :
  (forall s v r, parse_value fuel s = Some (v, r) ->
     List.length r < List.length s)
  /\ (forall s acc v r, parse_elements fuel s acc = Some (v, r) ->
        List.length r < List.length s)
  /\ (forall s obj v r, parse_members fuel s obj = Some (v, r) ->
        List.length r < List.length s).
Proof.
  induction fuel as [ | f (IHv & IHe & IHm) ]; [ repeat split; discriminate | ].
  repeat split.
  - intros s v r H. cbn [parse_value] in H.
    destruct s as [ | c t ]; [ discriminate | ].
    repeat head_match H; try (injection H as <- <-);
      try (apply IHe in H); try (apply IHm in H);
      note_lengths; cbn [List.length] in *; lia.
  - intros s acc v r H. rewrite parse_elements_S in H.
    repeat head_match H; try (injection H as <- <-);
      try (apply IHe in H);
      repeat match goal with
             | E : parse_value f _ = Some _ |- _ => apply IHv in E
             end;
      note_lengths; cbn [List.length] in *;
      repeat match goal with
             | |- context [skip_ws ?x] => pose proof (skip_ws_length x); generalize dependent (skip_ws x); intros
             | H0 : context [skip_ws ?x] |- _ => pose proof (skip_ws_length x); generalize dependent (skip_ws x); intros
             end;
      lia.
  - intros s obj v r H. cbn [parse_members] in H.
    repeat head_match H; try (injection H as <- <-);
      try (apply IHm in H);
      repeat match goal with
             | E : parse_value f _ = Some _ |- _ => apply IHv in E
             end;
      note_lengths; cbn [List.length] in *;
      repeat match goal with
             | H0 : context [skip_ws ?x] |- _ => pose proof (skip_ws_length x); generalize dependent (skip_ws x); intros
             end;
      lia.
Qed.

(** A parse that succeeds needs no more fuel than the characters it
    consumes. *)
Lemma parse_fuel (fuel : nat) :
  (forall s v r, parse_value fuel s = Some (v, r) ->
     forall fuel', List.length s - List.length r <= fuel' ->
       parse_value fuel' s = Some (v, r))
  /\ (forall s acc v r, parse_elements fuel s acc = Some (v, r) ->
        forall fuel', List.length s - List.length r <= fuel' ->
          parse_elements fuel' s acc = Some (v, r))
  /\ (forall s obj v r, parse_members fuel s obj = Some (v, r) ->
        forall fuel', List.length s - List.length r <= fuel' ->
          parse_members fuel' s obj = Some (v, r)).
Proof.
  induction fuel as [ | f (IHv & IHe & IHm) ]; [ repeat split; discriminate | ].
  destruct (parse_shrinks f) as (Sv & Se & Sm).
  repeat split.
  - intros s v r H fuel' Hfuel.
    pose proof (proj1 (parse_shrinks (S f)) _ _ _ H) as Hlen.
    destruct fuel' as [ | f' ]; [ lia | ].
    cbn [parse_value] in H |- *.
    destruct s as [ | c t ]; [ discriminate | ].
    repeat head_match H; try exact H.
    + pose proof (Se _ _ _ _ H). apply (IHe _ _ _ _ H).
      note_lengths. cbn [List.length] in *. lia.
    + pose proof (Sm _ _ _ _ H). apply (IHm _ _ _ _ H).
      note_lengths. cbn [List.length] in *. lia.
  - intros s acc v r H fuel' Hfuel.
    pose proof (proj1 (proj2 (parse_shrinks (S f))) _ _ _ _ H) as Hlen.
    destruct fuel' as [ | f' ]; [ lia | ].
    rewrite parse_elements_S in H |- *.
    destruct (parse_value f s) as [ [v0 r1] | ] eqn:E; [ | discriminate ].
    pose proof (Sv _ _ _ E) as L1.
    destruct (skip_ws r1) as [ | d r' ] eqn:E1; [ discriminate | ].
    pose proof (skip_ws_cons_length _ _ _ E1) as L2.
    destruct (N.eqb d 44) eqn:E2.
    + pose proof (Se _ _ _ _ H) as L3. pose proof (skip_ws_length r') as L4.
      rewrite (IHv _ _ _ E f') by lia. rewrite E1, E2.
      apply (IHe _ _ _ _ H). lia.
    + destruct (N.eqb d 93) eqn:E3; [ | discriminate ]. injection H as <- <-.
      rewrite (IHv _ _ _ E f') by lia. now rewrite E1, E2, E3.
  - intros s obj v r H fuel' Hfuel.
    pose proof (proj2 (proj2 (parse_shrinks (S f))) _ _ _ _ H) as Hlen.
    destruct fuel' as [ | f' ]; [ lia | ].
    cbn [parse_members] in H |- *.
    destruct s as [ | q t ]; [ discriminate | ].
    destruct (N.eqb q 34); [ | discriminate ].
    destruct (parse_chars t) as [ [k r1] | ] eqn:Ek; [ | discriminate ].
    pose proof (parse_chars_length _ _ _ _ (le_n _) Ek) as L0.
    destruct (skip_ws r1) as [ | d r2 ] eqn:E1; [ discriminate | ].
    pose proof (skip_ws_cons_length _ _ _ E1) as L1.
    destruct (N.eqb d 58); [ | discriminate ].
    destruct (parse_value f (skip_ws r2)) as [ [v0 r3] | ] eqn:E; [ | discriminate ].
    pose proof (Sv _ _ _ E) as L2. pose proof (skip_ws_length r2) as L3.
    destruct (skip_ws r3) as [ | d' r4 ] eqn:E4; [ discriminate | ].
    pose proof (skip_ws_cons_length _ _ _ E4) as L4.
    cbn [List.length] in *.
    destruct (N.eqb d' 44) eqn:E5.
    + pose proof (Sm _ _ _ _ H) as L5. pose proof (skip_ws_length r4) as L6.
      rewrite (IHv _ _ _ E f') by lia. rewrite E4, E5.
      apply (IHm _ _ _ _ H). lia.
    + destruct (N.eqb d' 125) eqn:E6; [ | discriminate ]. injection H as <- <-.
      rewrite (IHv _ _ _ E f') by lia. now rewrite E4, E5, E6.
Qed.

(** [parse_text] accepts a text exactly when some amount of fuel does. *)
Theorem parse_text_any_fuel (text : jsstring) (v : JSON) :
  parse_text text = Some v <->
  exists fuel rest,
    parse_value fuel (skip_ws text) = Some (v, rest) /\ skip_ws rest = [].
Proof.
  unfold parse_text. split.
  - intros H. destruct (parse_value _ _) as [ [v0 rest] | ] eqn:E; [ | discriminate ].
    destruct (skip_ws rest) eqn:Er; [ | discriminate ]. injection H as <-.
    now exists (S (List.length text)), rest.
  - intros (fuel & rest & H & Hrest).
    rewrite (proj1 (parse_fuel fuel) _ _ _ H (S (List.length text))).
    + now rewrite Hrest.
    + pose proof (skip_ws_length text). lia.
Qed.

(** ** Integers below 2^53 *)

Lemma digits2_pos_iter_xO (p k : positive) :
  digits2_pos (Pos.iter xO p k) = (digits2_pos p + k)%positive.
Proof.
  induction k as [ | k IH ] using Pos.peano_ind.
  - simpl. lia.
  - rewrite Pos.iter_succ. simpl. rewrite IH. lia.
Qed.

Lemma iter_xO_pow2 (p k : positive) :
  Zpos (Pos.iter xO p k) = (Zpos p * 2 ^ Zpos k)%Z.
Proof.
  induction k as [ | k IH ] using Pos.peano_ind.
  - simpl. lia.
  - rewrite Pos.iter_succ, Pos2Z.inj_xO, IH, Pos2Z.inj_succ, Z.pow_succ_r by lia.
    lia.
Qed.

Lemma digits2_pos_bound (p : positive) :
  (Zpos p < 2 ^ Zpos (digits2_pos p))%Z.
Proof.
  induction p as [ p IH | p IH | ]; cbn [digits2_pos];
    rewrite ?Pos2Z.inj_succ, ?Z.pow_succ_r by lia; lia.
Qed.

Lemma digits2_pos_le (p : positive) (n : Z) :
  (Zpos p < 2 ^ n)%Z -> (0 <= n)%Z -> (Zpos (digits2_pos p) <= n)%Z.
Proof.
  revert n. induction p as [ p IH | p IH | ]; intros n H Hn; cbn [digits2_pos].
  - assert (0 < n)%Z by (destruct (Z.eq_dec n 0); [ subst; simpl in H; lia | lia ]).
    replace n with (Z.succ (n - 1)) in H by lia.
    rewrite Z.pow_succ_r in H by lia.
    specialize (IH (n - 1)%Z ltac:(lia) ltac:(lia)). lia.
  - assert (0 < n)%Z by (destruct (Z.eq_dec n 0); [ subst; simpl in H; lia | lia ]).
    replace n with (Z.succ (n - 1)) in H by lia.
    rewrite Z.pow_succ_r in H by lia.
    specialize (IH (n - 1)%Z ltac:(lia) ltac:(lia)). lia.
  - assert (0 < n)%Z by (destruct (Z.eq_dec n 0); [ subst; simpl in H; lia | lia ]).
    lia.
Qed.

(** A mantissa of 53 bits with an exponent in range is its own rounding. *)
Lemma binary_round_aux_exact (sx : bool) (m : positive) (e : Z) :
  digits2_pos m = 53%positive -> (-1074 <= e <= 971)%Z ->
  binary_round_aux prec emax sx (Zpos m) e loc_Exact = S754_finite sx m e.
Proof.
  intros Hd He. unfold binary_round_aux, shr_fexp, fexp, emin, prec, emax.
  cbn [Zdigits2 shr_record_of_loc]. rewrite Hd.
  replace (Z.max (53 + e - 53) (3 - 1024 - 53) - e)%Z with 0%Z by lia.
  cbn [shr shr_m loc_of_shr_record round_nearest_even Zdigits2 shr_record_of_loc].
  rewrite Hd.
  replace (Z.max (53 + e - 53) (3 - 1024 - 53) - e)%Z with 0%Z by lia.
  cbn [shr shr_m].
  replace (Z.leb e (1024 - 53)) with true by (symmetry; apply Z.leb_le; lia).
  reflexivity.
Qed.

Lemma binary_round_small (neg : bool) (p : positive) :
  (Zpos p < 2 ^ 53)%Z ->
  binary_round prec emax neg p 0 = of_positive neg p.
Proof.
  intros Hp. pose proof (digits2_pos_le p 53 Hp ltac:(lia)) as Hd.
  unfold binary_round, shl_align, of_positive, fexp, emin, prec, emax.
  replace (Z.max (Zpos (digits2_pos p) + 0 - 53) (3 - 1024 - 53) - 0)%Z
    with (Zpos (digits2_pos p) - 53)%Z by lia.
  replace (Z.max (Zpos (digits2_pos p) + 0 - 53) (3 - 1024 - 53))%Z
    with (Zpos (digits2_pos p) - 53)%Z by lia.
  destruct (53 - Zpos (digits2_pos p))%Z as [ | k | k ] eqn:E; try lia.
  - replace (Zpos (digits2_pos p) - 53)%Z with 0%Z by lia.
    apply binary_round_aux_exact; [ | lia ]. lia.
  - replace (Zpos (digits2_pos p) - 53)%Z with (Zneg k) by lia.
    apply binary_round_aux_exact.
    + rewrite digits2_pos_iter_xO. lia.
    + lia.
Qed.

Lemma integer_value_of_positive (neg : bool) (p : positive) :
  (Zpos p < 2 ^ 53)%Z ->
  integer_value (of_positive neg p) = Some (if neg then Zneg p else Zpos p).
Proof.
  intros Hp. unfold of_positive, integer_value.
  destruct (53 - Zpos (digits2_pos p))%Z as [ | k | k ] eqn:E.
  - cbn [Z.leb Z.compare]. rewrite Z.pow_0_r, Z.mul_1_r.
    replace (Z.ltb (Zpos p) (2 ^ 53)) with true by (symmetry; apply Z.ltb_lt; lia).
    now destruct neg.
  - cbn [Z.leb Z.compare Z.opp]. rewrite iter_xO_pow2.
    rewrite Z.mod_mul, Z.div_mul by lia. cbn [Z.eqb].
    replace (Z.ltb (Zpos p) (2 ^ 53)) with true by (symmetry; apply Z.ltb_lt; lia).
    now destruct neg.
  - cbn [Z.leb Z.compare]. rewrite Z.pow_0_r, Z.mul_1_r.
    replace (Z.ltb (Zpos p) (2 ^ 53)) with true by (symmetry; apply Z.ltb_lt; lia).
    now destruct neg.
Qed.

(** *** Decimal numerals *)

Lemma uint_units_digits (d : Decimal.uint) :
  forallb is_digit (uint_units d) = true.
Proof. induction d; cbn [uint_units forallb]; try rewrite IHd; reflexivity. Qed.

Lemma span_digits_all (l : jsstring) :
  forallb is_digit l = true -> span_digits l = (l, []).
Proof.
  induction l as [ | c t IH ]; [ reflexivity | ].
  cbn [forallb span_digits]. intros H. apply andb_true_iff in H.
  destruct H as [Hc Ht]. now rewrite Hc, (IH Ht).
Qed.

Lemma read_digits_all (l : jsstring) :
  forallb is_digit l = true ->
  forall acc count, snd (read_digits l acc count) = [].
Proof.
  induction l as [ | c t IH ]; [ reflexivity | ].
  cbn [forallb read_digits]. intros H acc count. apply andb_true_iff in H.
  destruct H as [Hc Ht]. rewrite Hc. now apply IH.
Qed.

Lemma read_digits_count (l : jsstring) (acc c1 c2 : N) :
  fst (fst (read_digits l acc c1)) = fst (fst (read_digits l acc c2)).
Proof.
  revert acc c1 c2. induction l as [ | c t IH ]; intros acc c1 c2;
    [ reflexivity | ].
  cbn [read_digits]. destruct (is_digit c); [ apply IH | reflexivity ].
Qed.

Lemma read_digits_acc_eq (l : jsstring) (a b c : N) :
  a = b -> read_digits l a c = read_digits l b c.
Proof. now intros ->. Qed.

Lemma read_digits_of_uint_acc (d : Decimal.uint) (a : positive) (count : N) :
  fst (fst (read_digits (uint_units d) (Npos a) count))
  = Npos (Pos.of_uint_acc d a).
Proof.
  revert a count. induction d; intros a count;
    cbn [uint_units read_digits Pos.of_uint_acc]; [ reflexivity | .. ];
    change (is_digit _) with true; cbv iota;
    rewrite <- (IHd _ (N.succ count)); f_equal; f_equal;
    apply read_digits_acc_eq; lia.
Qed.

Lemma read_digits_of_uint (d : Decimal.uint) (count : N) :
  fst (fst (read_digits (uint_units d) 0 count)) = Pos.of_uint d.
Proof.
  revert count. induction d; intros count;
    cbn [uint_units read_digits Pos.of_uint]; [ reflexivity | .. ];
    change (is_digit _) with true; cbv iota;
    try (rewrite <- (read_digits_of_uint_acc d _ (N.succ count));
         f_equal; f_equal; apply read_digits_acc_eq; reflexivity).
  apply IHd.
Qed.

(** The digits written for [n] read back as [n], and nothing is left. *)
Lemma read_digits_to_uint (n : N) :
  exists count, read_digits (uint_units (N.to_uint n)) 0 0 = (n, count, []).
Proof.
  pose proof (read_digits_of_uint (N.to_uint n) 0) as Hv.
  pose proof (read_digits_all _ (uint_units_digits (N.to_uint n)) 0%N 0%N) as Hr.
  destruct (read_digits (uint_units (N.to_uint n)) 0 0) as [[v count] r].
  cbn [fst snd] in Hv, Hr. subst r. exists count.
  rewrite Hv. now rewrite <- (DecimalN.Unsigned.of_to n) at 2.
Qed.

Lemma to_uint_normal (n : N) :
  N.to_uint n = Decimal.unorm (N.to_uint n).
Proof.
  rewrite <- (DecimalN.Unsigned.to_of (N.to_uint n)).
  now rewrite DecimalN.Unsigned.of_to.
Qed.

(** The numeral of [n] is a lone zero, or digits of which the first is not
    a zero. *)
Lemma to_uint_shape (n : N) :
  uint_units (N.to_uint n) = [48%N]
  \/ exists c t, uint_units (N.to_uint n) = c :: t
       /\ is_digit c = true /\ N.eqb c 48 = false /\ forallb is_digit t = true.
Proof.
  pose proof (to_uint_normal n) as H.
  pose proof (uint_units_digits (N.to_uint n)) as Hd.
  destruct (N.to_uint n) as [ | d | d | d | d | d | d | d | d | d | d ];
    try (right; cbn [uint_units forallb] in *; eexists _, _;
         split; [ reflexivity | ]; split; [ reflexivity | ];
         split; [ reflexivity | ];
         apply andb_true_iff in Hd; apply Hd).
  - discriminate.
  - left. unfold Decimal.unorm in H. cbn [Decimal.nzhead] in H.
    destruct (Decimal.nzhead d) eqn:E; try discriminate H.
    + injection H as ->. reflexivity.
    + exfalso. exact (DecimalFacts.nzhead_nonzero _ _ E).
Qed.

Lemma decimal_literal (neg : bool) (n : N) :
  number_literal ((if neg then [45%N] else []) ++ uint_units (N.to_uint n)).
Proof.
  unfold number_literal.
  destruct (to_uint_shape n) as [ -> | (c & t & -> & Hc & Hz & Ht) ].
  - now destruct neg.
  - assert (H45 : N.eqb c 45 = false).
    { unfold is_digit in Hc. apply andb_true_iff in Hc. destruct Hc as [Hc _].
      apply N.leb_le in Hc. apply N.eqb_neq. lia. }
    unfold scan_number. destruct neg; cbn [app N.eqb Pos.eqb].
    + rewrite Hz, Hc, (span_digits_all t Ht). reflexivity.
    + rewrite H45, Hz, Hc, (span_digits_all t Ht). reflexivity.
Qed.

Lemma StringToNumber_decimal (neg : bool) (n : N) :
  StringToNumber ((if neg then [45%N] else []) ++ uint_units (N.to_uint n))
  = round_decimal neg n 0.
Proof.
  destruct (read_digits_to_uint n) as (count & Hread).
  unfold StringToNumber. destruct neg; cbn [app N.eqb Pos.eqb].
  - now rewrite Hread.
  - destruct (uint_units (N.to_uint n)) as [ | c t ] eqn:E.
    + cbn [read_digits] in Hread. injection Hread as <- <-. reflexivity.
    + assert (H45 : N.eqb c 45 = false).
      { pose proof (uint_units_digits (N.to_uint n)) as Hd. rewrite E in Hd.
        cbn [forallb] in Hd. apply andb_true_iff in Hd. destruct Hd as [Hc _].
        unfold is_digit in Hc. apply andb_true_iff in Hc. destruct Hc as [Hc _].
        apply N.leb_le in Hc. apply N.eqb_neq. lia. }
      now rewrite H45, Hread.
Qed.

Section Integers.

Variable shortest_decimal : number -> jsstring.

Lemma Number_toString_of_positive (neg : bool) (p : positive) :
  (Zpos p < 2 ^ 53)%Z ->
  Number_toString shortest_decimal (of_positive neg p)
  = (if neg then [45%N] else []) ++ uint_units (N.to_uint (Npos p)).
Proof.
  intros Hp. pose proof (integer_value_of_positive neg p Hp) as Hv.
  unfold Number_toString.
  replace (match of_positive neg p with
           | S754_nan => _ | S754_infinity s => _
           | _ => match integer_value (of_positive neg p) with
                  | Some z => _ | None => _ end
           end)
    with (match integer_value (of_positive neg p) with
          | Some z => (if Z.ltb z 0 then [45%N] else [])
                        ++ uint_units (N.to_uint (Z.abs_N z))
          | None => shortest_decimal (of_positive neg p)
          end)
    by (unfold of_positive; now destruct (53 - Zpos (digits2_pos p))%Z).
  rewrite Hv. now destruct neg.
Qed.

(** Every integer of magnitude below 2^53 is written in digits that read
    back as the same number, whatever the engine does elsewhere. *)
Theorem safe_integer_reads_back (z : Z) :
  (Z.abs z < 2 ^ 53)%Z -> reads_back shortest_decimal (Number_of_Z z).
Proof.
  intros Hz. unfold Number_of_Z, binary_normalize.
  destruct z as [ | p | p ].
  - repeat split.
  - rewrite binary_round_small by lia. unfold reads_back.
    rewrite Number_toString_of_positive by lia.
    split; [ unfold of_positive; now destruct (53 - Zpos (digits2_pos p))%Z | ].
    split; [ apply (decimal_literal false) | ].
    rewrite (StringToNumber_decimal false). unfold round_decimal.
    cbn [Z.leb Z.compare Z.pow Z.to_pos]. rewrite Pos.mul_1_r.
    apply binary_round_small. lia.
  - rewrite binary_round_small by lia. unfold reads_back.
    rewrite Number_toString_of_positive by lia.
    split; [ unfold of_positive; now destruct (53 - Zpos (digits2_pos p))%Z | ].
    split; [ apply (decimal_literal true) | ].
    rewrite (StringToNumber_decimal true). unfold round_decimal.
    cbn [Z.leb Z.compare Z.pow Z.to_pos]. rewrite Pos.mul_1_r.
    apply binary_round_small. lia.
Qed.

End Integers.

Section IntegralValues.

Variable shortest_decimal : number -> jsstring.

(** A value whose numbers are integers below 2^53 is representable,
    whatever the engine writes for the other numbers. *)
Lemma integral_representable (v : JSON) :
  canonical v = true -> integral v -> representable shortest_decimal v.
Proof.
  intros Hc Hi. split; [ exact Hc | ].
  apply Forall_impl with (2 := Hi). intros x (z & Hz & ->).
  now apply safe_integer_reads_back.
Qed.

End IntegralValues.

(** ** The synchronization rule *)

Lemma split_no_separator (sep : codeunit) (s : jsstring) :
  existsb (N.eqb sep) s = false -> split sep s = [s].
Proof.
  induction s as [ | c t IH ]; [ reflexivity | ].
  cbn [existsb split]. intros H. apply orb_false_iff in H. destruct H as [Hc Ht].
  rewrite N.eqb_sym, Hc. now rewrite (IH Ht).
Qed.

Lemma split_nonempty (sep : codeunit) (s : jsstring) : split sep s <> [].
Proof.
  destruct s as [ | c t ]; [ discriminate | ].
  cbn [split]. destruct (N.eqb c sep); [ discriminate | ].
  destruct (split sep t); discriminate.
Qed.

Lemma split_two (sep : codeunit) (s : jsstring) :
  existsb (N.eqb sep) s = true -> exists h h' r, split sep s = h :: h' :: r.
Proof.
  induction s as [ | c t IH ]; [ discriminate | ].
  cbn [existsb split]. rewrite (N.eqb_sym sep c). destruct (N.eqb c sep).
  - intros _. pose proof (split_nonempty sep t) as Hne.
    destruct (split sep t) as [ | h' r ]; [ contradiction | ].
    now exists [], h', r.
  - cbn [orb]. intros H. destruct (IH H) as (h & h' & r & ->).
    now exists (c :: h), h', r.
Qed.

Lemma pop_split_cons (sep c : codeunit) (t : jsstring) :
  existsb (N.eqb sep) t = true ->
  pop (split sep (c :: t)) = pop (split sep t).
Proof.
  intros H. destruct (split_two sep t H) as (h & h' & r & E).
  cbn [split]. rewrite E. now destruct (N.eqb c sep).
Qed.

Lemma pop_split_after_last_dot (p : jsstring) :
  pop (split 46%N p) = after_last_dot p.
Proof.
  induction p as [ | c t IH ]; [ reflexivity | ].
  cbn [after_last_dot]. destruct (existsb (N.eqb 46) t) eqn:E.
  - now rewrite pop_split_cons.
  - cbn [split]. rewrite (split_no_separator _ _ E).
    destruct (N.eqb c 46); reflexivity.
Qed.

(** The part after the last full stop is the whole path, which then has no
    full stop, or the path ends with a full stop and that part. *)
Lemma after_last_dot_shape (p : jsstring) :
  (existsb (N.eqb 46) p = false /\ after_last_dot p = p)
  \/ exists stem, p = stem ++ 46%N :: after_last_dot p.
Proof.
  induction p as [ | c t IH ]; [ now left | ].
  cbn [after_last_dot existsb]. destruct (existsb (N.eqb 46) t) eqn:E.
  - right. destruct IH as [ [IH _] | (stem & IH) ]; [ discriminate | ].
    exists (c :: stem). cbn [app]. now rewrite <- IH.
  - rewrite (N.eqb_sym 46 c).
    destruct (N.eqb_spec c 46) as [ -> | _ ]; [ right; now exists [] | now left ].
Qed.

Section Rule.

Variable shortest_decimal : number -> jsstring.
Variable SyntaxError_message : jsstring -> jsstring.
Local Notation "'parse'" := (JSON_parse SyntaxError_message).
Local Notation "'stringify'" := (JSON_stringify shortest_decimal).
Local Notation "'onTextChanged'" := (handleRawJsonInputChange SyntaxError_message).
Local Notation "'step_'" := (step shortest_decimal SyntaxError_message).
Local Notation "'run_'" := (run shortest_decimal SyntaxError_message).
Local Notation "'handler_'" := (handler shortest_decimal SyntaxError_message).
Local Notation "'flush_'" := (flush SyntaxError_message).

Lemma JSON_parse_inl (text : jsstring) (v : JSON) :
  parse text = inl v <-> parse_text text = Some v.
Proof.
  unfold JSON_parse. destruct (parse_text text); split; congruence.
Qed.

Lemma JSON_parse_None (text : jsstring) :
  parse_text text = None -> parse text = inr (SyntaxError_message text).
Proof. unfold JSON_parse. now intros ->. Qed.

(** *** C2 and C3: the watcher callback *)

(** C2. For every text [T] that is valid JSON, the watcher callback
    [onTextChanged(T)] sets the displayed value to [parse(T)] and empties
    the diagnostic. *)
Theorem onTextChanged_valid (T : jsstring) (v : JSON) (s : State) :
  parse T = inl v ->
  displayData (onTextChanged T s) = v
  /\ errorMessage (onTextChanged T s) = [].
Proof.
  intros H. unfold handleRawJsonInputChange. rewrite H. now split.
Qed.

(** C3. For every text [T] that is not valid JSON, [onTextChanged(T)]
    leaves the displayed value as it was and sets the diagnostic to the
    message of the parser's exception, which is not empty when the engine's
    message is not. *)
Theorem onTextChanged_invalid (T : jsstring) (s : State) :
  parse_text T = None ->
  SyntaxError_message T <> [] ->
  displayData (onTextChanged T s) = displayData s
  /\ errorMessage (onTextChanged T s) = SyntaxError_message T
  /\ errorMessage (onTextChanged T s) <> [].
Proof.
  intros H Hmsg. unfold handleRawJsonInputChange.
  rewrite (JSON_parse_None T H). now repeat split.
Qed.

(** *** What handlers and the watcher leave alone *)

Lemma flush_rawJsonInput (seen : jsstring) (s : State) :
  rawJsonInput (flush_ seen s) = rawJsonInput s.
Proof.
  unfold flush, handleRawJsonInputChange.
  destruct (jsstring_eqb seen (rawJsonInput s)); [ reflexivity | ].
  now destruct (parse (rawJsonInput s)).
Qed.

Lemma _toggleFormat_displayData (b : bool) (s : State) :
  displayData (_toggleFormat shortest_decimal SyntaxError_message b s)
  = displayData s.
Proof. unfold _toggleFormat. now destruct (parse (rawJsonInput s)). Qed.

Lemma displayJSON_displayData (filePath : option jsstring) (file : read_result)
    (s : State) :
  displayData (displayJSON shortest_decimal SyntaxError_message filePath file s)
  = displayData s.
Proof.
  unfold displayJSON. destruct filePath as [ [ | c p ] | ]; try reflexivity.
  destruct (negb _); [ reflexivity | ].
  destruct file; [ | reflexivity ].
  now rewrite _toggleFormat_displayData.
Qed.

Lemma handler_displayData (e : event) (s : State) :
  displayData (handler_ e s) = displayData s.
Proof.
  destruct e as [ text | newData | | | | filePath file | paths file | dialog write ];
    cbn [handler].
  - reflexivity.
  - reflexivity.
  - unfold formatJson. now destruct (parse (rawJsonInput s)).
  - unfold minifyJson. now destruct (parse (rawJsonInput s)).
  - unfold toggleFormatMinify. now rewrite _toggleFormat_displayData.
  - apply displayJSON_displayData.
  - unfold dragDrop. destruct paths; [ reflexivity | ].
    now rewrite displayJSON_displayData.
  - unfold saveFile. destruct dialog as [ err | | [ | c p ] | ]; try reflexivity.
    now destruct write.
Qed.

Lemma step_rawJsonInput (e : event) (s : State) :
  rawJsonInput (step_ e s) = rawJsonInput (handler_ e s).
Proof. unfold step. apply flush_rawJsonInput. Qed.

(** What the watcher makes of the displayed value after an event. *)
Lemma step_displayData (e : event) (s : State) :
  displayData (step_ e s) =
  if jsstring_eqb (rawJsonInput s) (rawJsonInput (step_ e s))
  then displayData s
  else match parse_text (rawJsonInput (step_ e s)) with
       | Some v => v
       | None => displayData s
       end.
Proof.
  rewrite step_rawJsonInput. unfold step, flush, handleRawJsonInputChange.
  destruct (jsstring_eqb (rawJsonInput s) (rawJsonInput (handler_ e s))).
  - apply handler_displayData.
  - unfold JSON_parse.
    destruct (parse_text (rawJsonInput (handler_ e s))); cbn;
      try apply handler_displayData; reflexivity.
Qed.

(** After a handler has left the text of a value in the buffer and no
    message, the watcher leaves no message either. *)
Lemma flush_after_stringify (seen : jsstring) (v : JSON) (space : nat) (s : State) :
  prints shortest_decimal v ->
  rawJsonInput s = stringify v space ->
  (jsstring_eqb seen (rawJsonInput s) = true -> errorMessage s = []) ->
  errorMessage (flush_ seen s) = [].
Proof.
  intros Hv Hraw Hsame. unfold flush.
  destruct (jsstring_eqb seen (rawJsonInput s)); [ now apply Hsame | ].
  unfold handleRawJsonInputChange, JSON_parse.
  now rewrite Hraw, parse_text_stringify.
Qed.

(** *** C1: the displayed value follows the last text that parsed *)

Lemma sample_parses :
  parse_text sample
  = Some (JObject
            [(str "name", JString (str "Tauri-JSON-Editor"));
             (str "version", JString (str "1.0.0"));
             (str "isAwesome", JBool true);
             (str "features",
              JArray [JString (str "Real-time JSON validation");
                      JString (str "Pretty formatting")]);
             (str "details",
              JObject [(str "level", JNumber (S754_finite false 4503599627370496 (-52)));
                       (str "active", JNull)])]).
Proof. vm_compute. reflexivity. Qed.

Lemma last_parsed_states (es : list event) :
  forall s found,
    remember_parsed found (rawJsonInput s) = Some (displayData s) ->
    fold_left remember_parsed
      (map rawJsonInput (states shortest_decimal SyntaxError_message es s)) found
    = Some (displayData (run_ es s)).
Proof.
  induction es as [ | e es IH ]; intros s found H.
  - exact H.
  - cbn [states map fold_left run]. rewrite H.
    change (fold_left remember_parsed
              (map rawJsonInput
                 (states shortest_decimal SyntaxError_message es (step_ e s)))
              (Some (displayData s))
            = Some (displayData (run_ es (step_ e s)))).
    apply IH. unfold remember_parsed in *. rewrite step_displayData.
    destruct (jsstring_eqb (rawJsonInput s) (rawJsonInput (step_ e s))) eqn:E.
    + apply jsstring_eqb_eq in E. rewrite <- E.
      now destruct (parse_text (rawJsonInput s)).
    + now destruct (parse_text (rawJsonInput (step_ e s))).
Qed.

(** C1. After initialization and after any sequence of events (typing,
    tree edits, format, minify, and the file operations as well) the
    displayed value is the parse of the most recent text of the buffer that
    parsed; and an event that leaves an unparsable text in the buffer leaves
    the displayed value as it was. *)
Theorem displayData_last_parsed (es : list event) :
  last_parsed
    (map rawJsonInput
       (states shortest_decimal SyntaxError_message es
          (initial SyntaxError_message)))
  = Some (displayData (run_ es (initial SyntaxError_message)))
  /\ (forall e s,
        parse_text (rawJsonInput (step_ e s)) = None ->
        displayData (step_ e s) = displayData s).
Proof.
  split.
  - apply last_parsed_states. unfold remember_parsed, initial, JSON_parse.
    cbn [rawJsonInput displayData]. now rewrite sample_parses.
  - intros e s H. rewrite step_displayData, H.
    now destruct (jsstring_eqb _ _).
Qed.

(** *** C4 and C5: format and minify *)

Lemma example_text_parses :
  parse_text example_text
  = Some (JObject [(str "a", JNumber (S754_finite false 4503599627370496 (-52)))]).
Proof. vm_compute. reflexivity. Qed.

(** C4. When the text of the buffer parses to [v], format (the [formatJson]
    button of the first revisions, [_toggleFormat(false)] of the last, and
    the toggle button when the mode was on) replaces the text with
    [JSON.stringify(v, null, 2)] and empties the diagnostic, which the
    watcher then leaves empty; on the text [{"a":1}] the new text is an
    opening brace, the member indented by two spaces with a space after the
    colon, and a closing brace, on three lines. *)
Theorem format_valid (s : State) (v : JSON) :
  parse (rawJsonInput s) = inl v ->
  (forall op,
      In op [formatJson shortest_decimal SyntaxError_message;
             _toggleFormat shortest_decimal SyntaxError_message false;
             handler_ ClickFormat] ->
      rawJsonInput (op s) = stringify v 2 /\ errorMessage (op s) = [])
  /\ (isFormatMode s = true ->
      rawJsonInput (toggleFormatMinify shortest_decimal SyntaxError_message s)
      = stringify v 2
      /\ errorMessage (toggleFormatMinify shortest_decimal SyntaxError_message s) = [])
  /\ (prints shortest_decimal v ->
      rawJsonInput (step_ ClickFormat s) = stringify v 2
      /\ errorMessage (step_ ClickFormat s) = [])
  /\ (forall s0,
         rawJsonInput (formatJson shortest_decimal SyntaxError_message
                         (set_rawJsonInput example_text s0))
         = example_formatted
         /\ rawJsonInput (step_ ClickFormat (set_rawJsonInput example_text s0))
            = example_formatted
         /\ errorMessage (step_ ClickFormat (set_rawJsonInput example_text s0))
            = []).
Proof.
  intros H. split; [ | split; [ | split ] ].
  - intros op [ <- | [ <- | [ <- | [] ] ] ]; cbn [handler];
      unfold formatJson, _toggleFormat; now rewrite H.
  - intros Hmode.
    unfold toggleFormatMinify, _toggleFormat.
    cbn [rawJsonInput isFormatMode set_isFormatMode].
    now rewrite Hmode, H.
  - intros Hv. rewrite step_rawJsonInput. unfold step. cbn [handler].
    split; [ unfold formatJson; now rewrite H | ].
    apply flush_after_stringify with (v := v) (space := 2);
      [ exact Hv | | ]; unfold formatJson; now rewrite H.
  - intros s0.
    assert (E : formatJson shortest_decimal SyntaxError_message
                  (set_rawJsonInput example_text s0)
                = set_errorMessage []
                    (set_rawJsonInput example_formatted
                       (set_rawJsonInput example_text s0))).
    { unfold formatJson, JSON_parse. cbn [rawJsonInput set_rawJsonInput].
      rewrite example_text_parses. reflexivity. }
    split; [ now rewrite E | ].
    rewrite step_rawJsonInput. cbn [handler]. split; [ now rewrite E | ].
    unfold step, flush. cbn [handler]. rewrite E.
    cbn [rawJsonInput set_rawJsonInput set_errorMessage].
    destruct (jsstring_eqb example_text example_formatted); [ reflexivity | ].
    unfold handleRawJsonInputChange, JSON_parse.
    replace (parse_text example_formatted)
      with (Some (JObject [(str "a", JNumber (S754_finite false 4503599627370496 (-52)))]))
      by (vm_compute; reflexivity).
    reflexivity.
Qed.

(** C5. When the text of the buffer does not parse, format and minify each
    set the diagnostic to the parser's message behind the prefix
    [Invalid JSON: ] and leave the text as it was; the watcher does not run,
    so the same holds once the event is over. *)
Theorem format_minify_invalid (s : State) :
  parse_text (rawJsonInput s) = None ->
  forall op,
    In op [formatJson shortest_decimal SyntaxError_message;
           minifyJson shortest_decimal SyntaxError_message;
           _toggleFormat shortest_decimal SyntaxError_message false;
           _toggleFormat shortest_decimal SyntaxError_message true;
           toggleFormatMinify shortest_decimal SyntaxError_message;
           step_ ClickFormat; step_ ClickMinify; step_ ClickToggle] ->
    errorMessage (op s)
    = str "Invalid JSON: " ++ SyntaxError_message (rawJsonInput s)
    /\ rawJsonInput (op s) = rawJsonInput s.
Proof.
  intros H op Hop. apply JSON_parse_None in H.
  assert (F : formatJson shortest_decimal SyntaxError_message s
              = set_errorMessage
                  (str "Invalid JSON: " ++ SyntaxError_message (rawJsonInput s)) s)
    by (unfold formatJson; now rewrite H).
  assert (M : minifyJson shortest_decimal SyntaxError_message s
              = set_errorMessage
                  (str "Invalid JSON: " ++ SyntaxError_message (rawJsonInput s)) s)
    by (unfold minifyJson; now rewrite H).
  assert (T : forall b, _toggleFormat shortest_decimal SyntaxError_message b s
              = set_errorMessage
                  (str "Invalid JSON: " ++ SyntaxError_message (rawJsonInput s)) s)
    by (intros b; unfold _toggleFormat; now rewrite H).
  assert (G : toggleFormatMinify shortest_decimal SyntaxError_message s
              = set_errorMessage
                  (str "Invalid JSON: " ++ SyntaxError_message (rawJsonInput s))
                  (set_isFormatMode (negb (isFormatMode s)) s))
    by (unfold toggleFormatMinify, _toggleFormat;
        cbn [rawJsonInput set_isFormatMode]; now rewrite H).
  destruct Hop as [ <- | [ <- | [ <- | [ <- | [ <- | [ <- | [ <- | [ <- | [] ] ] ] ] ] ] ] ];
    unfold step, flush; cbn [handler];
    rewrite ?F, ?M, ?T, ?G; cbn [rawJsonInput errorMessage set_errorMessage set_isFormatMode];
    rewrite ?jsstring_eqb_refl; now split.
Qed.

(** *** C6 and C7: round trips *)

(** C6. For every representable value [v], after the tree widget has
    reported [v] the text of the buffer parses, and parses to [v]. *)
Theorem handleEdit_round_trip (v : JSON) (s : State) :
  representable shortest_decimal v ->
  parse (rawJsonInput (handleEdit shortest_decimal v s)) = inl v
  /\ parse (rawJsonInput (step_ (TreeEdited v) s)) = inl v.
Proof.
  intros Hv. rewrite step_rawJsonInput. cbn [handler].
  unfold handleEdit. cbn [rawJsonInput set_rawJsonInput].
  split; apply JSON_parse_inl; now apply parse_text_stringify_representable.
Qed.

(** C7, amended. When the text of the buffer parses to a value all of
    whose numbers read back from their own text, format followed by minify
    leaves a text that parses to the same value. *)
Theorem format_then_minify (s : State) (v : JSON) :
  parse (rawJsonInput s) = inl v ->
  Forall (reads_back shortest_decimal) (numbers_of v) ->
  parse (rawJsonInput
           (minifyJson shortest_decimal SyntaxError_message
              (formatJson shortest_decimal SyntaxError_message s))) = inl v
  /\ parse (rawJsonInput
              (_toggleFormat shortest_decimal SyntaxError_message true
                 (_toggleFormat shortest_decimal SyntaxError_message false s)))
     = inl v
  /\ parse (rawJsonInput (step_ ClickMinify (step_ ClickFormat s))) = inl v.
Proof.
  intros H Hn.
  assert (Hv : representable shortest_decimal v).
  { split; [ | exact Hn ]. apply JSON_parse_inl in H.
    now apply parse_text_canonical in H. }
  assert (P : forall space, parse (stringify v space) = inl v).
  { intros space. apply JSON_parse_inl.
    now apply parse_text_stringify_representable. }
  assert (F : rawJsonInput (formatJson shortest_decimal SyntaxError_message s)
              = stringify v 2)
    by (unfold formatJson; now rewrite H).
  assert (M : forall s1, rawJsonInput s1 = stringify v 2 ->
              rawJsonInput (minifyJson shortest_decimal SyntaxError_message s1)
              = stringify v 0).
  { intros s1 E. unfold minifyJson. now rewrite E, P. }
  split; [ | split ].
  - now rewrite (M _ F).
  - unfold _toggleFormat. rewrite H.
    cbn [negb rawJsonInput set_rawJsonInput set_errorMessage].
    rewrite P. cbn [rawJsonInput set_rawJsonInput set_errorMessage].
    apply P.
  - rewrite step_rawJsonInput. cbn [handler]. rewrite M; [ apply P | ].
    rewrite step_rawJsonInput. exact F.
Qed.

(** *** C8 and C10: file types *)

Lemma includes_fileExtensions (x : jsstring) :
  includes fileExtensions x = true <-> x = str "json" \/ x = str "txt".
Proof.
  unfold includes, fileExtensions. cbn [existsb]. rewrite orb_false_r.
  rewrite orb_true_iff, !jsstring_eqb_eq. tauto.
Qed.

Lemma displayJSON_supported (c : codeunit) (p : jsstring) (lines : list jsstring)
    (s : State) :
  includes fileExtensions (pop (split 46%N (c :: p))) = true ->
  displayJSON shortest_decimal SyntaxError_message (Some (c :: p)) (ReadLines lines) s
  = _toggleFormat shortest_decimal SyntaxError_message (isFormatMode s)
      (set_rawJsonInput (trim (file_text lines)) s).
Proof. intros H. unfold displayJSON. cbv zeta. now rewrite H. Qed.

Lemma displayJSON_rejected (c : codeunit) (p : jsstring) (file : read_result)
    (s : State) :
  includes fileExtensions (pop (split 46%N (c :: p))) = false ->
  displayJSON shortest_decimal SyntaxError_message (Some (c :: p)) file s
  = set_errorMessage
      (str "Unsupported file type: " ++ pop (split 46%N (c :: p))) s.
Proof. intros H. unfold displayJSON. cbv zeta. now rewrite H. Qed.

(** C8. For every path handed to the component by the open dialog or by a
    drop (such a path is not empty), the file is loaded when what follows
    the last full stop is [json] or [txt], and only then: for any other the
    state changes only in the diagnostic, which starts with
    [Unsupported file type]. What follows the last full stop is the end of
    the path behind a full stop, or the whole path when it has none. *)
Theorem open_file_types (path : jsstring) (file : read_result) (s : State) :
  path <> [] ->
  let fileExtension := pop (split 46%N path) in
  (fileExtension = str "json" \/ fileExtension = str "txt" ->
   forall lines,
     openFile shortest_decimal SyntaxError_message (Some path) (ReadLines lines) s
     = _toggleFormat shortest_decimal SyntaxError_message (isFormatMode s)
         (set_rawJsonInput (trim (file_text lines)) s))
  /\ (fileExtension <> str "json" -> fileExtension <> str "txt" ->
      openFile shortest_decimal SyntaxError_message (Some path) file s
      = set_errorMessage (str "Unsupported file type" ++ str ": " ++ fileExtension) s
      /\ forall others,
          dragDrop shortest_decimal SyntaxError_message (path :: others) file s
          = set_errorMessage (str "Unsupported file type" ++ str ": " ++ fileExtension)
              (set_defaultPath path s))
  /\ (path = fileExtension \/ exists stem, path = stem ++ 46%N :: fileExtension).
Proof.
  intros Hpath fileExtension.
  split; [ | split ];
    [ | | subst fileExtension; rewrite pop_split_after_last_dot;
          destruct (after_last_dot_shape path) as [ [_ E] | E ];
          [ left; now rewrite E | now right ] ];
    (destruct path as [ | c p ]; [ contradiction | ]).
  - intros Hext lines. unfold openFile. apply displayJSON_supported.
    now apply includes_fileExtensions.
  - intros Hj Ht.
    assert (E : includes fileExtensions (pop (split 46%N (c :: p))) = false).
    { destruct (includes fileExtensions (pop (split 46%N (c :: p)))) eqn:E;
        [ | reflexivity ].
      apply includes_fileExtensions in E. subst fileExtension. tauto. }
    split.
    + unfold openFile. now rewrite displayJSON_rejected.
    + intros others. unfold dragDrop. cbn [defaultPath set_defaultPath].
      now rewrite displayJSON_rejected.
Qed.

(** C10. For every path whose part after the last full stop (the whole
    path when it has none) is not exactly [json] or [txt], [displayJSON]
    writes the diagnostic and nothing else: the text of the buffer and the
    displayed value stay as they were, also once the event is over. *)
Theorem displayJSON_unsupported (path : jsstring) (file : read_result) (s : State) :
  after_last_dot path <> str "json" ->
  after_last_dot path <> str "txt" ->
  (exists message,
      displayJSON shortest_decimal SyntaxError_message (Some path) file s
      = set_errorMessage message s)
  /\ rawJsonInput (step_ (Opened (Some path) file) s) = rawJsonInput s
  /\ displayData (step_ (Opened (Some path) file) s) = displayData s.
Proof.
  intros Hj Ht.
  assert (E : exists message,
             displayJSON shortest_decimal SyntaxError_message (Some path) file s
             = set_errorMessage message s).
  { destruct path as [ | c p ]; [ now eexists | ].
    eexists. apply displayJSON_rejected.
    destruct (includes fileExtensions (pop (split 46%N (c :: p)))) eqn:E;
      [ | reflexivity ].
    apply includes_fileExtensions in E.
    rewrite pop_split_after_last_dot in E. tauto. }
  split; [ exact E | ]. destruct E as (message & E).
  assert (Hraw : rawJsonInput (step_ (Opened (Some path) file) s) = rawJsonInput s).
  { rewrite step_rawJsonInput. cbn [handler]. unfold openFile. now rewrite E. }
  split; [ exact Hraw | ].
  rewrite step_displayData, Hraw. now rewrite jsstring_eqb_refl.
Qed.

(** *** C9: the diagnostic after an operation that succeeded *)

(** C9, amended. The diagnostic is empty after initialization, after the
    watcher has seen a text that parses, and after format, minify, a tree
    edit that changes the text, and a file open whose content parses (the
    numbers of the value being written as number tokens); a tree edit that
    leaves the text as it was leaves the diagnostic as it was; a save that
    succeeds leaves [File saved successfully!] in it. *)
Theorem errorMessage_after_success :
  errorMessage (initial SyntaxError_message) = []
  /\ (forall T v s, parse T = inl v -> errorMessage (onTextChanged T s) = [])
  /\ (forall s v e,
         parse (rawJsonInput s) = inl v -> prints shortest_decimal v ->
         In e [ClickFormat; ClickMinify; ClickToggle] ->
         errorMessage (step_ e s) = [])
  /\ (forall v s,
         prints shortest_decimal v ->
         rawJsonInput (handleEdit shortest_decimal v s) <> rawJsonInput s ->
         errorMessage (step_ (TreeEdited v) s) = [])
  /\ (forall v s,
         rawJsonInput (handleEdit shortest_decimal v s) = rawJsonInput s ->
         errorMessage (step_ (TreeEdited v) s) = errorMessage s)
  /\ (forall path lines s v,
         path <> [] ->
         includes fileExtensions (pop (split 46%N path)) = true ->
         parse (trim (file_text lines)) = inl v -> prints shortest_decimal v ->
         errorMessage (step_ (Opened (Some path) (ReadLines lines)) s) = [])
  /\ (forall path s,
         path <> [] ->
         errorMessage (step_ (Saved (SavePath path) None) s)
         = str "File saved successfully!").
Proof.
  split; [ reflexivity | ].
  split; [ intros T v s H; unfold handleRawJsonInputChange; now rewrite H | ].
  split; [ | split; [ | split; [ | split ] ] ].
  - intros s v e H Hv He. unfold step.
    destruct He as [ <- | [ <- | [ <- | [] ] ] ]; cbn [handler].
    + apply flush_after_stringify with (v := v) (space := 2);
        [ exact Hv | | ]; unfold formatJson; now rewrite H.
    + apply flush_after_stringify with (v := v) (space := 0);
        [ exact Hv | | ]; unfold minifyJson; now rewrite H.
    + unfold toggleFormatMinify, _toggleFormat.
      cbn [rawJsonInput isFormatMode set_isFormatMode]. rewrite H.
      destruct (isFormatMode s); cbn [negb].
      * apply flush_after_stringify with (v := v) (space := 2); trivial.
      * apply flush_after_stringify with (v := v) (space := 0); trivial.
  - intros v s Hv Hchanged. unfold step, flush. cbn [handler].
    destruct (jsstring_eqb _ _) eqn:E.
    + apply jsstring_eqb_eq in E. now symmetry in E.
    + unfold handleRawJsonInputChange, handleEdit, JSON_parse.
      cbn [rawJsonInput set_rawJsonInput].
      now rewrite parse_text_stringify.
  - intros v s Hsame. unfold step, flush. cbn [handler].
    now rewrite <- Hsame, jsstring_eqb_refl.
  - intros path lines s v Hpath Hext H Hv. unfold step. cbn [handler].
    destruct path as [ | c p ]; [ contradiction | ].
    unfold openFile. rewrite displayJSON_supported by exact Hext.
    unfold _toggleFormat. cbn [rawJsonInput isFormatMode set_rawJsonInput].
    rewrite H. destruct (isFormatMode s); cbn [negb].
    + apply flush_after_stringify with (v := v) (space := 0); trivial.
    + apply flush_after_stringify with (v := v) (space := 2); trivial.
  - intros path s Hpath. destruct path as [ | c p ]; [ contradiction | ].
    unfold step, flush. cbn [handler saveFile fst rawJsonInput set_defaultPath set_errorMessage].
    now rewrite jsstring_eqb_refl.
Qed.

End Rule.

(** * The rest of the script: files, modes and the view *)

(** ** What [JSON.parse] consumes *)

Lemma is_ws_trim_space (c : codeunit) : is_ws c = true -> is_trim_space c = true.
Proof.
  unfold is_ws. intros H.
  repeat (apply orb_true_iff in H; destruct H as [H | H]);
    apply N.eqb_eq in H; subst c; reflexivity.
Qed.

Lemma skip_ws_split (s : jsstring) :
  exists w, all_ws w /\ s = w ++ skip_ws s.
Proof.
  induction s as [ | c t (w & Hw & E) ];
    [ exists []; split; [ constructor | reflexivity ] | ].
  cbn [skip_ws]. destruct (is_ws c) eqn:Ec.
  - exists (c :: w). split; [ now constructor | ]. cbn [app]. now rewrite <- E.
  - exists []. split; [ constructor | reflexivity ].
Qed.

Lemma skip_ws_head (s : jsstring) (c : codeunit) (t : jsstring) :
  skip_ws s = c :: t -> is_ws c = false.
Proof.
  induction s as [ | d s IH ]; [ discriminate | ].
  cbn [skip_ws]. destruct (is_ws d) eqn:Ed; [ exact IH | ].
  now intros [= <- <-].
Qed.

Lemma skip_ws_nil_all_ws (s : jsstring) : skip_ws s = [] -> all_ws s.
Proof.
  intros H. destruct (skip_ws_split s) as (w & Hw & E).
  rewrite H, app_nil_r in E. now subst s.
Qed.

Lemma all_ws_text_units (w : jsstring) :
  all_ws w -> forallb text_unit w = true.
Proof.
  intros H. apply forallb_forall. intros c Hc.
  unfold all_ws in H. rewrite Forall_forall in H.
  unfold text_unit. now rewrite (H c Hc).
Qed.

Lemma strip_prefix_app (p s r : jsstring) :
  strip_prefix p s = Some r -> s = p ++ r.
Proof.
  revert s. induction p as [ | x p IH ]; intros [ | y s ] H;
    cbn [strip_prefix] in H; try discriminate; try (now injection H as <-).
  destruct (N.eqb_spec x y) as [ -> | _ ]; [ | discriminate ].
  cbn [app]. now rewrite <- (IH _ H).
Qed.

Lemma strip_prefix_self (p r : jsstring) : strip_prefix p (p ++ r) = Some r.
Proof.
  induction p as [ | x p IH ]; [ now destruct r | ].
  cbn [app strip_prefix]. now rewrite N.eqb_refl.
Qed.

(** *** String literals *)

Lemma hex_value_text_unit (c : codeunit) (n : N) :
  hex_value c = Some n -> text_unit c = true.
Proof.
  unfold hex_value, is_digit, text_unit. intros H.
  destruct (N.leb 48 c && N.leb c 57) eqn:E1.
  - apply andb_true_iff in E1. destruct E1 as [E1 _]. apply N.leb_le in E1.
    replace (N.leb 32 c) with true by (symmetry; apply N.leb_le; lia).
    apply orb_true_r.
  - destruct (N.leb 97 c && N.leb c 102) eqn:E2.
    + apply andb_true_iff in E2. destruct E2 as [E2 _]. apply N.leb_le in E2.
      replace (N.leb 32 c) with true by (symmetry; apply N.leb_le; lia).
      apply orb_true_r.
    + destruct (N.leb 65 c && N.leb c 70) eqn:E3; [ | discriminate ].
      apply andb_true_iff in E3. destruct E3 as [E3 _]. apply N.leb_le in E3.
      replace (N.leb 32 c) with true by (symmetry; apply N.leb_le; lia).
      apply orb_true_r.
Qed.

Lemma hex4_text_units (a b c d u : codeunit) :
  hex4 a b c d = Some u -> forallb text_unit [a; b; c; d] = true.
Proof.
  unfold hex4. intros H.
  destruct (hex_value a) eqn:Ea; [ | discriminate ].
  destruct (hex_value b) eqn:Eb; [ | discriminate ].
  destruct (hex_value c) eqn:Ec; [ | discriminate ].
  destruct (hex_value d) eqn:Ed; [ | discriminate ].
  cbn [forallb].
  now rewrite (hex_value_text_unit _ _ Ea), (hex_value_text_unit _ _ Eb),
    (hex_value_text_unit _ _ Ec), (hex_value_text_unit _ _ Ed).
Qed.

Lemma simple_escape_text_unit (e u : codeunit) :
  simple_escape e = Some u -> text_unit e = true.
Proof.
  unfold simple_escape. intros H.
  repeat match type of H with
         | (if N.eqb e ?k then _ else _) = _ =>
             destruct (N.eqb_spec e k) as [ -> | _ ]; [ reflexivity | ]
         end.
  discriminate.
Qed.

(** A string literal that [parse_chars] accepts ends at a quotation mark,
    holds no control character, and reads the same whatever follows it. *)
Lemma parse_chars_consumes (n : nat) :
  forall s x r, List.length s <= n -> parse_chars s = Some (x, r) ->
    exists b, s = b ++ QUOTE :: r /\ forallb text_unit b = true
      /\ forall r', parse_chars (b ++ QUOTE :: r') = Some (x, r').
Proof.
  induction n as [ | n IH ]; intros [ | c t ] x r Hn H;
    cbn [parse_chars] in H; try discriminate; cbn [List.length] in Hn; try lia.
  destruct (N.eqb_spec c 34) as [ -> | Hq ].
  - injection H as <- <-. exists []. repeat split. 
  - destruct (N.eqb_spec c 92) as [ -> | Hb ].
    + destruct t as [ | e t' ]; [ discriminate | ].
      destruct (N.eqb_spec e 117) as [ -> | Hu ].
      * destruct t' as [ | h1 [ | h2 [ | h3 [ | h4 t'' ] ] ] ]; try discriminate.
        destruct (hex4 h1 h2 h3 h4) as [ u | ] eqn:Eh; [ | discriminate ].
        destruct (parse_chars t'') as [ [x0 r0] | ] eqn:Ep; [ | discriminate ].
        injection H as <- <-.
        destruct (IH t'' x0 r0) as (b & -> & Hb' & Hread);
          [ cbn [List.length] in Hn; lia | exact Ep | ].
        exists (92 :: 117 :: h1 :: h2 :: h3 :: h4 :: b)%N.
        split; [ reflexivity | ]. split.
        -- pose proof (hex4_text_units _ _ _ _ _ Eh) as Ht.
           cbn [forallb] in Ht |- *. rewrite andb_true_r in Ht.
           change (text_unit 92%N) with true. change (text_unit 117%N) with true.
           cbn [andb].
           repeat (apply andb_true_iff in Ht; destruct Ht as [?H Ht]).
           now rewrite H, H0, H1, Ht, Hb'.
        -- intros r'. cbn [app parse_chars N.eqb Pos.eqb]. now rewrite Eh, Hread.
      * destruct (simple_escape e) as [ u | ] eqn:Ee; [ | discriminate ].
        destruct (parse_chars t') as [ [x0 r0] | ] eqn:Ep; [ | discriminate ].
        injection H as <- <-.
        destruct (IH t' x0 r0) as (b & -> & Hb' & Hread);
          [ cbn [List.length] in Hn; lia | exact Ep | ].
        exists (92%N :: e :: b).
        split; [ reflexivity | ]. split.
        -- cbn [forallb]. change (text_unit 92%N) with true.
           now rewrite (simple_escape_text_unit _ _ Ee), Hb'.
        -- intros r'. cbn [app parse_chars N.eqb Pos.eqb].
           apply N.eqb_neq in Hu. now rewrite Hu, Ee, Hread.
    + destruct (N.ltb c 32) eqn:Elt; [ discriminate | ].
      destruct (parse_chars t) as [ [x0 r0] | ] eqn:Ep; [ | discriminate ].
      injection H as <- <-.
      destruct (IH t x0 r0) as (b & -> & Hb' & Hread); [ lia | exact Ep | ].
      exists (c :: b). split; [ reflexivity | ]. split.
      * cbn [forallb]. unfold text_unit at 1.
        apply N.ltb_ge in Elt.
        replace (N.leb 32 c) with true by (symmetry; now apply N.leb_le).
        now rewrite orb_true_r, Hb'.
      * intros r'. cbn [app parse_chars].
        apply N.eqb_neq in Hq. apply N.eqb_neq in Hb.
        now rewrite Hq, Hb, Elt, Hread.
Qed.

(** *** Number tokens *)

Lemma digit_bounds (c : codeunit) : is_digit c = true -> (48 <= c <= 57)%N.
Proof.
  unfold is_digit. intros H. apply andb_true_iff in H. destruct H as [H1 H2].
  apply N.leb_le in H1. apply N.leb_le in H2. lia.
Qed.

Lemma digit_token_unit (c : codeunit) : is_digit c = true -> token_unit c = true.
Proof.
  intros H. apply digit_bounds in H. unfold token_unit.
  apply N.leb_le. lia.
Qed.

Lemma digits_token_units (ds : jsstring) :
  forallb is_digit ds = true -> forallb token_unit ds = true.
Proof.
  rewrite !forallb_forall. intros H c Hc. apply digit_token_unit. now apply H.
Qed.

Lemma digit_solid (c : codeunit) : is_digit c = true -> is_trim_space c = false.
Proof.
  intros H. apply digit_bounds in H. unfold is_trim_space.
  assert (E : forall k, (k < 48 \/ 57 < k)%N -> N.eqb c k = false)
    by (intros k Hk; apply N.eqb_neq; lia).
  rewrite !E by lia.
  replace (N.leb c 13) with false by (symmetry; apply N.leb_gt; lia).
  replace (N.leb 8192 c) with false by (symmetry; apply N.leb_gt; lia).
  now rewrite andb_false_r.
Qed.

Lemma e_token_unit (c : codeunit) : is_e c = true -> token_unit c = true.
Proof.
  unfold is_e. intros H. apply orb_true_iff in H.
  destruct H as [H | H]; apply N.eqb_eq in H; now subst c.
Qed.

Lemma e_no_digit (c : codeunit) : is_e c = true -> is_digit c = false.
Proof.
  unfold is_e. intros H. apply orb_true_iff in H.
  destruct H as [H | H]; apply N.eqb_eq in H; now subst c.
Qed.

Lemma token_units_text_units (l : jsstring) :
  forallb token_unit l = true -> forallb text_unit l = true.
Proof.
  rewrite !forallb_forall. intros H c Hc. specialize (H c Hc).
  unfold token_unit in H. apply N.leb_le in H. unfold text_unit.
  replace (N.leb 32 c) with true by (symmetry; apply N.leb_le; lia).
  apply orb_true_r.
Qed.

Lemma ends_solid_digits (ds : jsstring) :
  forallb is_digit ds = true -> ds <> [] -> ends_solid ds.
Proof.
  intros Hd Hne. destruct (exists_last Hne) as (y & d & ->).
  exists y, d. split; [ reflexivity | ].
  apply digit_solid. rewrite forallb_app in Hd. apply andb_true_iff in Hd.
  destruct Hd as [_ Hd]. cbn [forallb] in Hd. now rewrite andb_true_r in Hd.
Qed.

Lemma ends_solid_app (a b : jsstring) : ends_solid b -> ends_solid (a ++ b).
Proof.
  intros (y & d & -> & Hd). exists (a ++ y), d. now rewrite app_assoc.
Qed.

Lemma ends_solid_cons (c : codeunit) (b : jsstring) :
  ends_solid b -> ends_solid (c :: b).
Proof. apply (ends_solid_app [c]). Qed.

Lemma ends_solid_app_or (a x : jsstring) :
  ends_solid a -> x = [] \/ ends_solid x -> ends_solid (a ++ x).
Proof.
  intros Ha [ -> | Hx ]; [ now rewrite app_nil_r | now apply ends_solid_app ].
Qed.

Lemma span_digits_split (s ds r : jsstring) :
  span_digits s = (ds, r) ->
  s = ds ++ r /\ forallb is_digit ds = true /\ no_digit_head r.
Proof.
  revert ds r. induction s as [ | c t IH ]; intros ds r H; cbn [span_digits] in H.
  - injection H as <- <-. now repeat split.
  - destruct (is_digit c) eqn:Ec.
    + destruct (span_digits t) as [ds' r'] eqn:Et. injection H as <- <-.
      destruct (IH ds' r' eq_refl) as (-> & Hd & Hr).
      cbn [forallb]. now rewrite Ec, Hd.
    + injection H as <- <-. now repeat split.
Qed.

Lemma span_digits_prefix (ds x : jsstring) :
  forallb is_digit ds = true -> no_digit_head x ->
  span_digits (ds ++ x) = (ds, x).
Proof.
  intros Hd Hx. induction ds as [ | c t IH ].
  - destruct x as [ | c x ]; [ reflexivity | ]. cbn [app span_digits].
    cbn [no_digit_head] in Hx. now rewrite Hx.
  - cbn [forallb] in Hd. apply andb_true_iff in Hd. destruct Hd as [Hc Ht].
    cbn [app span_digits]. now rewrite Hc, (IH Ht).
Qed.

(** What [scan_exp] takes from the input: nothing, or an exponent, which
    starts with [e] and ends with a digit. *)
Lemma scan_exp_split (acc s tok r : jsstring) :
  scan_exp acc s = Some (tok, r) ->
  exists x, tok = acc ++ x /\ s = x ++ r
    /\ scan_exp acc x = Some (tok, [])
    /\ forallb token_unit x = true
    /\ no_digit_head x
    /\ (forall c t, x = c :: t -> N.eqb c 46 = false)
    /\ (x = [] \/ ends_solid x).
Proof.
  unfold scan_exp. intros H.
  destruct s as [ | c t ].
  { injection H as <- <-. exists []. rewrite app_nil_r.
    repeat split; try discriminate. now left. }
  destruct (is_e c) eqn:Ec.
  2:{ injection H as <- <-. exists []. rewrite app_nil_r.
      repeat split; try discriminate. now left. }
  assert (Hdot : N.eqb c 46 = false).
  { unfold is_e in Ec. apply orb_true_iff in Ec.
    destruct Ec as [Ec | Ec]; apply N.eqb_eq in Ec; now subst c. }
  destruct t as [ | d t' ].
  { discriminate. }
  destruct (N.eqb d 45 || N.eqb d 43) eqn:Ed.
  - destruct (span_digits t') as [ds r0] eqn:Es.
    destruct ds as [ | x0 ds ]; [ discriminate | ]. injection H as <- <-.
    destruct (span_digits_split _ _ _ Es) as (-> & Hd & Hr).
    exists (c :: d :: x0 :: ds). repeat split.
    + rewrite Ec, Ed.
      rewrite (span_digits_all (x0 :: ds) Hd). reflexivity.
    + cbn [forallb]. rewrite (e_token_unit c Ec).
      replace (token_unit d) with true
        by (apply orb_true_iff in Ed; destruct Ed as [Ed | Ed];
            apply N.eqb_eq in Ed; now subst d).
      cbn [andb]. apply (digits_token_units (x0 :: ds) Hd).
    + now apply e_no_digit.
    + now intros c0 t0 [= <- _].
    + right. apply ends_solid_cons, ends_solid_cons.
      apply ends_solid_digits; [ exact Hd | discriminate ].
  - destruct (span_digits (d :: t')) as [ds r0] eqn:Es.
    destruct ds as [ | x0 ds ]; [ discriminate | ]. injection H as <- <-.
    destruct (span_digits_split _ _ _ Es) as (E & Hd & Hr).
    cbn [app] in E. injection E as <- ->.
    exists (c :: d :: ds). repeat split.
    + rewrite Ec, Ed.
      rewrite (span_digits_all (d :: ds) Hd). reflexivity.
    + cbn [forallb]. rewrite (e_token_unit c Ec). cbn [andb].
      apply (digits_token_units (d :: ds) Hd).
    + now apply e_no_digit.
    + now intros c0 t0 [= <- _].
    + right. apply ends_solid_cons.
      apply ends_solid_digits; [ exact Hd | discriminate ].
Qed.

Lemma scan_frac_split (acc s tok r : jsstring) :
  scan_frac acc s = Some (tok, r) ->
  exists x, tok = acc ++ x /\ s = x ++ r
    /\ scan_frac acc x = Some (tok, [])
    /\ forallb token_unit x = true
    /\ no_digit_head x
    /\ (x = [] \/ ends_solid x).
Proof.
  unfold scan_frac. intros H.
  destruct s as [ | c t ].
  { destruct (scan_exp_split _ _ _ _ H) as (x & Ht & Hs & Hx & Hu & Hh & _ & He).
    destruct x; [ | discriminate ]. exists []. repeat split; trivial. }
  destruct (N.eqb c 46) eqn:Ec.
  - destruct (span_digits t) as [ds r0] eqn:Es.
    destruct ds as [ | x0 ds ]; [ discriminate | ].
    destruct (span_digits_split _ _ _ Es) as (-> & Hd & Hr).
    destruct (scan_exp_split _ _ _ _ H) as (x & Ht & -> & Hx & Hu & Hh & _ & He).
    exists (c :: (x0 :: ds) ++ x). repeat split.
    + rewrite Ht. rewrite <- app_assoc. reflexivity.
    + cbn [app]. now rewrite <- app_assoc.
    + rewrite Ec. rewrite (span_digits_prefix (x0 :: ds) x Hd Hh).
      exact Hx.
    + cbn [forallb]. apply N.eqb_eq in Ec. subst c.
      change (token_unit 46%N) with true. cbn [andb].
      change (forallb token_unit ((x0 :: ds) ++ x) = true).
      rewrite forallb_app, Hu, (digits_token_units _ Hd). reflexivity.
    + apply N.eqb_eq in Ec. now subst c.
    + right. apply ends_solid_cons. apply ends_solid_app_or; [ | exact He ].
      apply ends_solid_digits; [ exact Hd | discriminate ].
  - destruct (scan_exp_split _ _ _ _ H) as (x & Ht & Hs & Hx & Hu & Hh & Hdot & He).
    exists x. repeat split; trivial.
    destruct x as [ | c0 t0 ]; [ exact Hx | ].
    now rewrite (Hdot c0 t0 eq_refl).
Qed.

Lemma scan_int_split (sg l tok r : jsstring) :
  match l with
  | c :: t =>
      if N.eqb c 48 then scan_frac (sg ++ [c]) t
      else if is_digit c then
        let (ds, r) := span_digits t in scan_frac (sg ++ c :: ds) r
      else None
  | [] => None
  end = Some (tok, r) ->
  exists x, tok = sg ++ x /\ l = x ++ r
    /\ match x with
       | c :: t =>
           if N.eqb c 48 then scan_frac (sg ++ [c]) t
           else if is_digit c then
             let (ds, r) := span_digits t in scan_frac (sg ++ c :: ds) r
           else None
       | [] => None
       end = Some (tok, [])
    /\ forallb token_unit x = true
    /\ ends_solid x
    /\ exists c t, x = c :: t /\ is_digit c = true.
Proof.
  destruct l as [ | c t ]; [ discriminate | ]. intros H.
  destruct (N.eqb c 48) eqn:E0.
  - destruct (scan_frac_split _ _ _ _ H) as (x & Ht & -> & Hx & Hu & Hh & He).
    apply N.eqb_eq in E0. subst c.
    exists (48%N :: x). repeat split.
    + rewrite Ht, <- app_assoc. reflexivity.
    + exact Hx.
    + cbn [forallb]. now rewrite Hu.
    + apply (ends_solid_app_or [48%N] x); [ | exact He ].
      now exists [], 48%N.
    + now exists 48%N, x.
  - destruct (is_digit c) eqn:Ec; [ | discriminate ].
    destruct (span_digits t) as [ds r0] eqn:Es.
    destruct (span_digits_split _ _ _ Es) as (-> & Hd & Hr).
    destruct (scan_frac_split _ _ _ _ H) as (x & Ht & -> & Hx & Hu & Hh & He).
    exists (c :: ds ++ x). repeat split.
    + rewrite Ht. rewrite <- app_assoc. reflexivity.
    + cbn [app]. now rewrite <- app_assoc.
    + rewrite E0, Ec. rewrite (span_digits_prefix ds x Hd Hh). exact Hx.
    + cbn [forallb]. rewrite (digit_token_unit c Ec), forallb_app, Hu,
        (digits_token_units _ Hd). reflexivity.
    + change (ends_solid ((c :: ds) ++ x)). apply ends_solid_app_or; [ | exact He ].
      apply ends_solid_digits; [ | discriminate ].
      cbn [forallb]. now rewrite Ec, Hd.
    + now exists c, (ds ++ x).
Qed.

(** A number token that [scan_number] finds at the front of a text is a
    number token by itself, and ends with a digit. *)
Lemma scan_number_split (s tok r : jsstring) :
  scan_number s = Some (tok, r) ->
  s = tok ++ r /\ number_literal tok
  /\ forallb token_unit tok = true /\ ends_solid tok.
Proof.
  unfold number_literal, scan_number. intros H.
  destruct s as [ | c t ]; [ discriminate | ].
  destruct (N.eqb c 45) eqn:Ec.
  - destruct (scan_int_split _ _ _ _ H) as (x & -> & -> & Hx & Hu & He & _).
    cbn [app]. rewrite Ec. repeat split; trivial.
    + cbn [forallb]. apply N.eqb_eq in Ec. subst c. now rewrite Hu.
    + now apply ends_solid_cons.
  - destruct (scan_int_split [] (c :: t) _ _ H)
      as (x & -> & E & Hx & Hu & He & (c0 & t0 & -> & Hc0)).
    cbn [app] in E |- *. injection E as <- ->. rewrite Ec.
    repeat split; trivial.
Qed.

(** *** Values *)

Lemma ends_solid_nonempty (b : jsstring) : ends_solid b -> b <> [].
Proof. intros (y & d & -> & _). now destruct y. Qed.

Lemma skip_ws_decompose (s : jsstring) (d : codeunit) (r : jsstring) :
  skip_ws s = d :: r ->
  exists w, all_ws w /\ s = w ++ d :: r /\ is_ws d = false.
Proof.
  intros H. destruct (skip_ws_split s) as (w & Hw & E). rewrite H in E.
  exists w. repeat split; trivial. exact (skip_ws_head _ _ _ H).
Qed.

Lemma skip_ws_over (w : jsstring) (d : codeunit) (r : jsstring) :
  all_ws w -> is_ws d = false -> skip_ws (w ++ d :: r) = d :: r.
Proof. intros Hw Hd. rewrite skip_ws_app by exact Hw. now apply skip_ws_start. Qed.

Lemma text_units_app3 (a b : jsstring) (c : codeunit) :
  forallb text_unit a = true -> text_unit c = true -> forallb text_unit b = true ->
  forallb text_unit (a ++ c :: b) = true.
Proof.
  intros Ha Hc Hb. rewrite forallb_app. cbn [forallb]. now rewrite Ha, Hc, Hb.
Qed.

(** A parse that succeeds reads a stretch of the text that holds no control
    character other than white space and ends with a character that is not
    white space, and it reads that stretch the same whatever follows it,
    provided that what follows could not continue a number. *)
Lemma parse_consumes (fuel : nat) :
  (forall s v r, parse_value fuel s = Some (v, r) ->
     exists b, s = b ++ r /\ forallb text_unit b = true /\ ends_solid b
       /\ forall r', number_end r' = true ->
            parse_value fuel (b ++ r') = Some (v, r'))
  /\ (forall s acc v r, parse_elements fuel s acc = Some (v, r) ->
        exists b, s = b ++ r /\ forallb text_unit b = true /\ ends_solid b
          /\ forall r', parse_elements fuel (b ++ r') acc = Some (v, r'))
  /\ (forall s obj v r, parse_members fuel s obj = Some (v, r) ->
        exists b, s = b ++ r /\ forallb text_unit b = true /\ ends_solid b
          /\ forall r', parse_members fuel (b ++ r') obj = Some (v, r')).
Proof.
  induction fuel as [ | f (IHv & IHe & IHm) ]; [ repeat split; discriminate | ].
  repeat split.
  - intros s v r H. cbn [parse_value] in H.
    destruct s as [ | c t ]; [ discriminate | ].
    destruct (N.eqb c 110) eqn:En.
    { apply N.eqb_eq in En. subst c.
      destruct (strip_prefix (str "ull") t) as [ r0 | ] eqn:Ep; [ | discriminate ].
      injection H as <- <-. apply strip_prefix_app in Ep. subst t.
      exists (str "null"). split; [ reflexivity | split; [ reflexivity | split ] ].
      - now exists (str "nul"), 108%N.
      - intros r' _. change (str "null" ++ r') with (110%N :: str "ull" ++ r').
        cbn [parse_value N.eqb Pos.eqb]. now rewrite strip_prefix_self. }
    destruct (N.eqb c 116) eqn:Et.
    { apply N.eqb_eq in Et. subst c.
      destruct (strip_prefix (str "rue") t) as [ r0 | ] eqn:Ep; [ | discriminate ].
      injection H as <- <-. apply strip_prefix_app in Ep. subst t.
      exists (str "true"). split; [ reflexivity | split; [ reflexivity | split ] ].
      - now exists (str "tru"), 101%N.
      - intros r' _. change (str "true" ++ r') with (116%N :: str "rue" ++ r').
        cbn [parse_value N.eqb Pos.eqb]. now rewrite strip_prefix_self. }
    destruct (N.eqb c 102) eqn:Ef.
    { apply N.eqb_eq in Ef. subst c.
      destruct (strip_prefix (str "alse") t) as [ r0 | ] eqn:Ep; [ | discriminate ].
      injection H as <- <-. apply strip_prefix_app in Ep. subst t.
      exists (str "false"). split; [ reflexivity | split; [ reflexivity | split ] ].
      - now exists (str "fals"), 101%N.
      - intros r' _. change (str "false" ++ r') with (102%N :: str "alse" ++ r').
        cbn [parse_value N.eqb Pos.eqb]. now rewrite strip_prefix_self. }
    destruct (N.eqb c 34) eqn:Eq.
    { apply N.eqb_eq in Eq. subst c.
      destruct (parse_chars t) as [ [x r0] | ] eqn:Ep; [ | discriminate ].
      injection H as <- <-.
      destruct (parse_chars_consumes _ t x r0 (le_n _) Ep) as (b & -> & Hb & Hread).
      exists (34%N :: b ++ [QUOTE]). split; [ | split; [ | split ] ].
      - cbn [app]. now rewrite <- app_assoc.
      - cbn [forallb]. rewrite forallb_app, Hb. reflexivity.
      - now exists (34%N :: b), QUOTE.
      - intros r' _. cbn [app]. rewrite <- app_assoc. cbn [app].
        cbn [parse_value N.eqb Pos.eqb]. now rewrite Hread. }
    destruct (N.eqb c 91) eqn:Ea.
    { apply N.eqb_eq in Ea. subst c.
      destruct (skip_ws t) as [ | d r1 ] eqn:Es; [ discriminate | ].
      destruct (skip_ws_decompose _ _ _ Es) as (w & Hw & -> & Hd).
      destruct (N.eqb d 93) eqn:Ed.
      - injection H as <- <-. apply N.eqb_eq in Ed. subst d.
        exists (91%N :: w ++ [93%N]). split; [ | split; [ | split ] ].
        + cbn [app]. now rewrite <- app_assoc.
        + cbn [forallb]. rewrite forallb_app, (all_ws_text_units w Hw). reflexivity.
        + now exists (91%N :: w), 93%N.
        + intros r' _. cbn [app]. rewrite <- app_assoc. cbn [app].
          cbn [parse_value N.eqb Pos.eqb]. now rewrite skip_ws_over.
      - destruct (IHe _ _ _ _ H) as (b & E & Hb & He & Hread).
        destruct b as [ | d0 b ]; [ now apply ends_solid_nonempty in He | ].
        cbn [app] in E. injection E as <- ->.
        exists (91%N :: w ++ d :: b). split; [ | split; [ | split ] ].
        + cbn [app]. now rewrite <- app_assoc.
        + cbn [forallb]. rewrite forallb_app, (all_ws_text_units w Hw), Hb.
          reflexivity.
        + apply ends_solid_cons, ends_solid_app, He.
        + intros r' _. cbn [app]. rewrite <- app_assoc. cbn [app].
          cbn [parse_value N.eqb Pos.eqb]. rewrite skip_ws_over by trivial.
          rewrite Ed. apply (Hread r'). }
    destruct (N.eqb c 123) eqn:Eo.
    { apply N.eqb_eq in Eo. subst c.
      destruct (skip_ws t) as [ | d r1 ] eqn:Es; [ discriminate | ].
      destruct (skip_ws_decompose _ _ _ Es) as (w & Hw & -> & Hd).
      destruct (N.eqb d 125) eqn:Ed.
      - injection H as <- <-. apply N.eqb_eq in Ed. subst d.
        exists (123%N :: w ++ [125%N]). split; [ | split; [ | split ] ].
        + cbn [app]. now rewrite <- app_assoc.
        + cbn [forallb]. rewrite forallb_app, (all_ws_text_units w Hw). reflexivity.
        + now exists (123%N :: w), 125%N.
        + intros r' _. cbn [app]. rewrite <- app_assoc. cbn [app].
          cbn [parse_value N.eqb Pos.eqb]. now rewrite skip_ws_over.
      - destruct (IHm _ _ _ _ H) as (b & E & Hb & He & Hread).
        destruct b as [ | d0 b ]; [ now apply ends_solid_nonempty in He | ].
        cbn [app] in E. injection E as <- ->.
        exists (123%N :: w ++ d :: b). split; [ | split; [ | split ] ].
        + cbn [app]. now rewrite <- app_assoc.
        + cbn [forallb]. rewrite forallb_app, (all_ws_text_units w Hw), Hb.
          reflexivity.
        + apply ends_solid_cons, ends_solid_app, He.
        + intros r' _. cbn [app]. rewrite <- app_assoc. cbn [app].
          cbn [parse_value N.eqb Pos.eqb]. rewrite skip_ws_over by trivial.
          rewrite Ed. apply (Hread r'). }
    destruct (scan_number (c :: t)) as [ [tok r0] | ] eqn:Ek; [ | discriminate ].
    injection H as <- <-.
    destruct (scan_number_split _ _ _ Ek) as (E & Hlit & Hu & He).
    exists tok.
    split; [ exact E | ].
    split; [ now apply token_units_text_units | split; [ exact He | ] ].
    intros r' Hr'.
    destruct tok as [ | c0 tok ]; [ now apply ends_solid_nonempty in He | ].
    cbn [app] in E. injection E as <- _.
    pose proof (scan_number_app (c :: tok) r' (c :: tok) Hlit Hr') as Hscan.
    cbn [app] in Hscan |- *. cbn [parse_value].
    now rewrite En, Et, Ef, Eq, Ea, Eo, Hscan.
  - intros s acc v r H. rewrite parse_elements_S in H.
    destruct (parse_value f s) as [ [v0 r1] | ] eqn:Ev; [ | discriminate ].
    destruct (IHv _ _ _ Ev) as (b1 & -> & Hb1 & He1 & Hread1).
    destruct (skip_ws r1) as [ | d r2 ] eqn:Es; [ discriminate | ].
    destruct (skip_ws_decompose _ _ _ Es) as (w & Hw & -> & Hd).
    destruct (N.eqb d 44) eqn:Ec.
    + apply N.eqb_eq in Ec. subst d.
      destruct (IHe _ _ _ _ H) as (b2 & E2 & Hb2 & He2 & Hread2).
      destruct (skip_ws_split r2) as (w2 & Hw2 & Er2). rewrite E2 in Er2.
      destruct b2 as [ | d2 b2 ]; [ now apply ends_solid_nonempty in He2 | ].
      assert (Hd2 : is_ws d2 = false).
      { apply (skip_ws_head r2 d2 (b2 ++ r)). now rewrite E2. }
      exists (b1 ++ w ++ 44%N :: w2 ++ d2 :: b2). split; [ | split; [ | split ] ].
      * rewrite Er2. rewrite <- !app_assoc. cbn [app]. now rewrite <- !app_assoc.
      * rewrite forallb_app, Hb1. cbn [andb].
        apply text_units_app3; [ now apply all_ws_text_units | reflexivity | ].
        rewrite forallb_app, (all_ws_text_units w2 Hw2). exact Hb2.
      * apply ends_solid_app, ends_solid_app, ends_solid_cons, ends_solid_app, He2.
      * intros r'. rewrite parse_elements_S.
        rewrite <- !app_assoc. cbn [app]. rewrite <- !app_assoc. cbn [app].
        rewrite Hread1 by (apply all_ws_number_end; trivial).
        rewrite skip_ws_over by trivial. cbn [N.eqb Pos.eqb].
        rewrite skip_ws_over by trivial. apply (Hread2 r').
    + destruct (N.eqb d 93) eqn:Eb; [ | discriminate ].
      injection H as <- <-. apply N.eqb_eq in Eb. subst d.
      exists (b1 ++ w ++ [93%N]). split; [ | split; [ | split ] ].
      * now rewrite <- !app_assoc.
      * rewrite forallb_app, Hb1, forallb_app, (all_ws_text_units w Hw). reflexivity.
      * exists (b1 ++ w), 93%N. now rewrite <- app_assoc.
      * intros r'. rewrite parse_elements_S.
        rewrite <- !app_assoc. cbn [app].
        rewrite Hread1 by (apply all_ws_number_end; trivial).
        now rewrite skip_ws_over.
  - intros s obj v r H. cbn [parse_members] in H.
    destruct s as [ | q t ]; [ discriminate | ].
    destruct (N.eqb q 34) eqn:Eq; [ | discriminate ].
    apply N.eqb_eq in Eq. subst q.
    destruct (parse_chars t) as [ [k r1] | ] eqn:Ek; [ | discriminate ].
    destruct (parse_chars_consumes _ t k r1 (le_n _) Ek) as (bk & -> & Hbk & Hreadk).
    destruct (skip_ws r1) as [ | d r2 ] eqn:Es1; [ discriminate | ].
    destruct (skip_ws_decompose _ _ _ Es1) as (w1 & Hw1 & -> & Hd1).
    destruct (N.eqb d 58) eqn:Ecol; [ | discriminate ].
    apply N.eqb_eq in Ecol. subst d.
    destruct (parse_value f (skip_ws r2)) as [ [v0 r3] | ] eqn:Ev; [ | discriminate ].
    destruct (IHv _ _ _ Ev) as (bv & Ebv & Hbv & Hev & Hreadv).
    destruct (skip_ws_split r2) as (w2 & Hw2 & Er2). rewrite Ebv in Er2.
    destruct bv as [ | dv bv ]; [ now apply ends_solid_nonempty in Hev | ].
    assert (Hdv : is_ws dv = false).
    { apply (skip_ws_head r2 dv (bv ++ r3)). now rewrite Ebv. }
    destruct (skip_ws r3) as [ | d' r4 ] eqn:Es3; [ discriminate | ].
    destruct (skip_ws_decompose _ _ _ Es3) as (w3 & Hw3 & -> & Hd').
    destruct (N.eqb d' 44) eqn:Ec.
    + apply N.eqb_eq in Ec. subst d'.
      destruct (IHm _ _ _ _ H) as (b2 & E2 & Hb2 & He2 & Hread2).
      destruct (skip_ws_split r4) as (w4 & Hw4 & Er4). rewrite E2 in Er4.
      destruct b2 as [ | d2 b2 ]; [ now apply ends_solid_nonempty in He2 | ].
      assert (Hd2 : is_ws d2 = false).
      { apply (skip_ws_head r4 d2 (b2 ++ r)). now rewrite E2. }
      exists (34%N :: bk ++ QUOTE :: w1 ++ 58%N :: w2 ++ (dv :: bv)
                ++ w3 ++ 44%N :: w4 ++ d2 :: b2).
      split; [ | split; [ | split ] ].
      * rewrite Er2, Er4. cbn [app].
        repeat (rewrite <- !app_assoc; cbn [app]). reflexivity.
      * cbn [forallb]. change (text_unit 34%N) with true. cbn [andb].
        apply text_units_app3; [ exact Hbk | reflexivity | ].
        apply text_units_app3; [ now apply all_ws_text_units | reflexivity | ].
        rewrite forallb_app, (all_ws_text_units w2 Hw2). cbn [andb].
        rewrite forallb_app, Hbv. cbn [andb].
        apply text_units_app3; [ now apply all_ws_text_units | reflexivity | ].
        rewrite forallb_app, (all_ws_text_units w4 Hw4). exact Hb2.
      * apply ends_solid_cons, ends_solid_app, ends_solid_cons, ends_solid_app,
          ends_solid_cons, ends_solid_app, ends_solid_app, ends_solid_app,
          ends_solid_cons, ends_solid_app, He2.
      * intros r'. cbn [app parse_members N.eqb Pos.eqb].
        repeat (rewrite <- !app_assoc; cbn [app]).
        rewrite Hreadk. rewrite skip_ws_over by trivial. cbn [N.eqb Pos.eqb].
        rewrite skip_ws_over by trivial.
        change (dv :: bv ++ w3 ++ 44%N :: w4 ++ d2 :: b2 ++ r')
          with ((dv :: bv) ++ w3 ++ 44%N :: w4 ++ d2 :: b2 ++ r').
        rewrite Hreadv by (apply all_ws_number_end; trivial).
        rewrite skip_ws_over by trivial. cbn [N.eqb Pos.eqb].
        rewrite skip_ws_over by trivial. apply (Hread2 r').
    + destruct (N.eqb d' 125) eqn:Eb; [ | discriminate ].
      injection H as <- <-. apply N.eqb_eq in Eb. subst d'.
      exists (34%N :: bk ++ QUOTE :: w1 ++ 58%N :: w2 ++ (dv :: bv)
                ++ w3 ++ [125%N]).
      split; [ | split; [ | split ] ].
      * rewrite Er2. cbn [app].
        repeat (rewrite <- !app_assoc; cbn [app]). reflexivity.
      * cbn [forallb]. change (text_unit 34%N) with true. cbn [andb].
        apply text_units_app3; [ exact Hbk | reflexivity | ].
        apply text_units_app3; [ now apply all_ws_text_units | reflexivity | ].
        rewrite forallb_app, (all_ws_text_units w2 Hw2). cbn [andb].
        rewrite forallb_app, Hbv. cbn [andb].
        rewrite forallb_app, (all_ws_text_units w3 Hw3). reflexivity.
      * exists (34%N :: bk ++ QUOTE :: w1 ++ 58%N :: w2 ++ (dv :: bv) ++ w3), 125%N.
        split; [ | reflexivity ]. cbn [app].
        repeat (rewrite <- !app_assoc; cbn [app]). reflexivity.
      * intros r'. cbn [app parse_members N.eqb Pos.eqb].
        repeat (rewrite <- !app_assoc; cbn [app]).
        rewrite Hreadk. rewrite skip_ws_over by trivial. cbn [N.eqb Pos.eqb].
        rewrite skip_ws_over by trivial.
        change (dv :: bv ++ w3 ++ 125%N :: r')
          with ((dv :: bv) ++ w3 ++ 125%N :: r').
        rewrite Hreadv by (apply all_ws_number_end; trivial).
        rewrite skip_ws_over by trivial. reflexivity.
Qed.

(** *** Texts and [trim] *)

Lemma trimStart_spaces (w s : jsstring) :
  forallb is_trim_space w = true -> trimStart (w ++ s) = trimStart s.
Proof.
  induction w as [ | c w IH ]; [ reflexivity | ].
  cbn [forallb app trimStart]. intros H. apply andb_true_iff in H.
  destruct H as [Hc Hw]. rewrite Hc. now apply IH.
Qed.

Lemma trimStart_solid (c : codeunit) (s : jsstring) :
  is_trim_space c = false -> trimStart (c :: s) = c :: s.
Proof. intros H. cbn [trimStart]. now rewrite H. Qed.

Lemma all_ws_trim_spaces (w : jsstring) :
  all_ws w -> forallb is_trim_space w = true.
Proof.
  intros H. apply forallb_forall. intros c Hc.
  unfold all_ws in H. rewrite Forall_forall in H.
  now apply is_ws_trim_space, H.
Qed.

Lemma forallb_rev_iff (A : Type) (P : A -> bool) (l : list A) :
  forallb P (rev l) = forallb P l.
Proof.
  induction l as [ | x l IH ]; [ reflexivity | ].
  cbn [rev forallb]. rewrite forallb_app, IH. cbn [forallb].
  rewrite andb_true_r. apply andb_comm.
Qed.

(** [trim] takes the spaces off both ends of a text whose inside begins and
    ends with something else. *)
Lemma trim_inside (w1 w2 : jsstring) (c : codeunit) (b : jsstring) :
  forallb is_trim_space w1 = true -> forallb is_trim_space w2 = true ->
  is_trim_space c = false -> ends_solid (c :: b) ->
  trim (w1 ++ (c :: b) ++ w2) = c :: b.
Proof.
  intros H1 H2 Hc (y & d & E & Hd). unfold trim.
  rewrite trimStart_spaces by exact H1.
  cbn [app]. rewrite trimStart_solid by exact Hc.
  change (c :: b ++ w2) with ((c :: b) ++ w2). rewrite E.
  rewrite rev_app_distr, rev_app_distr. cbn [rev app].
  rewrite trimStart_spaces by now rewrite forallb_rev_iff.
  rewrite trimStart_solid by exact Hd.
  cbn [rev]. now rewrite rev_involutive.
Qed.

(** A value begins with a character that [trim] does not remove. *)
Lemma parse_value_head (fuel : nat) (c : codeunit) (t : jsstring) (v : JSON)
    (r : jsstring) :
  parse_value fuel (c :: t) = Some (v, r) -> is_trim_space c = false.
Proof.
  destruct fuel as [ | f ]; [ discriminate | ]. cbn [parse_value]. intros H.
  repeat match type of H with
         | (if N.eqb c ?k then _ else _) = _ =>
             destruct (N.eqb_spec c k) as [ -> | _ ]; [ reflexivity | ]
         end.
  destruct (scan_number (c :: t)) as [ [tok r0] | ] eqn:E; [ | discriminate ].
  destruct (scan_number_head _ _ _ E) as (c0 & t0 & [= <- <-] & Hc).
  apply orb_true_iff in Hc. destruct Hc as [Hc | Hc].
  - apply N.eqb_eq in Hc. now subst c.
  - now apply digit_solid.
Qed.

(** A text that is valid JSON is white space, a value, and white space;
    it holds no control character other than white space; the value begins
    and ends with characters that [trim] does not remove, and is valid JSON
    by itself. *)
Lemma parse_text_inside (T : jsstring) (v : JSON) :
  parse_text T = Some v ->
  exists w1 c b w2,
    T = w1 ++ (c :: b) ++ w2 /\ all_ws w1 /\ all_ws w2
    /\ forallb text_unit T = true
    /\ is_trim_space c = false /\ ends_solid (c :: b)
    /\ parse_text (c :: b) = Some v.
Proof.
  intros H. unfold parse_text in H.
  destruct (parse_value _ (skip_ws T)) as [ [v0 rest] | ] eqn:E; [ | discriminate ].
  destruct (skip_ws rest) eqn:Er; [ | discriminate ]. injection H as ->.
  apply skip_ws_nil_all_ws in Er.
  destruct (skip_ws_split T) as (w1 & Hw1 & ET).
  destruct (proj1 (parse_consumes _) _ _ _ E) as (b & Eb & Hb & He & Hread).
  destruct b as [ | c b ]; [ now apply ends_solid_nonempty in He | ].
  assert (Hc : is_trim_space c = false).
  { rewrite Eb in E. cbn [app] in E. exact (parse_value_head _ _ _ _ _ E). }
  assert (Hcw : is_ws c = false).
  { destruct (is_ws c) eqn:X; [ | reflexivity ].
    apply is_ws_trim_space in X. congruence. }
  exists w1, c, b, rest. rewrite Eb in ET.
  split; [ exact ET | ]. split; [ exact Hw1 | ]. split; [ exact Er | ].
  split; [ | split; [ exact Hc | split; [ exact He | ] ] ].
  - rewrite ET, !forallb_app, Hb, (all_ws_text_units _ Hw1),
      (all_ws_text_units _ Er). reflexivity.
  - apply parse_text_any_fuel. exists (S (List.length T)), [].
    split; [ | reflexivity ].
    rewrite skip_ws_start by exact Hcw.
    rewrite <- (app_nil_r (c :: b)). now apply Hread.
Qed.

(** [trim] leaves a valid JSON text valid, with the same value, also when
    the text is followed by more white space. *)
Lemma parse_text_trim_after (T w : jsstring) (v : JSON) :
  parse_text T = Some v -> forallb is_trim_space w = true ->
  parse_text (trim (T ++ w)) = Some v.
Proof.
  intros H Hw.
  destruct (parse_text_inside T v H)
    as (w1 & c & b & w2 & E & H1 & H2 & _ & Hc & He & P).
  rewrite E. rewrite <- !app_assoc.
  rewrite trim_inside; trivial; [ now apply all_ws_trim_spaces | ].
  rewrite forallb_app, Hw. now rewrite all_ws_trim_spaces.
Qed.

Lemma parse_text_trim (T : jsstring) (v : JSON) :
  parse_text T = Some v -> parse_text (trim T) = Some v.
Proof.
  intros H. rewrite <- (app_nil_r T). now apply parse_text_trim_after.
Qed.

Lemma parse_text_text_units (T : jsstring) (v : JSON) :
  parse_text T = Some v -> forallb text_unit T = true.
Proof.
  intros H.
  now destruct (parse_text_inside T v H) as (w1 & c & b & w2 & _ & _ & _ & U & _).
Qed.

(** ** The component at rest *)

Section AtRest.

Variable shortest_decimal : number -> jsstring.
Variable SyntaxError_message : jsstring -> jsstring.
Local Notation "'parse'" := (JSON_parse SyntaxError_message).
Local Notation "'stringify'" := (JSON_stringify shortest_decimal).
Local Notation "'step_'" := (step shortest_decimal SyntaxError_message).
Local Notation "'run_'" := (run shortest_decimal SyntaxError_message).
Local Notation "'handler_'" := (handler shortest_decimal SyntaxError_message).

(** Whenever the text of the buffer is valid JSON once an event is over,
    the displayed value is its parse. *)
Lemma step_keeps_displayData (e : event) (s : State) :
  (forall v, parse_text (rawJsonInput s) = Some v -> displayData s = v) ->
  forall v, parse_text (rawJsonInput (step_ e s)) = Some v ->
    displayData (step_ e s) = v.
Proof.
  intros Hs v Hv. rewrite step_displayData.
  destruct (jsstring_eqb (rawJsonInput s) (rawJsonInput (step_ e s))) eqn:E.
  - apply jsstring_eqb_eq in E. rewrite <- E in Hv. now apply Hs.
  - now rewrite Hv.
Qed.

Lemma run_app (es : list event) (e : event) (s : State) :
  run_ (es ++ [e]) s = step_ e (run_ es s).
Proof. unfold run. now rewrite fold_left_app. Qed.

Lemma run_displayData (es : list event) (v : JSON) :
  parse_text (rawJsonInput (run_ es (initial SyntaxError_message))) = Some v ->
  displayData (run_ es (initial SyntaxError_message)) = v.
Proof.
  revert v. induction es as [ | e es IH ] using rev_ind; intros v.
  - unfold run, initial, JSON_parse. cbn [fold_left rawJsonInput displayData].
    rewrite sample_parses. now intros [= <-].
  - rewrite run_app. now apply step_keeps_displayData.
Qed.

(** The integers are written as number tokens by every engine. *)
Lemma integer_prints (x : number) (z : Z) :
  integer_value x = Some z ->
  number_literal (Number_toString shortest_decimal x).
Proof.
  intros H. unfold Number_toString.
  destruct x as [ s | s | | s m e ]; try discriminate; rewrite H;
    apply (decimal_literal (Z.ltb z 0)).
Qed.

Hypothesis decimals_are_tokens :
  forall x, isFinite x = true -> integer_value x = None ->
    number_literal (shortest_decimal x).

Lemma every_value_prints (v : JSON) : prints shortest_decimal v.
Proof.
  unfold prints. apply Forall_forall. intros x _ Hfin.
  destruct (integer_value x) as [ z | ] eqn:E.
  - exact (integer_prints x z E).
  - unfold Number_toString. destruct x; try discriminate; rewrite E;
      now apply decimals_are_tokens.
Qed.

Lemma stringify_parses (v : JSON) (space : nat) :
  parse_text (stringify v space) <> None.
Proof.
  rewrite parse_text_stringify by apply every_value_prints. discriminate.
Qed.

Lemma _toggleFormat_clears (b : bool) (s : State) :
  errorMessage (_toggleFormat shortest_decimal SyntaxError_message b s) = [] ->
  parse_text
    (rawJsonInput (_toggleFormat shortest_decimal SyntaxError_message b s))
  <> None.
Proof.
  unfold _toggleFormat. destruct (parse (rawJsonInput s)) as [ v | message ].
  - intros _. cbn [rawJsonInput set_errorMessage set_rawJsonInput].
    destruct (negb b); apply stringify_parses.
  - discriminate.
Qed.

Lemma displayJSON_clears (filePath : option jsstring) (file : read_result)
    (s : State) :
  errorMessage
    (displayJSON shortest_decimal SyntaxError_message filePath file s) = [] ->
  errorMessage s = []
  \/ parse_text
       (rawJsonInput
          (displayJSON shortest_decimal SyntaxError_message filePath file s))
     <> None.
Proof.
  unfold displayJSON. destruct filePath as [ [ | c p ] | ]; try discriminate.
  cbv zeta. destruct (negb _); [ discriminate | ].
  destruct file as [ lines | ]; [ | now left ].
  intros H. right. now apply _toggleFormat_clears.
Qed.

(** A handler that leaves no diagnostic found none, or leaves a text that
    is valid JSON. *)
Lemma handler_clears (e : event) (s : State) :
  errorMessage (handler_ e s) = [] ->
  errorMessage s = [] \/ parse_text (rawJsonInput (handler_ e s)) <> None.
Proof.
  destruct e as [ text | newData | | | | filePath file | paths file | dialog write ];
    cbn [handler].
  - now left.
  - now left.
  - unfold formatJson. destruct (parse (rawJsonInput s)); [ | discriminate ].
    intros _. right. apply stringify_parses.
  - unfold minifyJson. destruct (parse (rawJsonInput s)); [ | discriminate ].
    intros _. right. apply stringify_parses.
  - unfold toggleFormatMinify. intros H. right. now apply _toggleFormat_clears.
  - apply displayJSON_clears.
  - unfold dragDrop. destruct paths as [ | path others ]; [ now left | ].
    intros H. apply displayJSON_clears in H. exact H.
  - unfold saveFile. destruct dialog as [ err | | [ | c p ] | ]; try discriminate.
    destruct write; discriminate.
Qed.

Hypothesis message_not_empty : forall T, SyntaxError_message T <> [].

Lemma step_keeps_diagnostic (e : event) (s : State) :
  (errorMessage s = [] -> parse_text (rawJsonInput s) <> None) ->
  errorMessage (step_ e s) = [] -> parse_text (rawJsonInput (step_ e s)) <> None.
Proof.
  intros Hs. rewrite step_rawJsonInput. unfold step, flush.
  destruct (jsstring_eqb (rawJsonInput s) (rawJsonInput (handler_ e s))) eqn:E.
  - apply jsstring_eqb_eq in E. intros H.
    destruct (handler_clears e s H) as [ H0 | H0 ]; [ | exact H0 ].
    rewrite <- E. now apply Hs.
  - unfold handleRawJsonInputChange, JSON_parse.
    destruct (parse_text (rawJsonInput (handler_ e s))); [ discriminate | ].
    cbn [errorMessage set_errorMessage]. intros H.
    now apply message_not_empty in H.
Qed.

End AtRest.

Lemma fraction_literal (neg : bool) (n : N) (ds : jsstring) :
  forallb is_digit ds = true -> ds <> [] ->
  number_literal ((if neg then [45%N] else []) ++ uint_units (N.to_uint n)
                    ++ 46%N :: ds).
Proof.
  intros Hd Hne. unfold number_literal.
  assert (Hs : span_digits ds = (ds, [])) by now apply span_digits_all.
  destruct ds as [ | d0 ds ]; [ contradiction | ].
  destruct (to_uint_shape n) as [ -> | (c & t & -> & Hc & Hz & Ht) ].
  - unfold scan_number.
    destruct neg; cbn [app N.eqb Pos.eqb scan_frac]; rewrite Hs; reflexivity.
  - assert (H45 : N.eqb c 45 = false).
    { apply digit_bounds in Hc. apply N.eqb_neq. lia. }
    assert (Hp : span_digits (t ++ 46%N :: d0 :: ds) = (t, 46%N :: d0 :: ds))
      by now apply span_digits_prefix.
    unfold scan_number. destruct neg; cbn [app N.eqb Pos.eqb].
    + rewrite Hz, Hc, Hp. cbn [scan_frac N.eqb Pos.eqb]. rewrite Hs.
      cbn [scan_exp]. reflexivity.
    + rewrite H45, Hz, Hc, Hp. cbn [scan_frac N.eqb Pos.eqb]. rewrite Hs.
      cbn [scan_exp]. reflexivity.
Qed.

Lemma exact_decimal_literal (x : number) :
  isFinite x = true -> integer_value x = None ->
  number_literal (exact_decimal x).
Proof.
  destruct x as [ s | s | | s m e ]; try discriminate. intros _ _.
  unfold exact_decimal. destruct e as [ | k | k ];
    try apply decimal_literal.
  destruct (halve m (Pos.to_nat k)) as [m' [ | k']];
    [ apply decimal_literal | ].
  cbv zeta. apply fraction_literal.
  - rewrite forallb_app. rewrite uint_units_digits, andb_true_r.
    apply forallb_forall. intros c Hc. apply repeat_spec in Hc. now subst c.
  - match goal with
    | |- context [N.to_uint ?n] => pose proof (to_uint_shape n) as H
    end.
    destruct H as [ H | (c & t & H & _) ]; rewrite H;
      now destruct (repeat _ _).
Qed.

(** X1. After initialization and after any sequence of events, a buffer
    whose text is valid JSON is displayed as its parse; and when the
    diagnostic is empty the text of the buffer is valid JSON, so that the
    tree shows what the text says. The engine's messages are taken to be
    non-empty and its decimals to be number tokens. *)
Theorem empty_diagnostic_in_sync
    (shortest_decimal : number -> jsstring)
    (SyntaxError_message : jsstring -> jsstring) (es : list event) :
  (forall T, SyntaxError_message T <> []) ->
  (forall x, isFinite x = true -> integer_value x = None ->
     number_literal (shortest_decimal x)) ->
  let s := run shortest_decimal SyntaxError_message es
             (initial SyntaxError_message) in
  (forall v, parse_text (rawJsonInput s) = Some v -> displayData s = v)
  /\ (errorMessage s = [] -> parse_text (rawJsonInput s) = Some (displayData s)).
Proof.
  intros Hmsg Hdec s.
  assert (I1 : forall v, parse_text (rawJsonInput s) = Some v -> displayData s = v)
    by (intros v; apply run_displayData).
  split; [ exact I1 | ].
  assert (I2 : errorMessage s = [] -> parse_text (rawJsonInput s) <> None).
  { subst s. clear I1. induction es as [ | e es IH ] using rev_ind.
    - intros _. unfold run, initial. cbn [fold_left rawJsonInput].
      rewrite sample_parses. discriminate.
    - rewrite run_app. now apply step_keeps_diagnostic. }
  intros H. specialize (I2 H).
  destruct (parse_text (rawJsonInput s)) as [ v | ] eqn:E; [ | contradiction ].
  now rewrite (I1 v eq_refl).
Qed.

(** ** Files *)

(** *** The lines of a file *)

Lemma fold_left_append (A : Type) (g : A -> jsstring) (l : list A)
    (acc : jsstring) :
  fold_left (fun parsed x => parsed ++ g x) l acc
  = acc ++ fold_left (fun parsed x => parsed ++ g x) l [].
Proof.
  revert acc. induction l as [ | x l IH ]; intros acc.
  - cbn [fold_left]. now rewrite app_nil_r.
  - cbn [fold_left]. rewrite (IH (acc ++ g x)), (IH ([] ++ g x)).
    cbn [app]. now rewrite app_assoc.
Qed.

Lemma file_text_cons (l : jsstring) (lines : list jsstring) :
  file_text (l :: lines)
  = (if endsWithNul l then removelast l else l) ++ LF :: file_text lines.
Proof.
  unfold file_text. cbn [fold_left].
  rewrite (fold_left_append _
             (fun line => (if endsWithNul line then removelast line else line)
                            ++ [LF])).
  cbn [app]. now rewrite <- app_assoc.
Qed.
Lemma endsWithNul_snoc (l : jsstring) (c : codeunit) :
  endsWithNul (l ++ [c]) = N.eqb c 0.
Proof. unfold endsWithNul. now rewrite rev_app_distr. Qed.

Lemma endsWithNul_spaces (l : jsstring) :
  forallb is_trim_space l = true -> endsWithNul l = false.
Proof.
  intros H. destruct l as [ | c l ] using rev_ind; [ reflexivity | ].
  rewrite endsWithNul_snoc. rewrite forallb_app in H.
  apply andb_true_iff in H. destruct H as [_ H]. cbn [forallb] in H.
  rewrite andb_true_r in H. destruct (N.eqb_spec c 0) as [ -> | _ ];
    [ discriminate | reflexivity ].
Qed.

Lemma endsWithNul_text_units (l : jsstring) :
  forallb text_unit l = true -> endsWithNul l = false.
Proof.
  intros H. destruct l as [ | c l ] using rev_ind; [ reflexivity | ].
  rewrite endsWithNul_snoc. rewrite forallb_app in H.
  apply andb_true_iff in H. destruct H as [_ H]. cbn [forallb] in H.
  rewrite andb_true_r in H. destruct (N.eqb_spec c 0) as [ -> | _ ];
    [ discriminate | reflexivity ].
Qed.

(** A file of blank lines, or of no line at all, gives the empty text. *)
Lemma file_text_blank (lines : list jsstring) :
  Forall (fun l => forallb is_trim_space l = true) lines ->
  forallb is_trim_space (file_text lines) = true.
Proof.
  induction 1 as [ | l lines Hl _ IH ]; [ reflexivity | ].
  rewrite file_text_cons, (endsWithNul_spaces l Hl), forallb_app, Hl.
  cbn [forallb andb]. exact IH.
Qed.

Lemma trim_spaces (w : jsstring) :
  forallb is_trim_space w = true -> trim w = [].
Proof.
  intros H. unfold trim. rewrite <- (app_nil_r w) at 1.
  now rewrite trimStart_spaces.
Qed.

(** The lines of a text, each followed by a line feed, are the text
    followed by a line feed. *)
Lemma split_lines (T : jsstring) :
  Forall (fun l => forallb text_unit l = true) (split LF T)
  -> file_text (split LF T) = T ++ [LF].
Proof.
  induction T as [ | c T IH ]; [ reflexivity | ].
  cbn [split]. destruct (N.eqb_spec c LF) as [ -> | Hc ].
  - intros H. rewrite file_text_cons. cbn [endsWithNul rev app].
    apply Forall_inv_tail in H. now rewrite (IH H).
  - pose proof (split_nonempty LF T) as Hne.
    destruct (split LF T) as [ | h r ] eqn:E; [ contradiction | ].
    intros H. rewrite file_text_cons.
    rewrite (endsWithNul_text_units (c :: h)) by (now apply Forall_inv in H).
    assert (H' : Forall (fun l => forallb text_unit l = true) (h :: r)).
    { constructor; [ | now apply Forall_inv_tail in H ].
      apply Forall_inv in H. cbn [forallb] in H.
      now apply andb_true_iff in H. }
    specialize (IH H'). rewrite file_text_cons in IH.
    rewrite (endsWithNul_text_units h) in IH by (now apply Forall_inv in H').
    cbn [app]. now rewrite IH.
Qed.

Lemma split_text_units (sep : codeunit) (T : jsstring) :
  forallb text_unit T = true ->
  Forall (fun l => forallb text_unit l = true) (split sep T).
Proof.
  induction T as [ | c T IH ]; [ now repeat constructor | ].
  cbn [forallb split]. intros H. apply andb_true_iff in H.
  destruct H as [Hc HT]. specialize (IH HT).
  destruct (N.eqb c sep); [ now constructor | ].
  destruct (split sep T) as [ | h r ]; [ repeat constructor; cbn; now rewrite Hc | ].
  constructor; [ | now apply Forall_inv_tail in IH ].
  cbn [forallb]. rewrite Hc. now apply Forall_inv in IH.
Qed.

(** Written to a file and read back line by line, a text that is valid
    JSON is found again, followed by a line feed. *)
Lemma file_text_split (T : jsstring) (v : JSON) :
  parse_text T = Some v -> file_text (split LF T) = T ++ [LF].
Proof.
  intros H. apply split_lines, split_text_units.
  exact (parse_text_text_units T v H).
Qed.

Section Files.

Variable shortest_decimal : number -> jsstring.
Variable SyntaxError_message : jsstring -> jsstring.
Local Notation "'parse'" := (JSON_parse SyntaxError_message).
Local Notation "'stringify'" := (JSON_stringify shortest_decimal).
Local Notation "'step_'" := (step shortest_decimal SyntaxError_message).
Local Notation "'run_'" := (run shortest_decimal SyntaxError_message).
Local Notation "'flush_'" := (flush SyntaxError_message).
Local Notation "'_toggleFormat_'" :=
  (_toggleFormat shortest_decimal SyntaxError_message).

(** What the watcher finds after [_toggleFormat] has run on a text that is
    valid JSON. *)
Lemma flush__toggleFormat_valid (seen : jsstring) (b : bool) (s0 : State) (v : JSON) :
  parse_text (rawJsonInput s0) = Some v ->
  prints shortest_decimal v ->
  let s' := flush_ seen (_toggleFormat_ b s0) in
  rawJsonInput s' = stringify v (if b then 0 else 2)
  /\ errorMessage s' = []
  /\ isFormatMode s' = isFormatMode s0
  /\ defaultPath s' = defaultPath s0
  /\ ((forall u, parse_text seen = Some u -> displayData s0 = u) ->
      displayData s' = normalize shortest_decimal v).
Proof.
  intros Hv Hp. unfold _toggleFormat, JSON_parse. rewrite Hv.
  assert (E : (if negb b then stringify v 2 else stringify v 0)
              = stringify v (if b then 0 else 2)) by now destruct b.
  rewrite E. clear E. set (n := if b then 0 else 2).
  unfold flush. cbn [rawJsonInput set_rawJsonInput set_errorMessage].
  destruct (jsstring_eqb seen (stringify v n)) eqn:Es.
  - apply jsstring_eqb_eq in Es. cbn. repeat split.
    intros Hseen. apply Hseen. rewrite Es. now apply parse_text_stringify.
  - unfold handleRawJsonInputChange, JSON_parse.
    cbn [rawJsonInput set_rawJsonInput set_errorMessage].
    rewrite parse_text_stringify by exact Hp. now cbn.
Qed.

Lemma flush__toggleFormat_invalid (seen : jsstring) (b : bool) (s0 : State) :
  parse_text (rawJsonInput s0) = None ->
  let s' := flush_ seen (_toggleFormat_ b s0) in
  rawJsonInput s' = rawJsonInput s0
  /\ displayData s' = displayData s0
  /\ errorMessage s'
     = (if jsstring_eqb seen (rawJsonInput s0)
        then str "Invalid JSON: " ++ SyntaxError_message (rawJsonInput s0)
        else SyntaxError_message (rawJsonInput s0))
  /\ isFormatMode s' = isFormatMode s0
  /\ defaultPath s' = defaultPath s0.
Proof.
  intros Hv. unfold _toggleFormat, JSON_parse. rewrite Hv.
  unfold flush. cbn [rawJsonInput set_rawJsonInput set_errorMessage].
  destruct (jsstring_eqb seen (rawJsonInput s0)); [ now cbn | ].
  unfold handleRawJsonInputChange, JSON_parse.
  cbn [rawJsonInput set_rawJsonInput set_errorMessage]. rewrite Hv. now cbn.
Qed.

Lemma step_Opened_supported (path : jsstring) (lines : list jsstring) (s : State) :
  path <> [] ->
  includes fileExtensions (pop (split 46%N path)) = true ->
  step_ (Opened (Some path) (ReadLines lines)) s
  = flush_ (rawJsonInput s)
      (_toggleFormat_ (isFormatMode s)
         (set_rawJsonInput (trim (file_text lines)) s)).
Proof.
  intros Hp He. destruct path as [ | c p ]; [ contradiction | ].
  unfold step. cbn [handler]. unfold openFile.
  now rewrite displayJSON_supported.
Qed.

Lemma step_Dropped_supported (path : jsstring) (others : list jsstring)
    (lines : list jsstring) (s : State) :
  path <> [] ->
  includes fileExtensions (pop (split 46%N path)) = true ->
  step_ (Dropped (path :: others) (ReadLines lines)) s
  = flush_ (rawJsonInput s)
      (_toggleFormat_ (isFormatMode s)
         (set_rawJsonInput (trim (file_text lines)) (set_defaultPath path s))).
Proof.
  intros Hp He. destruct path as [ | c p ]; [ contradiction | ].
  unfold step. cbn [handler]. unfold dragDrop.
  cbn [defaultPath set_defaultPath].
  now rewrite displayJSON_supported.
Qed.

Lemma read_back_value (v : JSON) :
  canonical v = true ->
  Forall (reads_back shortest_decimal) (numbers_of v) ->
  prints shortest_decimal v /\ normalize shortest_decimal v = v.
Proof.
  intros Hc Hn. assert (Hv : representable shortest_decimal v) by now split.
  split; [ now apply representable_prints | now apply normalize_representable ].
Qed.

(** X2. A file with the extension [json] or [txt] whose lines hold valid
    JSON, opened through the dialog or dropped on the window at any moment:
    the displayed value is the value of the file (as the text written for it
    reads back), the buffer holds that value minified when the format mode
    is on and indented by two spaces when it is off, the diagnostic is
    empty and the mode is as it was. *)
Theorem open_valid_file (es : list event) (path : jsstring)
    (others lines : list jsstring) (v : JSON) :
  path <> [] ->
  includes fileExtensions (pop (split 46%N path)) = true ->
  parse_text (file_text lines) = Some v ->
  prints shortest_decimal v ->
  let s := run_ es (initial SyntaxError_message) in
  forall e,
    In e [Opened (Some path) (ReadLines lines);
          Dropped (path :: others) (ReadLines lines)] ->
    rawJsonInput (step_ e s) = stringify v (if isFormatMode s then 0 else 2)
    /\ displayData (step_ e s) = normalize shortest_decimal v
    /\ (Forall (reads_back shortest_decimal) (numbers_of v) ->
        displayData (step_ e s) = v)
    /\ errorMessage (step_ e s) = []
    /\ isFormatMode (step_ e s) = isFormatMode s.
Proof.
  intros Hpath Hext Hv Hp s e He.
  pose proof (parse_text_canonical _ _ Hv) as Hc.
  apply parse_text_trim in Hv.
  assert (Hs : forall u, parse_text (rawJsonInput s) = Some u -> displayData s = u)
    by (intros u; apply run_displayData).
  assert (R : rawJsonInput (step_ e s) = stringify v (if isFormatMode s then 0 else 2)
              /\ displayData (step_ e s) = normalize shortest_decimal v
              /\ errorMessage (step_ e s) = []
              /\ isFormatMode (step_ e s) = isFormatMode s).
  { destruct He as [ <- | [ <- | [] ] ].
    - rewrite step_Opened_supported by assumption.
      destruct (flush__toggleFormat_valid (rawJsonInput s) (isFormatMode s)
                  (set_rawJsonInput (trim (file_text lines)) s) v Hv Hp)
        as (H1 & H3 & H4 & _ & H2).
      specialize (H2 Hs). now repeat split.
    - rewrite step_Dropped_supported by assumption.
      destruct (flush__toggleFormat_valid (rawJsonInput s) (isFormatMode s)
                  (set_rawJsonInput (trim (file_text lines)) (set_defaultPath path s))
                  v Hv Hp)
        as (H1 & H3 & H4 & _ & H2).
      specialize (H2 Hs). now repeat split. }
  destruct R as (R1 & R2 & R3 & R4). repeat split; trivial.
  intros Hn. rewrite R2. now apply read_back_value.
Qed.

(** X3. A file with the extension [json] or [txt] whose text, once
    trimmed, is not valid JSON: the buffer takes the trimmed text, the
    displayed value and the mode stay as they were, and the diagnostic is
    the parser's message, behind [Invalid JSON: ] when the buffer held the
    same text before. *)
Theorem open_invalid_file (path : jsstring) (lines : list jsstring) (s : State) :
  path <> [] ->
  includes fileExtensions (pop (split 46%N path)) = true ->
  parse_text (trim (file_text lines)) = None ->
  let s' := step_ (Opened (Some path) (ReadLines lines)) s in
  rawJsonInput s' = trim (file_text lines)
  /\ displayData s' = displayData s
  /\ errorMessage s'
     = (if jsstring_eqb (rawJsonInput s) (trim (file_text lines))
        then str "Invalid JSON: " ++ SyntaxError_message (trim (file_text lines))
        else SyntaxError_message (trim (file_text lines)))
  /\ isFormatMode s' = isFormatMode s.
Proof.
  intros Hpath Hext Hv s'. subst s'.
  rewrite step_Opened_supported by assumption.
  destruct (flush__toggleFormat_invalid (rawJsonInput s) (isFormatMode s)
              (set_rawJsonInput (trim (file_text lines)) s) Hv)
    as (H1 & H2 & H3 & H4 & _).
  now repeat split.
Qed.

(** X4. An empty file, or one of blank lines only, with the extension
    [json] or [txt]: the buffer is emptied, the displayed value stays, and
    the diagnostic is the parser's message for the empty text. *)
Theorem open_blank_file (path : jsstring) (lines : list jsstring) (s : State) :
  path <> [] ->
  includes fileExtensions (pop (split 46%N path)) = true ->
  Forall (fun line => forallb is_trim_space line = true) lines ->
  let s' := step_ (Opened (Some path) (ReadLines lines)) s in
  rawJsonInput s' = []
  /\ displayData s' = displayData s
  /\ errorMessage s'
     = (match rawJsonInput s with
        | [] => str "Invalid JSON: " ++ SyntaxError_message []
        | _ :: _ => SyntaxError_message []
        end).
Proof.
  intros Hpath Hext Hblank s'. subst s'.
  rewrite step_Opened_supported by assumption.
  apply file_text_blank, trim_spaces in Hblank. rewrite Hblank.
  assert (Hv : parse_text (rawJsonInput (set_rawJsonInput [] s)) = None)
    by reflexivity.
  destruct (flush__toggleFormat_invalid (rawJsonInput s) (isFormatMode s)
              (set_rawJsonInput [] s) Hv)
    as (H1 & H2 & H3 & _).
  cbn [rawJsonInput set_rawJsonInput displayData set_rawJsonInput] in H1, H2, H3.
  repeat split; trivial.
  rewrite H3. now destruct (rawJsonInput s).
Qed.

(** X5. Saving the buffer when its text is valid JSON and opening the
    saved file again, read line by line: the file written holds the text
    of the buffer, and after the two events the displayed value is the
    value the text had, the buffer holds it in the format of the mode, the
    diagnostic is empty and the saved path is remembered. *)
Theorem save_then_open (es : list event) (path : jsstring) (v : JSON) :
  path <> [] ->
  includes fileExtensions (pop (split 46%N path)) = true ->
  let s := run_ es (initial SyntaxError_message) in
  parse_text (rawJsonInput s) = Some v ->
  Forall (reads_back shortest_decimal) (numbers_of v) ->
  snd (saveFile (SavePath path) None s) = Some (path, rawJsonInput s)
  /\ let s1 := step_ (Saved (SavePath path) None) s in
     let s2 := step_ (Opened (Some path) (ReadLines (split LF (rawJsonInput s))))
                 s1 in
     displayData s2 = v
     /\ rawJsonInput s2 = stringify v (if isFormatMode s then 0 else 2)
     /\ parse_text (rawJsonInput s2) = Some v
     /\ errorMessage s2 = []
     /\ defaultPath s2 = path.
Proof.
  intros Hpath Hext s Hv Hn.
  destruct path as [ | c p ] eqn:Epath; [ contradiction | ]. rewrite <- Epath in *.
  assert (Hsave : saveFile (SavePath path) None s
                  = (set_defaultPath path
                       (set_errorMessage (str "File saved successfully!") s),
                     Some (path, rawJsonInput s)))
    by (rewrite Epath; reflexivity).
  split; [ now rewrite Hsave | ].
  intros s1.
  assert (E1 : s1 = set_defaultPath path
                      (set_errorMessage (str "File saved successfully!") s)).
  { subst s1. unfold step, flush. cbn [handler]. rewrite Hsave.
    cbn [fst rawJsonInput set_defaultPath set_errorMessage].
    now rewrite jsstring_eqb_refl. }
  intros s2. subst s2.
  pose proof (parse_text_canonical _ _ Hv) as Hc.
  destruct (read_back_value v Hc Hn) as (Hp & Hnorm).
  rewrite step_Opened_supported by assumption.
  assert (Hfile : parse_text
                    (rawJsonInput
                       (set_rawJsonInput
                          (trim (file_text (split LF (rawJsonInput s)))) s1))
                  = Some v).
  { cbn [rawJsonInput set_rawJsonInput].
    rewrite (file_text_split _ v Hv). now apply parse_text_trim_after. }
  assert (Hs1 : forall u, parse_text (rawJsonInput s1) = Some u -> displayData s1 = u).
  { rewrite E1. cbn [rawJsonInput displayData set_defaultPath set_errorMessage].
    intros u. apply run_displayData. }
  destruct (flush__toggleFormat_valid (rawJsonInput s1) (isFormatMode s1) _ v
              Hfile Hp)
    as (H1 & H3 & H4 & H5 & H2).
  specialize (H2 Hs1).
  assert (M : isFormatMode s1 = isFormatMode s) by (rewrite E1; reflexivity).
  assert (D : defaultPath
                (set_rawJsonInput
                   (trim (file_text (split LF (rawJsonInput s)))) s1) = path)
    by (rewrite E1; reflexivity).
  rewrite Hnorm in H2. rewrite <- M.
  split; [ exact H2 | ]. split; [ exact H1 | ].
  split; [ | split; [ exact H3 | now rewrite H5 ] ].
  rewrite H1. now apply parse_text_stringify_representable.
Qed.

End Files.

(** ** Format, minify and the mode *)

Section Mode.

Variable shortest_decimal : number -> jsstring.
Variable SyntaxError_message : jsstring -> jsstring.
Local Notation "'parse'" := (JSON_parse SyntaxError_message).
Local Notation "'stringify'" := (JSON_stringify shortest_decimal).
Local Notation "'step_'" := (step shortest_decimal SyntaxError_message).
Local Notation "'run_'" := (run shortest_decimal SyntaxError_message).
Local Notation "'handler_'" := (handler shortest_decimal SyntaxError_message).
Local Notation "'flush_'" := (flush SyntaxError_message).
Local Notation "'_toggleFormat_'" :=
  (_toggleFormat shortest_decimal SyntaxError_message).

Lemma flush_frame (seen : jsstring) (s : State) :
  isFormatMode (flush_ seen s) = isFormatMode s
  /\ defaultPath (flush_ seen s) = defaultPath s.
Proof.
  unfold flush, handleRawJsonInputChange.
  destruct (jsstring_eqb seen (rawJsonInput s)); [ now split | ].
  now destruct (parse (rawJsonInput s)).
Qed.

Lemma _toggleFormat_frame (b : bool) (s : State) :
  isFormatMode (_toggleFormat_ b s) = isFormatMode s
  /\ defaultPath (_toggleFormat_ b s) = defaultPath s.
Proof. unfold _toggleFormat. now destruct (parse (rawJsonInput s)). Qed.

Lemma displayJSON_frame (filePath : option jsstring) (file : read_result)
    (s : State) :
  isFormatMode (displayJSON shortest_decimal SyntaxError_message filePath file s)
  = isFormatMode s
  /\ defaultPath (displayJSON shortest_decimal SyntaxError_message filePath file s)
     = defaultPath s.
Proof.
  unfold displayJSON. destruct filePath as [ [ | c p ] | ]; try (now split).
  cbv zeta. destruct (negb _); [ now split | ].
  destruct file; [ | now split ].
  destruct (_toggleFormat_frame
              (isFormatMode (set_rawJsonInput (trim (file_text lines)) s))
              (set_rawJsonInput (trim (file_text lines)) s)) as [H1 H2].
  now rewrite H1, H2.
Qed.

Lemma handler_isFormatMode (e : event) (s : State) :
  isFormatMode (handler_ e s)
  = if is_toggle e then negb (isFormatMode s) else isFormatMode s.
Proof.
  destruct e as [ text | newData | | | | filePath file | paths file | dialog write ];
    cbn [handler is_toggle].
  - reflexivity.
  - reflexivity.
  - unfold formatJson. now destruct (parse (rawJsonInput s)).
  - unfold minifyJson. now destruct (parse (rawJsonInput s)).
  - unfold toggleFormatMinify.
    now rewrite (proj1 (_toggleFormat_frame _ _)).
  - apply displayJSON_frame.
  - unfold dragDrop. destruct paths; [ reflexivity | ].
    now rewrite (proj1 (displayJSON_frame _ _ _)).
  - unfold saveFile. destruct dialog as [ err | | [ | c p ] | ]; try reflexivity.
    now destruct write.
Qed.

Lemma handler_defaultPath (e : event) (s : State) :
  defaultPath (handler_ e s) = path_after e (defaultPath s).
Proof.
  destruct e as [ text | newData | | | | filePath file | paths file | dialog write ];
    cbn [handler path_after].
  - reflexivity.
  - reflexivity.
  - unfold formatJson. now destruct (parse (rawJsonInput s)).
  - unfold minifyJson. now destruct (parse (rawJsonInput s)).
  - unfold toggleFormatMinify.
    now rewrite (proj2 (_toggleFormat_frame _ _)).
  - apply displayJSON_frame.
  - unfold dragDrop. destruct paths as [ | dropped others ]; [ reflexivity | ].
    now rewrite (proj2 (displayJSON_frame _ _ _)).
  - unfold saveFile. destruct dialog as [ err | | [ | c p ] | ]; try reflexivity.
    now destruct write.
Qed.

(** X6. The format mode is flipped by every click on the toggle button,
    also when the text of the buffer is not valid JSON and nothing is
    formatted, and by nothing else: after any sequence of events it is on
    exactly when the button was clicked an odd number of times. *)
Theorem isFormatMode_parity (es : list event) :
  isFormatMode (run_ es (initial SyntaxError_message))
  = Nat.odd (List.length (filter is_toggle es))
  /\ (forall s, isFormatMode (step_ ClickToggle s) = negb (isFormatMode s)).
Proof.
  assert (S1 : forall e s, isFormatMode (step_ e s)
                 = if is_toggle e then negb (isFormatMode s) else isFormatMode s).
  { intros e s. unfold step. rewrite (proj1 (flush_frame _ _)).
    apply handler_isFormatMode. }
  split; [ | intros s; apply (S1 ClickToggle) ].
  induction es as [ | e es IH ] using rev_ind; [ reflexivity | ].
  rewrite run_app, S1, IH, filter_app, length_app. cbn [filter].
  destruct (is_toggle e); cbn [List.length].
  - rewrite Nat.add_1_r, Nat.odd_succ. now rewrite <- Nat.negb_odd.
  - now rewrite Nat.add_0_r.
Qed.

(** X7. The path proposed by the save dialog starts as [untitled.json] and
    changes only when files are dropped on the window, to the first of
    them, whether it can be opened or not, and when a file has been
    written, to its path; opening a file through the dialog leaves it. *)
Theorem defaultPath_follows (es : list event) :
  defaultPath (run_ es (initial SyntaxError_message))
  = fold_left (fun path e => path_after e path) es (str "untitled.json")
  /\ (forall filePath file s,
        defaultPath (step_ (Opened filePath file) s) = defaultPath s)
  /\ (forall path others file s,
        defaultPath (step_ (Dropped (path :: others) file) s) = path).
Proof.
  assert (S1 : forall e s, defaultPath (step_ e s) = path_after e (defaultPath s)).
  { intros e s. unfold step. rewrite (proj2 (flush_frame _ _)).
    apply handler_defaultPath. }
  split; [ | split; intros; now rewrite S1 ].
  induction es as [ | e es IH ] using rev_ind; [ reflexivity | ].
  now rewrite run_app, S1, IH, fold_left_app.
Qed.

(** X8. A click on the toggle button when the text of the buffer is valid
    JSON leaves the value minified when the mode is now on and indented by
    two spaces when it is now off, with no diagnostic; a second click
    brings the mode back and leaves the value in the other format. The
    displayed value, when it was the value of the text, stays. *)
Theorem toggle_formats_to_mode (s : State) (v : JSON) :
  parse_text (rawJsonInput s) = Some v ->
  Forall (reads_back shortest_decimal) (numbers_of v) ->
  let s1 := step_ ClickToggle s in
  let s2 := step_ ClickToggle s1 in
  isFormatMode s1 = negb (isFormatMode s)
  /\ rawJsonInput s1 = stringify v (if isFormatMode s1 then 0 else 2)
  /\ errorMessage s1 = []
  /\ isFormatMode s2 = isFormatMode s
  /\ rawJsonInput s2 = stringify v (if isFormatMode s2 then 0 else 2)
  /\ errorMessage s2 = []
  /\ (displayData s = v -> displayData s1 = v /\ displayData s2 = v).
Proof.
  intros Hv Hn.
  pose proof (parse_text_canonical _ _ Hv) as Hc.
  destruct (read_back_value shortest_decimal v Hc Hn) as (Hp & Hnorm).
  assert (T : forall s0, parse_text (rawJsonInput s0) = Some v ->
            isFormatMode (step_ ClickToggle s0) = negb (isFormatMode s0)
            /\ rawJsonInput (step_ ClickToggle s0)
               = stringify v (if negb (isFormatMode s0) then 0 else 2)
            /\ errorMessage (step_ ClickToggle s0) = []
            /\ (displayData s0 = v -> displayData (step_ ClickToggle s0) = v)).
  { intros s0 H0. unfold step. cbn [handler]. unfold toggleFormatMinify.
    cbn [isFormatMode set_isFormatMode].
    destruct (flush__toggleFormat_valid shortest_decimal SyntaxError_message
                (rawJsonInput s0) (negb (isFormatMode s0))
                (set_isFormatMode (negb (isFormatMode s0)) s0) v H0 Hp)
      as (R & E & M & _ & D).
    split; [ exact M | ]. split; [ exact R | ]. split; [ exact E | ].
    intros Hd. rewrite D; [ exact Hnorm | ].
    intros u Hu. rewrite H0 in Hu. now injection Hu as <-. }
  intros s1 s2. destruct (T s Hv) as (M1 & R1 & E1 & D1).
  fold s1 in M1, R1, E1, D1.
  assert (H1 : parse_text (rawJsonInput s1) = Some v).
  { rewrite R1. apply parse_text_stringify_representable. now split. }
  destruct (T s1 H1) as (M2 & R2 & E2 & D2). fold s2 in M2, R2, E2, D2.
  split; [ exact M1 | ]. split; [ now rewrite M1 | ]. split; [ exact E1 | ].
  assert (M : isFormatMode s2 = isFormatMode s)
    by (rewrite M2, M1; apply negb_involutive).
  split; [ exact M | ]. split; [ now rewrite R2, M2 | ].
  split; [ exact E2 | ]. intros Hd. split; [ now apply D1 | now apply D2, D1 ].
Qed.

(** X9. Of two clicks on format or minify in a row on a text that is valid
    JSON, the second decides: the buffer holds what the second click alone
    would have left, so that each of the two is idempotent and overrides
    the other; no diagnostic is left, and the displayed value, when it was
    the value of the text, stays. *)
Theorem format_minify_absorb (s : State) (v : JSON) :
  parse_text (rawJsonInput s) = Some v ->
  Forall (reads_back shortest_decimal) (numbers_of v) ->
  forall e1 e2,
    In e1 [ClickFormat; ClickMinify] -> In e2 [ClickFormat; ClickMinify] ->
    rawJsonInput (step_ e2 (step_ e1 s)) = rawJsonInput (step_ e2 s)
    /\ rawJsonInput (step_ e2 s)
       = stringify v (match e2 with ClickFormat => 2 | _ => 0 end)
    /\ errorMessage (step_ e2 (step_ e1 s)) = []
    /\ (displayData s = v -> displayData (step_ e2 (step_ e1 s)) = v).
Proof.
  intros Hv Hn.
  pose proof (parse_text_canonical _ _ Hv) as Hc.
  destruct (read_back_value shortest_decimal v Hc Hn) as (Hp & Hnorm).
  assert (P : forall n, parse_text (stringify v n) = Some v).
  { intros n. apply parse_text_stringify_representable. now split. }
  assert (T : forall s0 e, parse_text (rawJsonInput s0) = Some v ->
            In e [ClickFormat; ClickMinify] ->
            rawJsonInput (step_ e s0)
            = stringify v (match e with ClickFormat => 2 | _ => 0 end)
            /\ errorMessage (step_ e s0) = []
            /\ (displayData s0 = v -> displayData (step_ e s0) = v)).
  { intros s0 e H0 He.
    assert (R : rawJsonInput (step_ e s0)
                = stringify v (match e with ClickFormat => 2 | _ => 0 end)).
    { rewrite step_rawJsonInput.
      destruct He as [ <- | [ <- | [] ] ]; cbn [handler];
        unfold formatJson, minifyJson, JSON_parse; now rewrite H0. }
    split; [ exact R | ]. split.
    - unfold step.
      destruct He as [ <- | [ <- | [] ] ]; cbn [handler];
        unfold formatJson, minifyJson, JSON_parse; rewrite H0;
        unfold flush; cbn [rawJsonInput set_rawJsonInput set_errorMessage];
        (destruct (jsstring_eqb _ _); [ reflexivity | ]);
        unfold handleRawJsonInputChange, JSON_parse;
        cbn [rawJsonInput set_rawJsonInput set_errorMessage];
        now rewrite P.
    - intros Hd. rewrite step_displayData, R, P, Hd.
      now destruct (jsstring_eqb _ _). }
  intros e1 e2 H1 H2.
  destruct (T s e1 Hv H1) as (R1 & _ & D1).
  destruct (T s e2 Hv H2) as (R2 & _).
  assert (H1' : parse_text (rawJsonInput (step_ e1 s)) = Some v)
    by (rewrite R1; apply P).
  destruct (T (step_ e1 s) e2 H1' H2) as (R3 & E3 & D3).
  split; [ now rewrite R3, R2 | ]. split; [ exact R2 | ].
  split; [ exact E3 | ]. intros Hd. now apply D3, D1.
Qed.

(** X10. After a tree edit at any moment the buffer holds the new value
    indented by two spaces, the text of the buffer is valid JSON, and the
    displayed value is what that text reads back as: the new value, with
    [null] for the numbers that are not finite. *)
Theorem tree_edit_shows_text (es : list event) (v : JSON) :
  prints shortest_decimal v ->
  let s' := step_ (TreeEdited v) (run_ es (initial SyntaxError_message)) in
  rawJsonInput s' = stringify v 2
  /\ parse_text (rawJsonInput s') = Some (displayData s')
  /\ displayData s' = normalize shortest_decimal v
  /\ (forall x, isFinite x = false ->
        normalize shortest_decimal (JNumber x) = JNull).
Proof.
  intros Hp s'.
  assert (R : rawJsonInput s' = stringify v 2)
    by (subst s'; now rewrite step_rawJsonInput).
  assert (P : parse_text (rawJsonInput s') = Some (normalize shortest_decimal v))
    by (rewrite R; now apply parse_text_stringify).
  assert (D : displayData s' = normalize shortest_decimal v).
  { subst s'. rewrite <- run_app. apply run_displayData.
    rewrite run_app. exact P. }
  split; [ exact R | ]. split; [ now rewrite D | ]. split; [ exact D | ].
  intros x Hx. cbn [normalize]. now rewrite Hx.
Qed.

(** X11. For a value whose numbers are integers below 2^53 and whose
    objects list distinct keys in property order, a tree edit is a round
    trip whatever the engine: the text of the buffer parses to the value,
    and the value is displayed. *)
Theorem tree_edit_integers (es : list event) (v : JSON) :
  canonical v = true -> integral v ->
  let s' := step_ (TreeEdited v) (run_ es (initial SyntaxError_message)) in
  parse (rawJsonInput s') = inl v /\ displayData s' = v.
Proof.
  intros Hc Hi s'.
  pose proof (integral_representable shortest_decimal v Hc Hi) as Hv.
  assert (P : parse_text (rawJsonInput s') = Some v).
  { subst s'. rewrite step_rawJsonInput. cbn [handler]. unfold handleEdit.
    cbn [rawJsonInput set_rawJsonInput].
    now apply parse_text_stringify_representable. }
  split; [ now apply JSON_parse_inl | ].
  subst s'. rewrite <- run_app. apply run_displayData. now rewrite run_app.
Qed.

End Mode.

Lemma removelast_snoc (l : jsstring) (c : codeunit) : removelast (l ++ [c]) = l.
Proof. rewrite removelast_app by discriminate. cbn. apply app_nil_r. Qed.

Lemma file_text_nul (lines : list jsstring) :
  Forall (fun line => endsWithNul line = false) lines ->
  file_text (map (fun line => line ++ [0%N]) lines) = file_text lines.
Proof.
  induction 1 as [ | l lines Hl _ IH ]; [ reflexivity | ].
  cbn [map]. rewrite !file_text_cons, IH, Hl, endsWithNul_snoc.
  cbn [N.eqb]. now rewrite removelast_snoc.
Qed.

Section Saving.

Variable shortest_decimal : number -> jsstring.
Variable SyntaxError_message : jsstring -> jsstring.
Local Notation "'step_'" := (step shortest_decimal SyntaxError_message).

(** X12. Lines that the reader hands over with a NUL at their end are
    taken as the same lines without it: the file opens to the same state.
    Only one NUL is cut from a line. *)
Theorem nul_terminated_lines (filePath : option jsstring)
    (lines : list jsstring) (s : State) :
  Forall (fun line => endsWithNul line = false) lines ->
  step_ (Opened filePath (ReadLines (map (fun line => line ++ [0%N]) lines))) s
  = step_ (Opened filePath (ReadLines lines)) s
  /\ (forall line, file_text [line ++ [0; 0]%N] = line ++ [0%N; LF]).
Proof.
  intros H. split.
  - unfold step. cbn [handler]. unfold openFile, displayJSON.
    now rewrite (file_text_nul lines H).
  - intros line. rewrite file_text_cons.
    change (line ++ [0; 0]%N) with (line ++ [0%N] ++ [0%N]).
    rewrite app_assoc, endsWithNul_snoc, removelast_snoc. cbn [N.eqb].
    now rewrite <- app_assoc.
Qed.

(** X13. [saveFile] never touches the text of the buffer, the displayed
    value or the mode, and always leaves a message in the diagnostic. A file
    is written exactly when the dialog gave a path that is not empty and
    the write did not fail; it then holds the text of the buffer as it is,
    valid JSON or not, its path becomes the path that the next dialog
    proposes, and the message is [File saved successfully!]. In every other
    case that path stays and the message says what went wrong. *)
Theorem saveFile_effects (dialog : save_result) (write : write_result) (s : State) :
  let s' := fst (saveFile dialog write s) in
  let written := snd (saveFile dialog write s) in
  rawJsonInput s' = rawJsonInput s
  /\ displayData s' = displayData s
  /\ isFormatMode s' = isFormatMode s
  /\ errorMessage s' <> []
  /\ (forall p t,
        written = Some (p, t)
        <-> dialog = SavePath p /\ p <> [] /\ write = None /\ t = rawJsonInput s)
  /\ defaultPath s'
     = (match written with Some (p, _) => p | None => defaultPath s end)
  /\ (errorMessage s' = str "File saved successfully!" <-> written <> None)
  /\ step_ (Saved dialog write) s = s'.
Proof.
  assert (F : forall s0, flush SyntaxError_message (rawJsonInput s0) s0 = s0)
    by (intros s0; unfold flush; now rewrite jsstring_eqb_refl).
  unfold step. cbn [handler].
  destruct dialog as [ err | | [ | c p ] | ];
    [ | | | destruct write as [ err | ] | ];
    cbn [saveFile fst snd rawJsonInput displayData isFormatMode errorMessage
         defaultPath set_errorMessage set_defaultPath];
    (split; [ reflexivity | ]); (split; [ reflexivity | ]);
    (split; [ reflexivity | ]); (split; [ discriminate | ]);
    (split; [ intros p0 t0 | split; [ reflexivity | split ] ]).
  (* the dialog threw *)
  - split; [ discriminate | now intros (H1 & _) ].
  - split; [ discriminate | intros H; now contradiction H ].
  - apply (F (set_errorMessage _ s)).
  (* the dialog was cancelled *)
  - split; [ discriminate | now intros (H1 & _) ].
  - split; [ discriminate | intros H; now contradiction H ].
  - apply (F (set_errorMessage _ s)).
  (* the dialog gave an empty path *)
  - split; [ discriminate | ].
    intros (H1 & H2 & _). injection H1 as <-. now contradiction H2.
  - split; [ discriminate | intros H; now contradiction H ].
  - apply (F (set_errorMessage _ s)).
  (* the write failed *)
  - split; [ discriminate | now intros (_ & _ & H3 & _) ].
  - split; [ discriminate | intros H; now contradiction H ].
  - apply (F (set_errorMessage _ s)).
  (* the file was written *)
  - split.
    + intros [= <- <-]. repeat split. discriminate.
    + intros (H1 & _ & _ & ->). now injection H1 as <-.
  - split; [ discriminate | reflexivity ].
  - apply (F (set_defaultPath (c :: p) (set_errorMessage _ s))).
  (* the dialog gave something that is not a string *)
  - split; [ discriminate | now intros (H1 & _) ].
  - split; [ discriminate | intros H; now contradiction H ].
  - apply (F (set_errorMessage _ s)).
Qed.

End Saving.

Section Edges.

Variable shortest_decimal : number -> jsstring.
Variable SyntaxError_message : jsstring -> jsstring.
Local Notation "'step_'" := (step shortest_decimal SyntaxError_message).

(** X17. Nothing to read. A dialog that was cancelled, or a path that is
    empty, leaves [file extension is null.] in the diagnostic and changes
    nothing else; a file with the extension [json] or [txt] that cannot be
    read changes nothing at all, not even the diagnostic, when it was chosen
    in the dialog, and only the path that the save dialog proposes when it
    was dropped; a drop without paths changes nothing. *)
Theorem open_nothing_read (file : read_result) (s : State) :
  step_ (Opened None file) s = set_errorMessage (str "file extension is null.") s
  /\ step_ (Opened (Some []) file) s
     = set_errorMessage (str "file extension is null.") s
  /\ step_ (Dropped [] file) s = s
  /\ (forall path others,
        path <> [] ->
        includes fileExtensions (pop (split 46%N path)) = true ->
        step_ (Opened (Some path) ReadThrows) s = s
        /\ step_ (Dropped (path :: others) ReadThrows) s = set_defaultPath path s).
Proof.
  assert (F : forall s0, flush SyntaxError_message (rawJsonInput s0) s0 = s0)
    by (intros s0; unfold flush; now rewrite jsstring_eqb_refl).
  unfold step. cbn [handler]. unfold openFile, dragDrop.
  split; [ apply (F (set_errorMessage _ s)) | ].
  split; [ apply (F (set_errorMessage _ s)) | ].
  split; [ apply F | ].
  intros path others Hpath Hext.
  destruct path as [ | c p ]; [ contradiction | ].
  unfold displayJSON. cbv zeta. cbn [defaultPath set_defaultPath].
  rewrite Hext. cbn [negb].
  split; [ apply F | apply (F (set_defaultPath (c :: p) s)) ].
Qed.

(** X18. The three revisions format alike: [_toggleFormat] of the last
    revision is [formatJson] of the first two when its argument is false and
    [minifyJson] when it is true, so the toggle button does what the format
    button did when the mode was on and what the minify button did when it
    was off. *)
Theorem _toggleFormat_revisions (s : State) :
  _toggleFormat shortest_decimal SyntaxError_message false s
  = formatJson shortest_decimal SyntaxError_message s
  /\ _toggleFormat shortest_decimal SyntaxError_message true s
     = minifyJson shortest_decimal SyntaxError_message s
  /\ rawJsonInput (step_ ClickToggle s)
     = rawJsonInput (step_ (if isFormatMode s then ClickFormat else ClickMinify) s)
  /\ errorMessage (step_ ClickToggle s)
     = errorMessage (step_ (if isFormatMode s then ClickFormat else ClickMinify) s)
  /\ displayData (step_ ClickToggle s)
     = displayData (step_ (if isFormatMode s then ClickFormat else ClickMinify) s).
Proof.
  split; [ reflexivity | ]. split; [ reflexivity | ].
  unfold step, flush.
  destruct (isFormatMode s) eqn:M; cbn [handler];
    unfold toggleFormatMinify, _toggleFormat, formatJson, minifyJson;
    cbn [rawJsonInput isFormatMode set_isFormatMode]; rewrite M; cbn [negb];
    destruct (JSON_parse SyntaxError_message (rawJsonInput s)) as [ v | message ];
    cbn [rawJsonInput set_rawJsonInput set_errorMessage set_isFormatMode];
    (destruct (jsstring_eqb _ _); [ now repeat split | ]);
    unfold handleRawJsonInputChange;
    cbn [rawJsonInput set_rawJsonInput set_errorMessage set_isFormatMode];
    match goal with
    | |- context [JSON_parse ?m ?t] => destruct (JSON_parse m t)
    end; now repeat split.
Qed.

End Edges.

(** ** Minified text *)

Lemma hex_digit_printable (n : N) : printable (hex_digit n) = true.
Proof.
  unfold printable, hex_digit. destruct (N.ltb n 10); apply N.leb_le; lia.
Qed.

Lemma UnicodeEscape_printable (c : codeunit) :
  forallb printable (UnicodeEscape c) = true.
Proof.
  unfold UnicodeEscape. cbn [forallb]. now rewrite !hex_digit_printable.
Qed.

Lemma escape_unit_printable (c : codeunit) :
  forallb printable (escape_unit c) = true.
Proof.
  unfold escape_unit.
  repeat match goal with
         | |- forallb _ (if N.eqb c ?k then _ else _) = _ =>
             destruct (N.eqb c k); [ reflexivity | ]
         end.
  destruct (N.ltb c 32) eqn:E; cbn [orb]; [ apply UnicodeEscape_printable | ].
  destruct (_ || _); [ apply UnicodeEscape_printable | ].
  cbn [forallb]. unfold printable. apply N.ltb_ge in E.
  rewrite andb_true_r. now apply N.leb_le.
Qed.

Lemma quote_units_printable (n : nat) :
  forall s, List.length s <= n -> forallb printable (quote_units s) = true.
Proof.
  induction n as [ | n IH ]; intros [ | c t ] Hn; try reflexivity;
    cbn [List.length] in Hn; try lia.
  cbn [quote_units]. destruct (is_leading_surrogate c) eqn:Ec.
  - assert (Hc : printable c = true).
    { unfold is_leading_surrogate in Ec. apply andb_true_iff in Ec.
      destruct Ec as [Ec _]. apply N.leb_le in Ec. apply N.leb_le. lia. }
    destruct t as [ | d t' ]; [ apply UnicodeEscape_printable | ].
    destruct (is_trailing_surrogate d) eqn:Ed.
    + assert (Hd : printable d = true).
      { unfold is_trailing_surrogate in Ed. apply andb_true_iff in Ed.
        destruct Ed as [Ed _]. apply N.leb_le in Ed. apply N.leb_le. lia. }
      cbn [forallb]. rewrite Hc, Hd. apply IH. cbn [List.length] in Hn. lia.
    + rewrite forallb_app, UnicodeEscape_printable. apply IH. lia.
  - rewrite forallb_app, escape_unit_printable. apply IH. lia.
Qed.

Lemma QuoteJSONString_printable (s : jsstring) :
  forallb printable (QuoteJSONString s) = true.
Proof.
  unfold QuoteJSONString. cbn [forallb]. rewrite forallb_app.
  now rewrite (quote_units_printable _ s (le_n _)).
Qed.

Lemma join_forallb (P : codeunit -> bool) (sep : jsstring) (parts : list jsstring) :
  forallb P sep = true -> Forall (fun p => forallb P p = true) parts ->
  forallb P (join sep parts) = true.
Proof.
  intros Hsep. induction 1 as [ | p parts Hp Hparts IH ]; [ reflexivity | ].
  cbn [join]. destruct parts as [ | q parts ]; [ exact Hp | ].
  now rewrite !forallb_app, Hp, Hsep, IH.
Qed.

Lemma token_units_printable (l : jsstring) :
  forallb token_unit l = true -> forallb printable l = true.
Proof.
  rewrite !forallb_forall. intros H c Hc. specialize (H c Hc).
  unfold token_unit in H. apply N.leb_le in H. apply N.leb_le. lia.
Qed.

Section OneLine.

Variable shortest_decimal : number -> jsstring.
Variable SyntaxError_message : jsstring -> jsstring.
Local Notation "'stringify'" := (JSON_stringify shortest_decimal).
Local Notation "'step_'" := (step shortest_decimal SyntaxError_message).

Lemma serialize_printable (v : JSON) :
  prints shortest_decimal v ->
  forall indent,
    forallb printable (SerializeJSONProperty shortest_decimal [] indent v) = true.
Proof.
  induction v as [ | b | x | s | l IH | l IH ] using JSON_ind; intros Hv indent.
  - reflexivity.
  - now destruct b.
  - cbn [SerializeJSONProperty]. destruct (isFinite x) eqn:Efin; [ | reflexivity ].
    unfold prints in Hv. cbn [numbers_of] in Hv. apply Forall_inv in Hv.
    specialize (Hv Efin).
    destruct (scan_number_split _ _ _ Hv) as (_ & _ & Hu & _).
    now apply token_units_printable.
  - apply QuoteJSONString_printable.
  - cbn [SerializeJSONProperty]. unfold wrap.
    destruct (map _ l) as [ | p ps ] eqn:E; [ reflexivity | ]. rewrite <- E.
    cbn [forallb]. rewrite forallb_app. cbn [forallb].
    rewrite join_forallb; [ reflexivity | reflexivity | ].
    apply Forall_map. pose proof (prints_elements shortest_decimal l Hv) as Hl.
    rewrite Forall_forall in IH, Hl |- *. intros e He.
    now apply (IH e He), (Hl e He).
  - cbn [SerializeJSONProperty]. unfold wrap.
    destruct (map _ l) as [ | p ps ] eqn:E; [ reflexivity | ]. rewrite <- E.
    cbn [forallb]. rewrite forallb_app. cbn [forallb].
    rewrite join_forallb; [ reflexivity | reflexivity | ].
    apply Forall_map. pose proof (prints_members shortest_decimal l Hv) as Hl.
    rewrite Forall_forall in IH, Hl |- *. intros [k e] He. cbn [fst snd app].
    rewrite forallb_app, QuoteJSONString_printable. cbn [forallb andb].
    now apply (IH (k, e) He), (Hl (k, e) He).
Qed.

(** X19. Minified text is one line: after minify on a text that is valid
    JSON, and after a click on the toggle button that turns the mode on,
    the buffer holds no line feed, tab or other control character. *)
Theorem minify_one_line (s : State) (v : JSON) :
  parse_text (rawJsonInput s) = Some v ->
  prints shortest_decimal v ->
  forallb printable (rawJsonInput (step_ ClickMinify s)) = true
  /\ (isFormatMode s = false ->
      forallb printable (rawJsonInput (step_ ClickToggle s)) = true)
  /\ printable LF = false.
Proof.
  intros Hv Hp.
  assert (M : forallb printable (stringify v 0) = true)
    by (apply (serialize_printable v Hp [])).
  split; [ | split; [ | reflexivity ] ].
  - rewrite step_rawJsonInput. cbn [handler]. unfold minifyJson, JSON_parse.
    now rewrite Hv.
  - intros Hm. rewrite step_rawJsonInput. cbn [handler].
    unfold toggleFormatMinify, _toggleFormat, JSON_parse.
    cbn [rawJsonInput isFormatMode set_isFormatMode]. now rewrite Hv, Hm.
Qed.

End OneLine.

(** ** What formatting keeps *)

Section Shape.

Variable shortest_decimal : number -> jsstring.
Variable SyntaxError_message : jsstring -> jsstring.
Local Notation "'stringify'" := (JSON_stringify shortest_decimal).
Local Notation "'step_'" := (step shortest_decimal SyntaxError_message).
Local Notation "'norm'" := (normalize shortest_decimal).

Lemma canonical_elements (l : list JSON) :
  canonical (JArray l) = true -> Forall (fun e => canonical e = true) l.
Proof.
  cbn [canonical]. intros H. apply Forall_forall.
  now rewrite forallb_forall in H.
Qed.

Lemma canonical_members (l : list (jsstring * JSON)) :
  canonical (JObject l) = true ->
  ordered_keys (map fst l) = true
  /\ Forall (fun kv => canonical (snd kv) = true) l.
Proof.
  cbn [canonical]. intros H. apply andb_true_iff in H. destruct H as [Hk Hc].
  split; [ exact Hk | ]. apply Forall_forall. now rewrite forallb_forall in Hc.
Qed.

(** Reading back the text of a value whose objects list distinct keys in
    property order changes nothing but numbers. *)
Lemma normalize_without_numbers (v : JSON) :
  canonical v = true -> without_numbers (norm v) = without_numbers v.
Proof.
  induction v as [ | b | x | s | l IH | l IH ] using JSON_ind; intros Hc;
    try reflexivity.
  - cbn [normalize]. now destruct (isFinite x).
  - apply canonical_elements in Hc. cbn [normalize without_numbers]. f_equal.
    rewrite map_map. apply map_ext_in.
    rewrite Forall_forall in IH, Hc. auto.
  - apply canonical_members in Hc. destruct Hc as [Hk Hc].
    cbn [normalize]. rewrite define_all_ordered.
    + cbn [app without_numbers]. f_equal. rewrite map_map. apply map_ext_in.
      rewrite Forall_forall in IH, Hc. intros [k e] Hin. cbn [fst snd].
      f_equal. now apply (IH (k, e) Hin), (Hc (k, e)).
    + cbn [app]. rewrite map_map. cbn [fst]. exact Hk.
Qed.

(** X20. Formatting changes nothing but numbers: after format, minify or
    the toggle button on a text that is valid JSON, the text of the buffer
    is valid JSON for a value with the same nesting, the same keys in the
    same order and the same strings, booleans and nulls; a number is kept
    when it reads back from its own text, and becomes [null] when it is not
    finite. *)
Theorem format_keeps_all_but_numbers (s : State) (v : JSON) :
  parse_text (rawJsonInput s) = Some v ->
  prints shortest_decimal v ->
  forall e, In e [ClickFormat; ClickMinify; ClickToggle] ->
    parse_text (rawJsonInput (step_ e s)) = Some (norm v)
    /\ without_numbers (norm v) = without_numbers v
    /\ (Forall (reads_back shortest_decimal) (numbers_of v) -> norm v = v).
Proof.
  intros Hv Hp e He.
  pose proof (parse_text_canonical _ _ Hv) as Hc.
  split; [ | split ].
  - rewrite step_rawJsonInput.
    destruct He as [ <- | [ <- | [ <- | [] ] ] ]; cbn [handler];
      unfold formatJson, minifyJson, toggleFormatMinify, _toggleFormat, JSON_parse;
      cbn [rawJsonInput set_isFormatMode]; rewrite Hv;
      cbn [rawJsonInput set_rawJsonInput set_errorMessage];
      try destruct (negb _); now apply parse_text_stringify.
  - now apply normalize_without_numbers.
  - intros Hn. apply normalize_representable. now split.
Qed.

End Shape.

(** ** The view *)

(** *** The colour preference *)

Lemma getItem_setItem (storage : Storage) (k x : jsstring) :
  getItem (setItem storage k x) k = Some x.
Proof.
  induction storage as [ | [k' x'] rest IH ]; cbn [setItem getItem].
  - now rewrite jsstring_eqb_refl.
  - destruct (jsstring_eqb k k') eqn:E; cbn [getItem]; now rewrite E.
Qed.

Lemma getItem_setItem_other (storage : Storage) (k k' x : jsstring) :
  jsstring_eqb k' k = false ->
  getItem (setItem storage k x) k' = getItem storage k'.
Proof.
  intros Hk. induction storage as [ | [k0 x0] rest IH ]; cbn [setItem getItem].
  - now rewrite Hk.
  - destruct (jsstring_eqb k k0) eqn:E; cbn [getItem].
    + apply jsstring_eqb_eq in E. subst k0. now rewrite Hk.
    + now rewrite IH.
Qed.

Lemma mounted_color_kept (storage : Storage) :
  color_kept (mounted storage initial_view).
Proof.
  unfold color_kept, mounted, defaultBackgroundColor, flush_color.
  destruct (getItem storage (str "textareaBackgroundColor"))
    as [ [ | c t ] | ] eqn:E.
  - right. cbn [fst snd]. rewrite jsstring_eqb_refl. split; [ reflexivity | ].
    now right.
  - left. cbn [fst snd textareaBackgroundColor set_textareaBackgroundColor].
    split; [ | discriminate ].
    destruct (jsstring_eqb _ _); [ exact E | apply getItem_setItem ].
  - right. cbn [fst snd]. rewrite jsstring_eqb_refl. split; [ reflexivity | ].
    now left.
Qed.

Lemma pickColor_color_kept (color : jsstring) (ws : View * Storage) :
  color <> [] -> color_kept ws -> color_kept (pickColor color ws).
Proof.
  intros Hc H. unfold color_kept, pickColor, flush_color.
  cbn [fst snd textareaBackgroundColor set_textareaBackgroundColor].
  destruct (jsstring_eqb (textareaBackgroundColor (fst ws)) color) eqn:E.
  - apply jsstring_eqb_eq in E. subst color. exact H.
  - left. split; [ apply getItem_setItem | exact Hc ].
Qed.

Lemma session_color_kept (storage : Storage) (colors : list jsstring) :
  Forall (fun color => color <> []) colors ->
  color_kept (session storage colors).
Proof.
  unfold session. intros H.
  induction colors as [ | color colors IH ] using rev_ind.
  - apply mounted_color_kept.
  - apply Forall_app in H. destruct H as [H1 H2]. apply Forall_inv in H2.
    rewrite fold_left_app. cbn [fold_left].
    apply pickColor_color_kept; [ exact H2 | now apply IH ].
Qed.

(** X14. The colour of the text area outlives the session: whatever
    [localStorage] held at first and whatever colours were chosen, a
    component mounted afterwards on the storage that the session left
    starts with the colour the session ended with. A stored empty string
    is passed over, and the storage of other keys is left alone. *)
Theorem color_survives_restart (storage : Storage) (colors : list jsstring) :
  Forall (fun color => color <> []) colors ->
  let ws := session storage colors in
  textareaBackgroundColor (fst (mounted (snd ws) initial_view))
  = textareaBackgroundColor (fst ws)
  /\ snd (mounted (snd ws) initial_view) = snd ws
  /\ (forall k, jsstring_eqb k (str "textareaBackgroundColor") = false ->
        getItem (snd ws) k = getItem storage k).
Proof.
  intros H ws. pose proof (session_color_kept storage colors H) as K.
  fold ws in K. split; [ | split ].
  - unfold mounted, defaultBackgroundColor. cbn [fst].
    destruct K as [ [K1 K2] | [K1 [K2 | K2] ] ]; rewrite ?K1, ?K2.
    + destruct (textareaBackgroundColor (fst ws)); [ contradiction | reflexivity ].
    + reflexivity.
    + reflexivity.
  - unfold mounted, defaultBackgroundColor, flush_color. cbn [fst snd].
    destruct K as [ [K1 K2] | [K1 [K2 | K2] ] ]; rewrite ?K1, ?K2.
    + destruct (textareaBackgroundColor (fst ws)) as [ | c t ] eqn:E;
        [ contradiction | ].
      cbn [textareaBackgroundColor set_textareaBackgroundColor].
      destruct (jsstring_eqb _ _); [ reflexivity | ].
      clear - K1. induction (snd ws) as [ | [k' x'] rest IH ]; [ discriminate | ].
      cbn [getItem setItem] in K1 |- *.
      destruct (jsstring_eqb (str "textareaBackgroundColor") k');
        [ now injection K1 as -> | now rewrite IH ].
    + now rewrite jsstring_eqb_refl.
    + now rewrite jsstring_eqb_refl.
  - intros k Hk. subst ws. clear K H. unfold session.
    induction colors as [ | color colors IH ] using rev_ind.
    + unfold mounted, flush_color. cbn [fold_left snd].
      match goal with
      | |- context [if ?b then _ else _] => destruct b
      end; [ reflexivity | ].
      now apply getItem_setItem_other.
    + rewrite fold_left_app. cbn [fold_left]. unfold pickColor at 1.
      unfold flush_color. cbn [snd].
      match goal with
      | |- context [if ?b then _ else _] => destruct b
      end; [ exact IH | ].
      rewrite getItem_setItem_other by exact Hk. exact IH.
Qed.

(** *** Font sizes and the keyboard *)

Lemma handleKeyboardEvent_sizes (event : KeyboardEvent) (w : View) :
  inputFontSize w = outputFontSize w ->
  inputFontSize (fst (fst (handleKeyboardEvent event w)))
  = outputFontSize (fst (fst (handleKeyboardEvent event w))).
Proof.
  intros H. unfold handleKeyboardEvent.
  destruct (metaKey event || ctrlKey event); [ | exact H ].
  destruct (_ || _).
  { cbn [fst]. unfold increaseOutputFontSize, increaseFontSize.
    cbn [inputFontSize outputFontSize set_inputFontSize set_outputFontSize].
    now rewrite H. }
  destruct (jsstring_eqb (key event) (str "-")).
  { cbn [fst]. unfold decreaseFontSize. rewrite H.
    destruct (SFltb (literal "0.5") (outputFontSize w)) eqn:E;
      unfold decreaseOutputFontSize;
      cbn [inputFontSize outputFontSize set_inputFontSize set_outputFontSize];
      rewrite E;
      cbn [inputFontSize outputFontSize set_inputFontSize set_outputFontSize];
      [ reflexivity | exact H ]. }
  destruct (jsstring_eqb (key event) (str "0")); [ reflexivity | ].
  destruct (jsstring_eqb (key event) (str "o")); [ exact H | ].
  destruct (jsstring_eqb (key event) (str "s")); exact H.
Qed.

(** X15. Through the keyboard the two panels are zoomed together: from
    the sizes the script starts with, any run of key events leaves the
    input panel and the output panel at the same font size, and a key event
    that ends a run with Ctrl or Cmd and [0] leaves both at the default
    size. *)
Theorem keyboard_zoom_in_step (events : list KeyboardEvent) :
  inputFontSize (typed_keys events initial_view)
  = outputFontSize (typed_keys events initial_view)
  /\ (forall event w,
        (metaKey event || ctrlKey event) = true -> key event = str "0" ->
        inputFontSize (typed_keys (events ++ [event]) w) = defaultInputFontSize
        /\ outputFontSize (typed_keys (events ++ [event]) w)
           = defaultOutputFontSize).
Proof.
  split.
  - unfold typed_keys.
    induction events as [ | event events IH ] using rev_ind; [ reflexivity | ].
    rewrite fold_left_app. cbn [fold_left].
    now apply handleKeyboardEvent_sizes.
  - intros event w Hm Hk. unfold typed_keys. rewrite fold_left_app.
    cbn [fold_left]. unfold handleKeyboardEvent. rewrite Hm, Hk. now cbn.
Qed.

Lemma iter_fixed (A : Type) (f : A -> A) (x : A) (n : nat) :
  f x = x -> Nat.iter n f x = x.
Proof.
  intros H. induction n as [ | n IH ]; [ reflexivity | ].
  change (f (Nat.iter n f x) = x). now rewrite IH.
Qed.

Lemma iter_plus (A : Type) (f : A -> A) (x : A) (n m : nat) :
  Nat.iter (n + m) f x = Nat.iter n f (Nat.iter m f x).
Proof.
  induction n as [ | n IH ]; [ reflexivity | ].
  change (f (Nat.iter (n + m) f x) = f (Nat.iter n f (Nat.iter m f x))).
  now rewrite IH.
Qed.

(** X16. The guard of [decreaseFontSize] looks at the size before the
    step, so the size stops at the first value that is not above 0.5: from
    the 1.2 of the last revision the seventh step reaches 0.5 exactly and
    the size stays there; from the 1.15 of the second revision the seventh
    step goes below 0.5, and the size stays there. *)
Theorem decreaseFontSize_floor (n : nat) :
  7 <= n ->
  inputFontSize (Nat.iter n decreaseFontSize initial_view) = literal "0.5"
  /\ outputFontSize (Nat.iter n decreaseOutputFontSize initial_view)
     = literal "0.5"
  /\ inputFontSize (Nat.iter n decreaseFontSize second_view)
     = S754_finite false 8106479329266892 (-54)
  /\ SFltb (inputFontSize (Nat.iter n decreaseFontSize second_view))
       (literal "0.5") = true.
Proof.
  intros Hn. replace n with ((n - 7) + 7) by lia.
  rewrite !iter_plus.
  assert (E1 : Nat.iter 7 decreaseFontSize initial_view
               = set_inputFontSize (literal "0.5") initial_view)
    by (vm_compute; reflexivity).
  assert (E2 : Nat.iter 7 decreaseOutputFontSize initial_view
               = set_outputFontSize (literal "0.5") initial_view)
    by (vm_compute; reflexivity).
  assert (E3 : Nat.iter 7 decreaseFontSize second_view
               = set_inputFontSize (S754_finite false 8106479329266892 (-54))
                   second_view)
    by (vm_compute; reflexivity).
  rewrite E1, E2, E3.
  rewrite !iter_fixed by (vm_compute; reflexivity).
  repeat split.
Qed.


(** * Instances *)

Lemma onTextChanged_valid_witness :
  JSON_parse fixed_message example_text = inl example_value
  /\ displayData (handleRawJsonInputChange fixed_message example_text started)
     = example_value
  /\ errorMessage (handleRawJsonInputChange fixed_message example_text started)
     = [].
Proof.
  split; [ vm_compute; reflexivity | ].
  apply (onTextChanged_valid fixed_message example_text example_value started).
  vm_compute. reflexivity.
Defined.

Lemma onTextChanged_invalid_witness :
  parse_text truncated_text = None
  /\ fixed_message truncated_text <> []
  /\ displayData (handleRawJsonInputChange fixed_message truncated_text started)
     = sample_value
  /\ errorMessage (handleRawJsonInputChange fixed_message truncated_text started)
     <> [].
Proof.
  split; [ vm_compute; reflexivity | ].
  split; [ vm_compute; discriminate | ].
  destruct (onTextChanged_invalid fixed_message truncated_text started)
    as (Hdisplay & _ & Hmessage).
  - vm_compute. reflexivity.
  - vm_compute. discriminate.
  - split; [ | exact Hmessage ]. rewrite Hdisplay. vm_compute. reflexivity.
Defined.

Lemma format_valid_witness :
  JSON_parse fixed_message
    (rawJsonInput (set_rawJsonInput example_text started)) = inl example_value
  /\ rawJsonInput (formatJson table_shortest_decimal fixed_message
                     (set_rawJsonInput example_text started))
     = JSON_stringify table_shortest_decimal example_value 2
  /\ errorMessage (formatJson table_shortest_decimal fixed_message
                     (set_rawJsonInput example_text started)) = [].
Proof.
  split; [ vm_compute; reflexivity | ].
  apply (proj1 (format_valid table_shortest_decimal fixed_message
                  (set_rawJsonInput example_text started) example_value
                  ltac:(vm_compute; reflexivity))).
  left. reflexivity.
Defined.

Lemma format_minify_invalid_witness :
  parse_text (rawJsonInput (set_rawJsonInput truncated_text started)) = None
  /\ errorMessage (minifyJson table_shortest_decimal fixed_message
                     (set_rawJsonInput truncated_text started))
     = str "Invalid JSON: Unexpected token in JSON"
  /\ rawJsonInput (minifyJson table_shortest_decimal fixed_message
                     (set_rawJsonInput truncated_text started))
     = truncated_text.
Proof.
  split; [ vm_compute; reflexivity | ].
  apply (format_minify_invalid table_shortest_decimal fixed_message
           (set_rawJsonInput truncated_text started)
           ltac:(vm_compute; reflexivity)).
  right. left. reflexivity.
Defined.

Lemma handleEdit_round_trip_witness :
  representable table_shortest_decimal witness_value
  /\ JSON_parse fixed_message
       (rawJsonInput (step table_shortest_decimal fixed_message
                        (TreeEdited witness_value) started))
     = inl witness_value.
Proof.
  assert (H : representable table_shortest_decimal witness_value).
  { split; [ reflexivity | ]. repeat constructor; vm_compute; reflexivity. }
  split; [ exact H | ].
  apply (handleEdit_round_trip table_shortest_decimal fixed_message
           witness_value started H).
Defined.

Lemma format_then_minify_witness :
  JSON_parse fixed_message (rawJsonInput started) = inl sample_value
  /\ Forall (reads_back table_shortest_decimal) (numbers_of sample_value)
  /\ JSON_parse fixed_message
       (rawJsonInput
          (step table_shortest_decimal fixed_message ClickMinify
             (step table_shortest_decimal fixed_message ClickFormat started)))
     = inl sample_value.
Proof.
  assert (H : JSON_parse fixed_message (rawJsonInput started) = inl sample_value)
    by (vm_compute; reflexivity).
  assert (N : Forall (reads_back table_shortest_decimal) (numbers_of sample_value))
    by (repeat constructor; vm_compute; reflexivity).
  split; [ exact H | ]. split; [ exact N | ].
  apply (format_then_minify table_shortest_decimal fixed_message started
           sample_value H N).
Defined.

Lemma open_file_types_witness :
  str "/home/me/notes.md" <> []
  /\ pop (split 46%N (str "/home/me/notes.md")) <> str "json"
  /\ pop (split 46%N (str "/home/me/notes.md")) <> str "txt"
  /\ openFile table_shortest_decimal fixed_message
       (Some (str "/home/me/notes.md")) (ReadLines [str "# notes"]) started
     = set_errorMessage (str "Unsupported file type: md") started.
Proof.
  split; [ discriminate | ].
  split; [ vm_compute; discriminate | ].
  split; [ vm_compute; discriminate | ].
  apply (proj1 (proj2 (open_file_types table_shortest_decimal fixed_message
                  (str "/home/me/notes.md") (ReadLines [str "# notes"]) started
                  ltac:(discriminate)))).
  - vm_compute. discriminate.
  - vm_compute. discriminate.
Defined.

Lemma displayJSON_unsupported_witness :
  after_last_dot (str "/home/me/data.JSON") <> str "json"
  /\ after_last_dot (str "/home/me/data.JSON") <> str "txt"
  /\ rawJsonInput
       (step table_shortest_decimal fixed_message
          (Opened (Some (str "/home/me/data.JSON")) (ReadLines [str "[1]"]))
          started)
     = rawJsonInput started
  /\ displayData
       (step table_shortest_decimal fixed_message
          (Opened (Some (str "/home/me/data.JSON")) (ReadLines [str "[1]"]))
          started)
     = displayData started.
Proof.
  split; [ vm_compute; discriminate | ].
  split; [ vm_compute; discriminate | ].
  apply (displayJSON_unsupported table_shortest_decimal fixed_message
           (str "/home/me/data.JSON") (ReadLines [str "[1]"]) started).
  - vm_compute. discriminate.
  - vm_compute. discriminate.
Defined.

Lemma errorMessage_after_success_witness :
  JSON_parse fixed_message (rawJsonInput started) = inl sample_value
  /\ prints table_shortest_decimal sample_value
  /\ errorMessage (step table_shortest_decimal fixed_message ClickToggle started)
     = []
  /\ errorMessage
       (step table_shortest_decimal fixed_message
          (Saved (SavePath (str "/home/me/out.json")) None) started)
     = str "File saved successfully!".
Proof.
  assert (H : JSON_parse fixed_message (rawJsonInput started) = inl sample_value)
    by (vm_compute; reflexivity).
  assert (P : prints table_shortest_decimal sample_value)
    by (repeat constructor; vm_compute; reflexivity).
  split; [ exact H | ]. split; [ exact P | ].
  destruct (errorMessage_after_success table_shortest_decimal fixed_message)
    as (_ & _ & Hformat & _ & _ & _ & Hsave).
  split.
  - apply (Hformat started sample_value ClickToggle H P). right. right. left.
    reflexivity.
  - apply Hsave. discriminate.
Defined.

(** A path without a full stop is its own extension, and the comparison
    tells upper case from lower case. *)
Lemma after_last_dot_examples :
  after_last_dot (str "/home/me/README") = str "/home/me/README"
  /\ after_last_dot (str "json") = str "json"
  /\ after_last_dot (str "archive.tar.JSON") = str "JSON"
  /\ includes fileExtensions (str "JSON") = false
  /\ includes fileExtensions (str "json") = true.
Proof. repeat split. Qed.

Lemma empty_diagnostic_in_sync_witness :
  (forall T, fixed_message T <> [])
  /\ (forall x, isFinite x = true -> integer_value x = None ->
        number_literal (exact_decimal x))
  /\ errorMessage (run exact_decimal fixed_message sample_events started) = []
  /\ parse_text
       (rawJsonInput (run exact_decimal fixed_message sample_events started))
     = Some (displayData
               (run exact_decimal fixed_message sample_events started)).
Proof.
  assert (M : forall T, fixed_message T <> []) by discriminate.
  assert (E : errorMessage (run exact_decimal fixed_message sample_events started)
              = []) by (vm_compute; reflexivity).
  split; [ exact M | ]. split; [ exact exact_decimal_literal | ].
  split; [ exact E | ].
  exact (proj2 (empty_diagnostic_in_sync exact_decimal fixed_message
                  sample_events M exact_decimal_literal) E).
Defined.

Lemma open_valid_file_witness :
  parse_text (file_text example_lines) = Some example_value
  /\ displayData
       (step table_shortest_decimal fixed_message
          (Dropped [example_path] (ReadLines example_lines))
          (run table_shortest_decimal fixed_message [ClickToggle] started))
     = example_value.
Proof.
  assert (H : parse_text (file_text example_lines) = Some example_value)
    by (vm_compute; reflexivity).
  assert (P : prints table_shortest_decimal example_value)
    by (repeat constructor; vm_compute; reflexivity).
  split; [ exact H | ].
  apply (open_valid_file table_shortest_decimal fixed_message [ClickToggle]
           example_path [] example_lines example_value
           ltac:(discriminate) ltac:(reflexivity) H P
           (Dropped [example_path] (ReadLines example_lines))
           ltac:(right; left; reflexivity)).
  repeat constructor; vm_compute; reflexivity.
Defined.

Lemma open_invalid_file_witness :
  parse_text (trim (file_text [truncated_text])) = None
  /\ rawJsonInput
       (step table_shortest_decimal fixed_message
          (Opened (Some example_path) (ReadLines [truncated_text])) started)
     = trim (file_text [truncated_text])
  /\ displayData
       (step table_shortest_decimal fixed_message
          (Opened (Some example_path) (ReadLines [truncated_text])) started)
     = displayData started.
Proof.
  assert (H : parse_text (trim (file_text [truncated_text])) = None)
    by (vm_compute; reflexivity).
  split; [ exact H | ].
  destruct (open_invalid_file table_shortest_decimal fixed_message
              example_path [truncated_text] started
              ltac:(discriminate) ltac:(reflexivity) H)
    as (H1 & H2 & _).
  split; [ exact H1 | exact H2 ].
Defined.

Lemma open_blank_file_witness :
  Forall (fun line => forallb is_trim_space line = true) [str "  "; []]
  /\ rawJsonInput
       (step table_shortest_decimal fixed_message
          (Opened (Some example_path) (ReadLines [str "  "; []])) started)
     = []
  /\ errorMessage
       (step table_shortest_decimal fixed_message
          (Opened (Some example_path) (ReadLines [str "  "; []])) started)
     = fixed_message [].
Proof.
  assert (H : Forall (fun line => forallb is_trim_space line = true) [str "  "; []])
    by (repeat constructor).
  split; [ exact H | ].
  destruct (open_blank_file table_shortest_decimal fixed_message
              example_path [str "  "; []] started
              ltac:(discriminate) ltac:(reflexivity) H)
    as (H1 & _ & H3).
  split; [ exact H1 | exact H3 ].
Defined.

Lemma save_then_open_witness :
  parse_text (rawJsonInput (run table_shortest_decimal fixed_message [] started))
  = Some sample_value
  /\ Forall (reads_back table_shortest_decimal) (numbers_of sample_value)
  /\ displayData
       (step table_shortest_decimal fixed_message
          (Opened (Some example_path) (ReadLines (split LF (rawJsonInput started))))
          (step table_shortest_decimal fixed_message
             (Saved (SavePath example_path) None) started))
     = sample_value.
Proof.
  assert (H : parse_text
                (rawJsonInput (run table_shortest_decimal fixed_message [] started))
              = Some sample_value) by (vm_compute; reflexivity).
  assert (N : Forall (reads_back table_shortest_decimal) (numbers_of sample_value))
    by (repeat constructor; vm_compute; reflexivity).
  split; [ exact H | ]. split; [ exact N | ].
  apply (save_then_open table_shortest_decimal fixed_message [] example_path
           sample_value ltac:(discriminate) ltac:(reflexivity) H N).
Defined.

Lemma toggle_formats_to_mode_witness :
  parse_text (rawJsonInput started) = Some sample_value
  /\ Forall (reads_back table_shortest_decimal) (numbers_of sample_value)
  /\ isFormatMode
       (step table_shortest_decimal fixed_message ClickToggle
          (step table_shortest_decimal fixed_message ClickToggle started))
     = isFormatMode started.
Proof.
  assert (H : parse_text (rawJsonInput started) = Some sample_value)
    by (vm_compute; reflexivity).
  assert (N : Forall (reads_back table_shortest_decimal) (numbers_of sample_value))
    by (repeat constructor; vm_compute; reflexivity).
  split; [ exact H | ]. split; [ exact N | ].
  apply (toggle_formats_to_mode table_shortest_decimal fixed_message started
           sample_value H N).
Defined.

Lemma format_minify_absorb_witness :
  parse_text (rawJsonInput started) = Some sample_value
  /\ Forall (reads_back table_shortest_decimal) (numbers_of sample_value)
  /\ rawJsonInput
       (step table_shortest_decimal fixed_message ClickFormat
          (step table_shortest_decimal fixed_message ClickMinify started))
     = rawJsonInput (step table_shortest_decimal fixed_message ClickFormat started).
Proof.
  assert (H : parse_text (rawJsonInput started) = Some sample_value)
    by (vm_compute; reflexivity).
  assert (N : Forall (reads_back table_shortest_decimal) (numbers_of sample_value))
    by (repeat constructor; vm_compute; reflexivity).
  split; [ exact H | ]. split; [ exact N | ].
  apply (format_minify_absorb table_shortest_decimal fixed_message started
           sample_value H N ClickMinify ClickFormat);
    [ right; left; reflexivity | left; reflexivity ].
Defined.

Lemma tree_edit_shows_text_witness :
  prints table_shortest_decimal unrepresentable_value
  /\ displayData
       (step table_shortest_decimal fixed_message (TreeEdited unrepresentable_value)
          (run table_shortest_decimal fixed_message [ClickToggle] started))
     = normalize table_shortest_decimal unrepresentable_value.
Proof.
  assert (P : prints table_shortest_decimal unrepresentable_value).
  { repeat constructor; intros H; try discriminate H; vm_compute; reflexivity. }
  split; [ exact P | ].
  apply (tree_edit_shows_text table_shortest_decimal fixed_message [ClickToggle]
           unrepresentable_value P).
Defined.

Lemma tree_edit_integers_witness :
  canonical integer_value_example = true
  /\ integral integer_value_example
  /\ displayData
       (step (fun _ => []) fixed_message (TreeEdited integer_value_example)
          (run (fun _ => []) fixed_message [] started))
     = integer_value_example.
Proof.
  assert (C : canonical integer_value_example = true) by reflexivity.
  assert (I : integral integer_value_example).
  { repeat constructor;
      [ exists 9007199254740991%Z | exists (-42)%Z | exists 0%Z ];
      (split; [ vm_compute; reflexivity | reflexivity ]). }
  split; [ exact C | ]. split; [ exact I | ].
  apply (tree_edit_integers (fun _ => []) fixed_message [] integer_value_example C I).
Defined.

Lemma nul_terminated_lines_witness :
  Forall (fun line => endsWithNul line = false) [str "[1,"; str "2]"]
  /\ step table_shortest_decimal fixed_message
       (Opened (Some example_path)
          (ReadLines (map (fun line => line ++ [0%N]) [str "[1,"; str "2]"])))
       started
     = step table_shortest_decimal fixed_message
         (Opened (Some example_path) (ReadLines [str "[1,"; str "2]"])) started.
Proof.
  assert (H : Forall (fun line => endsWithNul line = false) [str "[1,"; str "2]"])
    by (repeat constructor).
  split; [ exact H | ].
  apply (nul_terminated_lines table_shortest_decimal fixed_message
           (Some example_path) [str "[1,"; str "2]"] started H).
Defined.

Lemma color_survives_restart_witness :
  Forall (fun color => color <> []) [str "#ff0000"; str "#00ff00"]
  /\ textareaBackgroundColor
       (fst (mounted (snd (session [] [str "#ff0000"; str "#00ff00"])) initial_view))
     = textareaBackgroundColor (fst (session [] [str "#ff0000"; str "#00ff00"])).
Proof.
  assert (H : Forall (fun color => color <> []) [str "#ff0000"; str "#00ff00"])
    by (repeat constructor; discriminate).
  split; [ exact H | ].
  apply (color_survives_restart [] [str "#ff0000"; str "#00ff00"] H).
Defined.

Lemma decreaseFontSize_floor_witness :
  7 <= 9
  /\ inputFontSize (Nat.iter 9 decreaseFontSize initial_view) = literal "0.5".
Proof.
  split; [ lia | ]. apply (decreaseFontSize_floor 9). lia.
Defined.

Lemma minify_one_line_witness :
  parse_text (rawJsonInput started) = Some sample_value
  /\ prints table_shortest_decimal sample_value
  /\ forallb printable
       (rawJsonInput (step table_shortest_decimal fixed_message ClickMinify started))
     = true.
Proof.
  assert (H : parse_text (rawJsonInput started) = Some sample_value)
    by (vm_compute; reflexivity).
  assert (P : prints table_shortest_decimal sample_value)
    by (repeat constructor; vm_compute; reflexivity).
  split; [ exact H | ]. split; [ exact P | ].
  exact (proj1 (minify_one_line table_shortest_decimal fixed_message started
                  sample_value H P)).
Defined.

Lemma format_keeps_all_but_numbers_witness :
  parse_text (rawJsonInput (set_rawJsonInput (str "[1e999, true]") started))
  = Some (JArray [JNumber (S754_infinity false); JBool true])
  /\ prints table_shortest_decimal
       (JArray [JNumber (S754_infinity false); JBool true])
  /\ parse_text
       (rawJsonInput
          (step table_shortest_decimal fixed_message ClickFormat
             (set_rawJsonInput (str "[1e999, true]") started)))
     = Some (normalize table_shortest_decimal
               (JArray [JNumber (S754_infinity false); JBool true])).
Proof.
  assert (H : parse_text
                (rawJsonInput (set_rawJsonInput (str "[1e999, true]") started))
              = Some (JArray [JNumber (S754_infinity false); JBool true]))
    by (vm_compute; reflexivity).
  assert (P : prints table_shortest_decimal
                (JArray [JNumber (S754_infinity false); JBool true])).
  { repeat constructor. discriminate. }
  split; [ exact H | ]. split; [ exact P | ].
  exact (proj1 (format_keeps_all_but_numbers table_shortest_decimal fixed_message
                  _ _ H P ClickFormat (or_introl eq_refl))).
Defined.

(** * Where the spec and the code part *)

(** A literal too large for binary64 parses to infinity, which
    [JSON.stringify] writes as [null]: after format and minify the text no
    longer parses to what it parsed to. *)
Lemma format_then_minify_overflow :
  JSON_parse fixed_message
    (rawJsonInput (set_rawJsonInput (str "1e999") started))
  = inl (JNumber (S754_infinity false))
  /\ rawJsonInput
       (minifyJson table_shortest_decimal fixed_message
          (formatJson table_shortest_decimal fixed_message
             (set_rawJsonInput (str "1e999") started)))
     = str "null"
  /\ JSON_parse fixed_message
       (rawJsonInput
          (minifyJson table_shortest_decimal fixed_message
             (formatJson table_shortest_decimal fixed_message
                (set_rawJsonInput (str "1e999") started))))
     <> JSON_parse fixed_message
          (rawJsonInput (set_rawJsonInput (str "1e999") started)).
Proof.
  split; [ vm_compute; reflexivity | ].
  split; [ vm_compute; reflexivity | ].
  vm_compute. discriminate.
Qed.

(** A save that succeeds leaves a message in the diagnostic. *)
Lemma save_success_diagnostic :
  saveFile (SavePath (str "/home/me/out.json")) None started
  = (set_defaultPath (str "/home/me/out.json")
       (set_errorMessage (str "File saved successfully!") started),
     Some (str "/home/me/out.json", sample))
  /\ errorMessage
       (step table_shortest_decimal fixed_message
          (Saved (SavePath (str "/home/me/out.json")) None) started)
     = str "File saved successfully!"
  /\ errorMessage
       (step table_shortest_decimal fixed_message
          (Saved (SavePath (str "/home/me/out.json")) None) started)
     <> [].
Proof.
  split; [ reflexivity | ].
  split; [ vm_compute; reflexivity | ].
  vm_compute. discriminate.
Qed.
